(** * Dark-flight propagator: a shallow embedding of DFN_DarkFlight.py,
      DarkFlight_main.py and df_functions.py

    Floating-point numbers are modelled by the real numbers of the Standard
    Library, numpy arrays by lists of reals, and every module the scripts
    import but do not define (trajectory_utilities, atm_functions,
    orbital_utilities, scipy, srtm, numpy.random) by a record of the functions
    the scripts call. *)

From Stdlib Require Import Reals Lra Lia Psatz List ZArith Bool Arith.
From Stdlib Require Import Sorted FunctionalExtensionality.
From Stdlib Require String Ascii.
Import ListNotations.

Open Scope R_scope.

(** ** Numbers and arrays *)

Definition Rlt_b (x y : R) : bool := if Rlt_dec x y then true else false.
Definition Rle_b (x y : R) : bool := if Rle_dec x y then true else false.

(** Python's [x ** y] on floats, for a positive base. *)
Definition powf (x y : R) : R := Rpower x y.

Definition deg2rad (x : R) : R := x * (PI / 180).
Definition rad2deg (x : R) : R := x * (180 / PI).

(** [np.mod(x, m)]: the remainder has the sign of the divisor. *)
Definition np_mod (x m : R) : R := x - m * IZR (Int_part (x / m)).

(** A one-dimensional numpy array; a column vector [np.vstack((a, b, c))] is
    the list of its entries. *)
Definition vec : Type := list R.

(** [X[i]] *)
Definition idx (X : vec) (i : nat) : R := nth i X 0.

(** [X[a:b]] for [0 <= a <= b]. *)
Definition slice {A : Type} (a b : nat) (X : list A) : list A :=
  firstn (b - a) (skipn a X).

(** [X[a:b] = v], for [v] of length [b - a]: entry [i] of the slice becomes
    [v[i - a]], every other entry stays. *)
Definition set_slice (a b : nat) (v X : vec) : vec :=
  map (fun i => if Nat.leb a i && Nat.ltb i b then nth (i - a) v 0 else nth i X 0)
      (seq 0 (length X)).

Definition zeros (n : nat) : vec := repeat 0 n.

Fixpoint zip_with {A B C : Type} (f : A -> B -> C) (u : list A) (v : list B)
  : list C :=
  match u, v with
  | x :: u', y :: v' => f x y :: zip_with f u' v'
  | _, _ => []
  end.

Definition vadd (u v : vec) : vec := zip_with Rplus u v.
Definition vsub (u v : vec) : vec := zip_with Rminus u v.
Definition vscale (c : R) (v : vec) : vec := map (Rmult c) v.

Definition sum_sq (v : vec) : R := fold_right (fun x s => x * x + s) 0 v.

(** [numpy.linalg.norm]: the 2-norm of a vector, the Frobenius norm of a
    matrix handed over as the list of its entries (0 for an empty array). *)
Definition norm (v : vec) : R := sqrt (sum_sq v).

Definition dot (u v : vec) : R := fold_right Rplus 0 (zip_with Rmult u v).

(** [np.dot(C, v)] for a matrix given by its rows. *)
Definition mat_vec (C : list vec) (v : vec) : vec := map (fun row => dot row v) C.

(** [np.cross(a, b, axis=0)] on 3-vectors. *)
Definition cross (a b : vec) : vec :=
  [ idx a 1 * idx b 2 - idx a 2 * idx b 1;
    idx a 2 * idx b 0 - idx a 0 * idx b 2;
    idx a 0 * idx b 1 - idx a 1 * idx b 0 ].

(** Arrays of length [n] whose entry [i] (and entry [j]) is zero. *)
Definition flat_at (i n : nat) (k : vec) : Prop := length k = n /\ idx k i = 0.

Definition flat2_at (i j n : nat) (k : vec) : Prop :=
  length k = n /\ idx k i = 0 /\ idx k j = 0.

(** The builtin [max] and [min] of a non-empty column. *)
Definition max_list (l : list R) : R :=
  match l with
  | [] => 0
  | x :: l' => fold_left Rmax l' x
  end.

Definition min_list (l : list R) : R :=
  match l with
  | [] => 0
  | x :: l' => fold_left Rmin l' x
  end.

(** [np.argmax] and [np.argmin]: the first index of an extremal entry. *)
Fixpoint argmax_from (l : list R) (i best : nat) (bv : R) : nat :=
  match l with
  | [] => best
  | x :: l' =>
      if Rlt_b bv x then argmax_from l' (S i) i x
      else argmax_from l' (S i) best bv
  end.

Definition argmax (l : list R) : nat :=
  match l with
  | [] => 0%nat
  | x :: l' => argmax_from l' 1 0 x
  end.

Fixpoint argmin_from (l : list R) (i best : nat) (bv : R) : nat :=
  match l with
  | [] => best
  | x :: l' =>
      if Rlt_b x bv then argmin_from l' (S i) i x
      else argmin_from l' (S i) best bv
  end.

Definition argmin (l : list R) : nat :=
  match l with
  | [] => 0%nat
  | x :: l' => argmin_from l' 1 0 x
  end.

(** Negative indices of a sequence of length [n]: [l[-2:-1]] and [l[-1:]]. *)
Definition slice_m2_m1 {A : Type} (l : list A) : list A :=
  slice (length l - 2) (length l - 1) l.

Definition slice_m1 {A : Type} (l : list A) : list A :=
  skipn (length l - 1) l.

(** ** The imported modules *)

(** [trajectory_utilities]: frames and geodesy.  Positions are 3-vectors, a
    geodetic position is [lat; lon; height] with angles in radians. *)
Record trajectory_utilities : Type := {
  ECEF2LLH : vec -> vec;
  LLH2ECEF : vec -> vec;
  ECI2ECEF_pos : vec -> R -> vec;
  ECEF2ECI_pos : vec -> R -> vec;
  ECEF2ECI : vec -> vec -> R -> vec * vec;
  ENU2ECEF : R -> R -> list vec;
  EarthRadius : R -> R;
  gravity_vector : vec -> vec;
  OMEGA_EARTH : R
}.

(** [atm_functions]: [dragcoeff(v, temp, rho_a, A)] returns
    [(cd, re, kn, mach)]. *)
Record atm_functions : Type := {
  dragcoeff : R -> R -> R -> R -> R * R * R * R;
  cd_hypersonic : R -> R
}.

(** [orbital_utilities.NRLMSISE_00(Pos_LLH, t_jd, pos_type='llh')[:3]]:
    temperature, pressure and density of the reference atmosphere. *)
Record orbital_utilities : Type := {
  NRLMSISE_00 : vec -> R -> R * R * R
}.

(** [scipy.interpolate.interp1d(x, y, kind='cubic')(h)] *)
Record scipy_interpolate : Type := {
  interp1d_cubic : list R -> list R -> R -> R
}.

(** [srtm.get_data(...).get_elevation(lat_deg, lon_deg)]: [None] on a void
    or a missing tile. *)
Record srtm_data : Type := {
  get_elevation : R -> R -> option R
}.

(** ** Atmosphere datasets *)

(** One row of the tabular sounding, columns
    ['# Height', 'TempK', 'Press', 'RHum', 'Wind', 'WDir']. *)
Record Layer : Type := mkLayer {
  Height : R;
  TempK : R;
  Press : R;
  RHum : R;
  Wind : R;
  WDir : R
}.

(** The default row for looking a layer up by its index. *)
Definition no_layer : Layer := mkLayer 0 0 0 0 0 0.

(** The gridded forecast [WindArray = [lat,lon,hei,we,wn,wu,temp,pres,rh]]:
    nine fields over the same cells, each field flattened to the list of its
    cell values. *)
Definition Grid : Type := list (list R).

(** [type(WindData) == Table] tells the sounding from the grid. *)
Inductive WindSource : Type :=
| Table1D : list Layer -> WindSource
| Array3D : Grid -> WindSource.

(** ** df_functions.py *)

Module df_functions.

(** [density_from_pressure(temperature, pressure, RH)]: the polynomial of
    Herman Wobus for the saturation vapour pressure. *)
Definition density_from_pressure (temperature pressure RH : R) : R :=
  let Rd := 287.05 in
  let e_so := 6.1078 in
  let c0 := 0.99999683 in
  let c1 := -0.90826951e-2 in
  let c2 := 0.78736169e-4 in
  let c3 := -0.61117958e-6 in
  let c4 := 0.43884187e-8 in
  let c5 := -0.29883885e-10 in
  let c6 := 0.21874425e-12 in
  let c7 := -0.17892321e-14 in
  let c8 := 0.11112018e-16 in
  let c9 := -0.30994571e-19 in
  let p := c0 + temperature * (
           c1 + temperature * (
           c2 + temperature * (
           c3 + temperature * (
           c4 + temperature * (
           c5 + temperature * (
           c6 + temperature * (
           c7 + temperature * (
           c8 + temperature * (
           c9))))))))) in
  let sat_vp := e_so / p ^ 8 in
  let Pv := sat_vp * RH in
  (pressure / (Rd * temperature)) * (1 - (0.378 * Pv / pressure)).

Section Sampler.

Context (tu : trajectory_utilities) (ou : orbital_utilities)
        (si : scipy_interpolate).

(** Lines 69-72: the rotational component of the wind in the ECI frame. *)
Definition v_rot (Pos_ECI : vec) (t_jd : R) : vec :=
  let north_pole_ecef := [0; 0; 6356.75231e3] in
  let north_pole_eci := ECEF2ECI_pos tu north_pole_ecef t_jd in
  let earth_ang_rot :=
    map (fun x => OMEGA_EARTH tu * x / norm north_pole_eci) north_pole_eci in
  cross earth_ang_rot Pos_ECI.

(** Lines 77-78 of the sounding branch:
    [Pos_ECEF = ECEF2LLH(Pos_ECI); Pos_LLH = ECEF2LLH(Pos_ECEF)]. *)
Definition sounding_Pos_LLH (Pos_ECI : vec) : vec :=
  let Pos_ECEF := ECEF2LLH tu Pos_ECI in
  ECEF2LLH tu Pos_ECEF.

(** Lines 125-126 of the reference branch:
    [Pos_ECEF = ECI2ECEF_pos(Pos_ECI, t_jd); Pos_LLH = ECEF2LLH(Pos_ECEF)]. *)
Definition reference_Pos_LLH (Pos_ECI : vec) (t_jd : R) : vec :=
  let Pos_ECEF := ECI2ECEF_pos tu Pos_ECI t_jd in
  ECEF2LLH tu Pos_ECEF.

(** Lines 82-105: the wind data of the sounding at height [h], as
    [(Wind, WDir, TempK, Press, RHum)].  Over the reals the three tests are
    exhaustive, so the final [else] of the source is not reached. *)
Definition sounding_fields (WindData : list Layer) (h : R)
  : R * R * R * R * R :=
  let heights := map Height WindData in
  let at_row i :=
    let row := nth i WindData no_layer in
    (Wind row, WDir row, TempK row, Press row, RHum row) in
  if Rlt_b (max_list heights) h then
    at_row (argmax heights)
  else if Rle_b h (max_list heights) && Rle_b (min_list heights) h then
    (interp1d_cubic si heights (map Wind WindData) h,
     interp1d_cubic si heights (map WDir WindData) h,
     interp1d_cubic si heights (map TempK WindData) h,
     interp1d_cubic si heights (map Press WindData) h,
     interp1d_cubic si heights (map RHum WindData) h)
  else
    at_row (argmin heights).

(** [AtmosphericModel(WindData, Pos_ECI, t_jd)] returns
    [(Wind_ECI, rho_a, TempK)].  An empty list stands for the call with [[]]
    and for an empty table.  The append to the diagnostic [WRF_history] is
    left out. *)
Definition AtmosphericModel (WindData : list Layer) (Pos_ECI : vec) (t_jd : R)
  : vec * R * R :=
  if negb (Nat.eqb (length WindData) 0) then
    let Pos_LLH := sounding_Pos_LLH Pos_ECI in
    let h := idx Pos_LLH 2 in
    let '(Wind, WDir, TempK, Press, RHum) := sounding_fields WindData h in
    let rho_a := density_from_pressure TempK Press RHum in
    let Wind_ENU :=
      map Ropp [ Wind * sin (deg2rad WDir); Wind * cos (deg2rad WDir); 0 ] in
    let lat := idx Pos_LLH 0 in
    let lon := idx Pos_LLH 1 in
    let C_ENU2ECI :=
      [ [ - sin lon; - sin lat * cos lon; cos lat * cos lon ];
        [   cos lon; - sin lat * sin lon; cos lat * sin lon ];
        [   0      ;   cos lat          ; sin lat           ] ] in
    let Wind_ECI := vadd (mat_vec C_ENU2ECI Wind_ENU) (v_rot Pos_ECI t_jd) in
    (Wind_ECI, rho_a, TempK)
  else
    let Pos_LLH := reference_Pos_LLH Pos_ECI t_jd in
    let '(TempK, Press, rho_a) := NRLMSISE_00 ou Pos_LLH t_jd in
    let Wind_ECI := v_rot Pos_ECI t_jd in
    (Wind_ECI, rho_a, TempK).

End Sampler.

End df_functions.

(** [WRF3D(WindArray, Pos_LLH)] of df_functions.py returns
    [(Wind_ENU, rho_a, tk)]; it interpolates the grid with [wrf.interplevel]
    and [scipy.interpolate.griddata] and falls back on the diagnostic
    history.  Nothing below depends on the values it returns, so it is a
    parameter of the dynamics. *)
Record grid_sampler : Type := {
  WRF3D : Grid -> vec -> vec * R * R
}.

(** ** The integrator

    [scipy.integrate.ode] with the ['dopri5'] method is not part of the
    repository.  An accepted step is modelled by the explicit Runge-Kutta
    formula of the Dormand-Prince 5(4) pair; the sizes of the accepted steps,
    which the step-size controller chooses, are an input of the model.  The
    observer set with [set_solout] is called at the initial point and after
    every accepted step, and the integration ends when it returns [-1]. *)

Module Integrator.

Record tableau : Type := {
  rk_rows : list (R * list R);   (* the node c_i and the row a_i1 .. a_i,i-1 *)
  rk_b : list R                  (* the weights of the solution *)
}.

Definition dopri5 : tableau := {|
  rk_rows :=
    [ (0, []);
      (1/5, [1/5]);
      (3/10, [3/40; 9/40]);
      (4/5, [44/45; -56/15; 32/9]);
      (8/9, [19372/6561; -25360/2187; 64448/6561; -212/729]);
      (1, [9017/3168; -355/33; 46732/5247; 49/176; -5103/18656]) ];
  rk_b := [35/384; 0; 500/1113; 125/192; -2187/6784; 11/84]
|}.

(** [sum_j coef_j * ks_j] on arrays of length [n]. *)
Fixpoint lincomb (n : nat) (coef : list R) (ks : list vec) : vec :=
  match coef, ks with
  | a :: coef', k :: ks' => vadd (vscale a k) (lincomb n coef' ks')
  | _, _ => zeros n
  end.

(** The stage derivatives [k_i = f(t + c_i h, y + h sum_j a_ij k_j)]. *)
Fixpoint rk_stages (f : R -> vec -> vec) (h t : R) (y : vec)
    (rows : list (R * list R)) (ks : list vec) : list vec :=
  match rows with
  | [] => ks
  | (c, a) :: rows' =>
      let Y := vadd y (vscale h (lincomb (length y) a ks)) in
      rk_stages f h t y rows' (ks ++ [f (t + c * h) Y])
  end.

(** One accepted step of size [h] from [(t, y)]. *)
Definition rk_step (tab : tableau) (f : R -> vec -> vec) (h t : R) (y : vec)
  : vec :=
  let ks := rk_stages f h t y (rk_rows tab) [] in
  vadd y (vscale h (lincomb (length y) (rk_b tab) ks)).

(** The integration loop: [solout] sees [(t, y)], then either ends the
    integration or the next accepted step is taken.  [hs] lists the sizes of
    the accepted steps; the integrator also stops when they run out (its
    step budget [nsteps]). *)
Fixpoint integrate {S : Type} (tab : tableau) (f : R -> vec -> vec)
    (solout : R -> vec -> S -> Z * S) (hs : list R) (t : R) (y : vec) (s : S)
  : S :=
  let '(cmd, s') := solout t y s in
  if Z.eqb cmd (-1) then s'
  else
    match hs with
    | [] => s'
    | h :: hs' => integrate tab f solout hs' (t + h) (rk_step tab f h t y) s'
    end.

(** The samples handed to an observer that decides on the sample alone, in
    order: the initial point, then the result of each accepted step up to
    the first sample on which the observer answers [-1]. *)
Fixpoint offered {S : Type} (tab : tableau) (f : R -> vec -> vec)
    (solout : R -> vec -> (list vec * list R) -> Z * S)
    (hs : list R) (t : R) (y : vec) : list (R * vec) :=
  (t, y) ::
  (if Z.eqb (fst (solout t y ([], []))) (-1) then []
   else match hs with
        | [] => []
        | h :: hs' => offered tab f solout hs' (t + h) (rk_step tab f h t y)
        end).

End Integrator.

(** ** numpy.random

    The generator is a stream of samples of the unit interval [[0, 1)];
    [np.random.uniform(low, high, size)] maps [size] of them to
    [low + (high - low) * u] and leaves the rest of the stream. *)

Definition RNG : Type := nat -> R.

Definition uniform (low high : R) (size : nat) (rng : RNG) : list R * RNG :=
  (map (fun i => low + (high - low) * rng i) (seq 0 size),
   fun i => rng (size + i)%nat).

(** What the observer records: the lists [state] and [T_rel]. *)
Definition Recorded : Type := (list vec * list R)%type.

(** Column assignments of the sounding table. *)
Definition set_Wind (vals : list R) (W : list Layer) : list Layer :=
  zip_with (fun row v =>
    mkLayer (Height row) (TempK row) (Press row) (RHum row) v (WDir row)) W vals.

Definition set_WDir (vals : list R) (W : list Layer) : list Layer :=
  zip_with (fun row v =>
    mkLayer (Height row) (TempK row) (Press row) (RHum row) (Wind row) v) W vals.

(** [G[k,:,:,:] = v] *)
Definition set_field (k : nat) (v : list R) (G : Grid) : Grid :=
  firstn k G ++ [v] ++ skipn (S k) G.

(** [c_ml[mask] = value], the mask being taken on [rho]. *)
Definition assign_where (mask : R -> bool) (value : R) (rho c_ml : vec) : vec :=
  zip_with (fun r c => if mask r then value else c) rho c_ml.

(** ** DFN_DarkFlight.py *)

Module DFN_DarkFlight.

(** The shape argument: ['s'], ['c'], ['b'] or the text of a float. *)
Inductive shape_arg : Type :=
| shape_s : shape_arg
| shape_c : shape_arg
| shape_b : shape_arg
| shape_float : R -> shape_arg.

(** The ground height argument: ['a'] (SRTM lookup) or the text of a float. *)
Inductive ground_arg : Type :=
| ground_auto : ground_arg
| ground_const : R -> ground_arg.

(** [{'shape': A, 'c_ml': c_ml}]; a float [c_ml] is the array of length 1. *)
Record ParameterDict : Type := {
  shape : R;
  c_ml : vec
}.

(** The dictionary [Propagate] returns: [time_jd] and, column by column
    (one column per sample), the array [X_all] from which [pos_eci],
    [vel_eci], [mass], [rho], [shape] and [c_ml] are cut. *)
Record DarkDict : Type := {
  time_jd : list R;
  X_all : list vec
}.

Definition pos_eci (d : DarkDict) : list vec := map (slice 0 3) (X_all d).
Definition vel_eci (d : DarkDict) : list vec := map (slice 3 6) (X_all d).
Definition mass (d : DarkDict) : list R := map (fun X => idx X 6) (X_all d).

(** [args = [WindData, h_ground, windspd_err, winddir_err, mc]] *)
Record Args : Type := {
  WindData : WindSource;
  h_ground : ground_arg;
  windspd_err : R;
  winddir_err : R;
  mc : Z
}.

Section Core.

Context (tu : trajectory_utilities) (af : atm_functions)
        (ou : orbital_utilities) (si : scipy_interpolate)
        (gs : grid_sampler) (elevation_data : srtm_data).

(** Lines 73-90 of [EarthDynamics]: the atmospheric velocity, density and
    temperature.  The builtin [max] over the height field
    [WindData[2,:,:,:]] of the grid compares whole levels with each other,
    which numpy allows only when a level is a single cell; for such a grid
    it is the maximum over the cells, as in the [Array3D] branch below.  On a
    grid with more cells to a level lines 84-85 raise ValueError:
    the [Array3D] branch describes grids of one cell to a level only. *)
Definition atmosphere (WindData : WindSource) (Pos_ECI : vec) (t_jd : R)
  : vec * R * R :=
  let Pos_ECEF := ECI2ECEF_pos tu Pos_ECI t_jd in
  let Pos_LLH := ECEF2LLH tu Pos_ECEF in
  match WindData with
  | Table1D W =>
      let maxwindheight := max_list (map Height W) in
      if Rlt_b maxwindheight (idx Pos_LLH 2) then
        df_functions.AtmosphericModel tu ou si [] Pos_ECI t_jd
      else
        df_functions.AtmosphericModel tu ou si W Pos_ECI t_jd
  | Array3D G =>
      let maxwindheight := max_list (nth 2 G []) in
      if Rlt_b maxwindheight (idx Pos_LLH 2) then
        df_functions.AtmosphericModel tu ou si [] Pos_ECI t_jd
      else
        let '(Wind_ENU, rho_a, temp) := WRF3D gs G Pos_LLH in
        let Wind_ECEF :=
          mat_vec (ENU2ECEF tu (idx Pos_LLH 1) (idx Pos_LLH 0)) Wind_ENU in
        let v_atm := snd (ECEF2ECI tu Pos_ECEF Wind_ECEF t_jd) in
        (v_atm, rho_a, temp)
  end.

(** [EarthDynamics(t, X, WindData, t0)], with [return_abs_mag] at its
    default [False] (no call sets it). *)
Definition EarthDynamics (t : R) (X : vec) (WindData : WindSource) (t0 : R)
  : vec :=
  let Pos_ECI := slice 0 3 X in
  let Vel_ECI := slice 3 6 X in
  let M := idx X 6 in
  let rho := idx X 7 in
  let A := idx X 8 in
  let c_ml := idx X 9 in
  let t_jd := t0 + t / (24 * 60 * 60) in
  let a_grav := gravity_vector tu Pos_ECI in
  let '(v_atm, rho_a, temp) := atmosphere WindData Pos_ECI t_jd in
  let v_rel := vsub Vel_ECI v_atm in
  let v := norm v_rel in
  let cd := fst (fst (fst (dragcoeff af v temp rho_a A))) in
  let a_drag :=
    map (fun x => - cd * A * rho_a * v * x
                  / (2 * powf M (1 / 3) * powf rho (2 / 3))) v_rel in
  let a_tot := vadd a_grav a_drag in
  let dm_dt :=
    - c_ml * A * rho_a * v ^ 3 * powf M (2 / 3) / (2 * powf rho (2 / 3)) in
  let X_dot := zeros (length X) in
  let X_dot := set_slice 0 3 Vel_ECI X_dot in
  let X_dot := set_slice 3 6 a_tot X_dot in
  let X_dot := set_slice 6 7 [dm_dt] X_dot in
  X_dot.

(** [InitialiseParams(rho, shape)]; a float [rho] is the array of length 1. *)
Definition InitialiseParams (rho : vec) (shape : shape_arg) : ParameterDict :=
  let A :=
    match shape with
    | shape_s => 1.21
    | shape_c => 1.60
    | shape_b => 2.7
    | shape_float x => x
    end in
  let cd_hyp := cd_hypersonic af A in
  let c_ml := zeros (length rho) in
  let c_ml :=
    assign_where (fun r => Rlt_b 5000 r) (0.07e-6 * cd_hyp) rho c_ml in
  let c_ml :=
    assign_where (fun r => Rlt_b 2500 r && Rle_b r 5000)
                 (0.014e-6 * cd_hyp) rho c_ml in
  let c_ml :=
    assign_where (fun r => Rlt_b 1500 r && Rle_b r 2500)
                 (0.042e-6 * cd_hyp) rho c_ml in
  let c_ml :=
    assign_where (fun r => Rle_b r 1500) (0.1e-6 * cd_hyp) rho c_ml in
  {| shape := A; c_ml := c_ml |}.

(** Lines 419-433 of [Propagate]: the copy of the wind data, randomised when
    [mc] is set. *)
Definition randomise_wind (WindData : WindSource)
    (windspd_err winddir_err : R) (mc : Z) (rng : RNG) : WindSource * RNG :=
  if Z.eqb mc 0 then (WindData, rng)
  else
    match WindData with
    | Table1D W =>
        let newW := W in
        let '(d_spd, rng) :=
          uniform (- windspd_err) windspd_err (length (map Wind W)) rng in
        let newW := set_Wind (vadd (map Wind W) d_spd) newW in
        let '(d_dir, rng) :=
          uniform (- windspd_err) winddir_err (length (map Wind W)) rng in
        let newW := set_WDir (vadd (map WDir W) d_dir) newW in
        let newW :=
          set_WDir (map (fun x => np_mod x 360.0) (map WDir newW)) newW in
        (Table1D newW, rng)
    | Array3D G =>
        let newG := G in
        let '(d3, rng) :=
          uniform (- windspd_err) windspd_err (length (nth 3 G [])) rng in
        let newG := set_field 3 (vadd (nth 3 G []) d3) newG in
        let '(d4, rng) :=
          uniform (- windspd_err) windspd_err (length (nth 4 G [])) rng in
        let newG := set_field 4 (vadd (nth 4 G []) d4) newG in
        (Array3D newG, rng)
    end.

(** Lines 448-455 and 484-490: the ground height at [(lt, ln)] (radians). *)
Definition ground_height (h_ground : ground_arg) (lt ln : R) : R :=
  match h_ground with
  | ground_auto =>
      match get_elevation elevation_data (rad2deg lt) (rad2deg ln) with
      | None => 0.0
      | Some h_gnd => h_gnd
      end
  | ground_const h => h
  end.

(** The observer [solout(t, X)] of [Propagate]; [state] and [T_rel] are
    threaded through. *)
Definition solout (t0 : R) (h_ground : ground_arg) (t : R) (X : vec)
    (rec : Recorded) : Z * Recorded :=
  let rec := (fst rec ++ [X], snd rec ++ [t]) in
  let Pos_ECI := slice 0 3 X in
  let Pos_ECF := ECI2ECEF_pos tu Pos_ECI (t0 + (t / (24 * 60 * 60))) in
  let LLH := ECEF2LLH tu Pos_ECF in
  let lt := idx LLH 0 in
  let ln := idx LLH 1 in
  let R_sealevel := EarthRadius tu lt in
  let h_gnd := ground_height h_ground lt ln in
  let r_end := R_sealevel + h_gnd in
  if Rlt_b (norm (slice 0 3 X)) r_end then ((-1)%Z, rec)
  else if Rlt_b (idx X 6) 1e-3 then ((-1)%Z, rec)
  else (0%Z, rec).

(** Lines 482-491: the terminal radius at the last recorded sample. *)
Definition final_r_end (h_ground : ground_arg) (X_all : list vec) (T : list R)
  : R :=
  let Pos_ECF_final :=
    ECI2ECEF_pos tu (slice 0 3 (last X_all [])) (last T 0) in
  let LLH := ECEF2LLH tu Pos_ECF_final in
  let lt := idx LLH 0 in
  let ln := idx LLH 1 in
  let h_gnd := ground_height h_ground lt ln in
  EarthRadius tu lt + h_gnd.

(** Lines 492-495: the fraction of the last step and the backtrack. *)
Definition fraction_of (r_end : R) (X_all : list vec) : R :=
  (norm (concat (map (slice 0 3) (slice_m2_m1 X_all))) - r_end)
  / (norm (concat (map (slice 0 3) (slice_m2_m1 X_all)))
     - norm (concat (map (slice 0 3) (slice_m1 X_all)))).

(** Lines 476-501: what [Propagate] does with the recorded samples.  The
    times are real numbers here; the scripts compute [T_rel / 86400 + t0] in
    doubles, where a Julian date near 2.46e6 resolves about 4e-5 s, so that
    the emitted times of samples closer than that can coincide. *)
Definition backtrack (t0 : R) (h_ground : ground_arg) (rec : Recorded)
  : DarkDict :=
  let '(state, T_rel) := rec in
  let T := map (fun t => t / (24 * 60 * 60) + t0) T_rel in
  let X_all := state in
  let r_end := final_r_end h_ground X_all T in
  let fraction := fraction_of r_end X_all in
  if Nat.ltb 1 (length X_all) then
    let X_m2 := nth (length X_all - 2) X_all [] in
    let X_m1 := nth (length X_all - 1) X_all [] in
    let T_m2 := nth (length T - 2) T 0 in
    let T_m1 := nth (length T - 1) T 0 in
    {| time_jd := removelast T ++ [T_m2 + fraction * (T_m1 - T_m2)];
       X_all := removelast X_all
                ++ [vadd X_m2 (vscale fraction (vsub X_m1 X_m2))] |}
  else
    {| time_jd := T; X_all := X_all |}.

(** [Propagate(state0, args)]; [rng] is the state of [np.random] and [hs]
    the sizes of the steps the integrator accepts. *)
Definition Propagate (state0 : vec) (args : Args) (rng : RNG) (hs : list R)
  : DarkDict :=
  let t0 := idx state0 0 in
  let X := skipn 1 state0 in
  let newWindData :=
    fst (randomise_wind (WindData args) (windspd_err args) (winddir_err args)
                        (mc args) rng) in
  let rec :=
    Integrator.integrate Integrator.dopri5
      (fun t X => EarthDynamics t X newWindData t0)
      (solout t0 (h_ground args)) hs 0 X ([], []) in
  backtrack t0 (h_ground args) rec.

End Core.

End DFN_DarkFlight.

(** ** DarkFlight_main.py (the variant with lift) *)

Module DarkFlight_main.

(** [{'shape': A, 'c_ml': c_ml}]; a float is the array of length 1. *)
Record ParameterDict : Type := {
  shape : vec;
  c_ml : vec
}.

(** The dictionary [Propagate] returns, with [X_all] column by column. *)
Record DarkDict : Type := {
  time_jd : list R;
  X_all : list vec;
  fraction : R
}.

Definition pos_eci (d : DarkDict) : list vec := map (slice 0 3) (X_all d).
Definition mass (d : DarkDict) : list R := map (fun X => idx X 6) (X_all d).

(** [args = [WindData, h_ground, c_lift]] *)
Record Args : Type := {
  WindData : WindSource;
  h_ground : R;
  c_lift : R
}.

Section Core.

Context (tu : trajectory_utilities) (af : atm_functions)
        (ou : orbital_utilities) (si : scipy_interpolate)
        (gs : grid_sampler).

(** Lines 88-98 of [EarthDynamics]: the atmospheric velocity, density and
    temperature. *)
Definition atmosphere (WindData : WindSource) (Pos_ECI : vec) (t_jd : R)
  : vec * R * R :=
  match WindData with
  | Table1D W => df_functions.AtmosphericModel tu ou si W Pos_ECI t_jd
  | Array3D G =>
      let Pos_ECEF := ECI2ECEF_pos tu Pos_ECI t_jd in
      let Pos_LLH := ECEF2LLH tu Pos_ECEF in
      let '(Wind_ENU, rho_a, temp) := WRF3D gs G Pos_LLH in
      let Wind_ECEF :=
        mat_vec (ENU2ECEF tu (idx Pos_LLH 1) (idx Pos_LLH 0)) Wind_ENU in
      let v_atm := snd (ECEF2ECI tu Pos_ECEF Wind_ECEF t_jd) in
      (v_atm, rho_a, temp)
  end.

(** [EarthDynamics(t, X, WindData, t0, cl)], with [return_abs_mag] at its
    default [False]. *)
Definition EarthDynamics (t : R) (X : vec) (WindData : WindSource) (t0 cl : R)
  : vec :=
  let Pos_ECI := slice 0 3 X in
  let Vel_ECI := slice 3 6 X in
  let M := idx X 6 in
  let rho := idx X 7 in
  let A := idx X 8 in
  let c_ml := idx X 9 in
  let t_jd := t0 + t / (24 * 60 * 60) in
  let a_grav := gravity_vector tu Pos_ECI in
  let '(v_atm, rho_a, temp) := atmosphere WindData Pos_ECI t_jd in
  let v_rel := vsub Vel_ECI v_atm in
  let v := norm v_rel in
  let cd := fst (fst (fst (dragcoeff af v temp rho_a A))) in
  let a_drag :=
    map (fun x => - cd * A * rho_a * v * x
                  / (2 * powf M (1 / 3) * powf rho (2 / 3))) v_rel in
  let v_rel3 := [idx v_rel 0; idx v_rel 1; idx v_rel 2] in
  let a_grav3 := [idx a_grav 0; idx a_grav 1; idx a_grav 2] in
  let n_lift :=
    map (fun x => x / norm (cross a_grav3 v_rel3)) (cross a_grav3 v_rel3) in
  let a_lift :=
    map (fun x => cl * A * rho_a * v ^ 2 * x
                  / (2 * powf M (1 / 3) * powf rho (2 / 3))) n_lift in
  let a_tot := vadd (vadd a_grav a_drag) a_lift in
  let dm_dt :=
    - c_ml * A * rho_a * v ^ 3 * powf M (2 / 3) / (2 * powf rho (2 / 3)) in
  let X_dot := zeros (length X) in
  let X_dot := set_slice 0 3 Vel_ECI X_dot in
  let X_dot := set_slice 3 6 a_tot X_dot in
  let X_dot := set_slice 6 7 [dm_dt] X_dot in
  X_dot.

(** [InitialiseParams(rho, shape)]: [shape] is a float, or one float per
    Monte-Carlo particle, and [cd_hypersonic] is applied entry by entry. *)
Definition InitialiseParams (rho : vec) (shape : vec) : ParameterDict :=
  let A := shape in
  let cd_hyp := map (cd_hypersonic af) A in
  let c_ml := map (fun c => 0.042e-6 * c) cd_hyp in
  {| shape := A; c_ml := c_ml |}.

(** The observer [solout(t, X)] of [Propagate]; [r_end] is fixed before the
    integration starts. *)
Definition solout (r_end : R) (t : R) (X : vec) (rec : Recorded)
  : Z * Recorded :=
  let rec := (fst rec ++ [X], snd rec ++ [t]) in
  if Rlt_b (norm (slice 0 3 X)) r_end then ((-1)%Z, rec)
  else if Rlt_b (idx X 6) 1e-3 then ((-1)%Z, rec)
  else if Rlt_b (idx X 6) 0 then ((-1)%Z, rec)
  else (0%Z, rec).

(** Line 278: the terminal radius at the last recorded sample. *)
Definition final_r_end (h_ground : R) (X_all : list vec) : R :=
  EarthRadius tu (idx (ECEF2LLH tu (concat (map (slice 0 3) (slice_m1 X_all)))) 0)
  + h_ground.

(** Line 279. *)
Definition fraction_of (r_end : R) (X_all : list vec) : R :=
  (norm (concat (map (slice 0 3) (slice_m2_m1 X_all))) - r_end)
  / (norm (concat (map (slice 0 3) (slice_m2_m1 X_all)))
     - norm (concat (map (slice 0 3) (slice_m1 X_all)))).

(** Lines 273-289: what [Propagate] does with the recorded samples.  As in
    DFN_DarkFlight.py the times are real numbers here and doubles in the
    script, where emitted times of samples closer than about 4e-5 s can
    coincide. *)
Definition backtrack (t0 h_ground : R) (rec : Recorded) : DarkDict :=
  let '(state, T_rel) := rec in
  let T := map (fun t => t / (24 * 60 * 60) + t0) T_rel in
  let X_all := state in
  let r_end := final_r_end h_ground X_all in
  let fraction := fraction_of r_end X_all in
  if Nat.ltb 1 (length X_all) then
    let X_m2 := nth (length X_all - 2) X_all [] in
    let X_m1 := nth (length X_all - 1) X_all [] in
    let T_m2 := nth (length T - 2) T 0 in
    let T_m1 := nth (length T - 1) T 0 in
    {| time_jd := removelast T ++ [T_m2 + fraction * (T_m1 - T_m2)];
       X_all := removelast X_all
                ++ [vadd X_m2 (vscale fraction (vsub X_m1 X_m2))];
       fraction := fraction |}
  else
    {| time_jd := T; X_all := X_all; fraction := fraction |}.

(** [Propagate(state0, args)]; [hs] lists the sizes of the steps the
    integrator accepts. *)
Definition Propagate (state0 : vec) (args : Args) (hs : list R) : DarkDict :=
  let Pos_ECI := slice 1 4 state0 in
  let t0 := idx state0 0 in
  let X := skipn 1 state0 in
  let R_sealevel := EarthRadius tu (idx (ECEF2LLH tu Pos_ECI) 0) in
  let r_end := R_sealevel + h_ground args in
  let rec :=
    Integrator.integrate Integrator.dopri5
      (fun t X => EarthDynamics t X (WindData args) t0 (c_lift args))
      (solout r_end) hs 0 X ([], []) in
  backtrack t0 (h_ground args) rec.

End Core.

End DarkFlight_main.

(** ** Parallel runner: the partition of N particles over [size] ranks *)

Module Runner.

(** [N = len(M); n = np.array([N//size]*size); n[:(N%size)] += 1] *)
Definition partition (N size : nat) : list nat :=
  let n := repeat (N / size)%nat size in
  map S (firstn (N mod size) n) ++ skipn (N mod size) n.

(** What a rank does once it knows [n]:
    [if not n[rank]: print('Terminating additional core.'); exit()];
    otherwise it takes part in the scatter.  The statement after the scatter
    builds [args] from names that are bound in the [if rank == 0:] branch
    only ([c_l] in DarkFlight_main.py; [windspd_err], [winddir_err] and [mc]
    in DFN_DarkFlight.py), so a rank >= 1 that holds particles stops there
    with a NameError and hands nothing to the gather.  Rank 0 propagates its
    [n[0]] particles and reaches the gather with their rows.  These are the
    lines from the partition on, as they are written in both scripts; in
    DFN_DarkFlight.py rank 0 reads [args.sphericity] (line 803), an option
    its parser does not define, before it gets to them. *)
Inductive rank_outcome : Type :=
| Terminated : rank_outcome
| Raises : rank_outcome
| Contributes : nat -> rank_outcome.

Definition rank_main (n : list nat) (rank : nat) : rank_outcome :=
  if Nat.eqb (nth rank n 0%nat) 0 then Terminated
  else if Nat.eqb rank 0 then Contributes (nth rank n 0%nat)
  else Raises.

(** The rows a rank hands to the gather, one per particle it propagated (for
    a run of more than one particle). *)
Definition rows_of (o : rank_outcome) : nat :=
  match o with
  | Terminated => 0
  | Raises => 0
  | Contributes k => k
  end.

(** One particle is one row of [DATA0]: [t0], the ten entries of the state
    and the weight.  [State = data0.T[:11]; W = data0.T[11]]: the first goes
    to [Propagate], the second is written back with the results
    ([data[:,19] = W]). *)
Definition State_of (row : vec) : vec := slice 0 11 row.
Definition W_of (row : vec) : R := idx row 11.

End Runner.

(** ** The claimed banding of the mass-loss coefficient

    The specification's table for sigma, read literally:
    rho > 5000 gives 0.07e-6; 2500 < rho <= 5000 gives 0.014e-6;
    1500 < rho <= 2500 gives 0.042e-6; rho <= 1500 gives 0.1e-6. *)
Definition spec_sigma (rho_bulk : R) : R :=
  if Rlt_b 5000 rho_bulk then 0.07e-6
  else if Rlt_b 2500 rho_bulk then 0.014e-6
  else if Rlt_b 1500 rho_bulk then 0.042e-6
  else 0.1e-6.

(** ** The backtrack of the claim

    The interpolation [X_prev + f * (X_last - X_prev)] between the last two
    recorded samples. *)
Definition interpolated (f : R) (X_prev X_last : vec) : vec :=
  vadd X_prev (vscale f (vsub X_last X_prev)).

(** ** A world to run the code in

    A spherical, non-rotating Earth of radius 6371 km with central gravity,
    a constant drag coefficient and a thin isothermal reference atmosphere:
    concrete instances of the imported modules, used to evaluate the
    embedding on concrete inputs. *)

Module Sphere.

Definition R0 : R := 6371000.

Definition atan2 (y x : R) : R :=
  if Rlt_b 0 x then atan (y / x)
  else if Rlt_b x 0 then
    (if Rle_b 0 y then atan (y / x) + PI else atan (y / x) - PI)
  else if Rlt_b 0 y then PI / 2
  else if Rlt_b y 0 then - (PI / 2)
  else 0.

Definition sphere_ECEF2LLH (p : vec) : vec :=
  [ asin (idx p 2 / norm p); atan2 (idx p 1) (idx p 0); norm p - R0 ].

Definition sphere_LLH2ECEF (l : vec) : vec :=
  [ (R0 + idx l 2) * cos (idx l 0) * cos (idx l 1);
    (R0 + idx l 2) * cos (idx l 0) * sin (idx l 1);
    (R0 + idx l 2) * sin (idx l 0) ].

Definition tu : trajectory_utilities := {|
  ECEF2LLH := sphere_ECEF2LLH;
  LLH2ECEF := sphere_LLH2ECEF;
  ECI2ECEF_pos := fun p _ => p;
  ECEF2ECI_pos := fun p _ => p;
  ECEF2ECI := fun p v _ => (p, v);
  ENU2ECEF := fun lon lat =>
    [ [ - sin lon; - sin lat * cos lon; cos lat * cos lon ];
      [   cos lon; - sin lat * sin lon; cos lat * sin lon ];
      [   0      ;   cos lat          ; sin lat           ] ];
  EarthRadius := fun _ => R0;
  gravity_vector := fun p => map (fun x => - 3.986005e14 * x / norm p ^ 3) p;
  OMEGA_EARTH := 0
|}.

Definition af : atm_functions := {|
  dragcoeff := fun _ _ _ _ => (2, 0, 0, 0);
  cd_hypersonic := fun _ => 2
|}.

(** Reference atmosphere: 1000 K, 1e-3 Pa, 1e-9 kg/m3 everywhere. *)
Definition ou : orbital_utilities := {|
  NRLMSISE_00 := fun _ _ => (1000, 1e-3, 1e-9)
|}.

(** The straight line through the first and the last point of the table. *)
Definition si : scipy_interpolate := {|
  interp1d_cubic := fun xs ys h =>
    nth 0 ys 0
    + (h - nth 0 xs 0) / (last xs 0 - nth 0 xs 0) * (last ys 0 - nth 0 ys 0)
|}.

Definition gs : grid_sampler := {|
  WRF3D := fun _ _ => ([0; 0; 0], 1.2, 288)
|}.

(** No SRTM tile anywhere. *)
Definition elevation_data : srtm_data := {|
  get_elevation := fun _ _ => None
|}.

(** A two-layer sounding: sea level and 30 km. *)
Definition sounding : list Layer :=
  [ mkLayer 0 288 101325 0.5 5 90;
    mkLayer 30000 226 1200 0 20 270 ].

End Sphere.

(** ** Concrete particles and recorded trajectories *)

Module Scenarios.

(** Arguments of the two [Propagate]: the two-layer sounding, sea level as
    ground, no Monte-Carlo, no lift. *)
Definition dfn_args : DFN_DarkFlight.Args := {|
  DFN_DarkFlight.WindData := Table1D Sphere.sounding;
  DFN_DarkFlight.h_ground := DFN_DarkFlight.ground_const 0;
  DFN_DarkFlight.windspd_err := 2;
  DFN_DarkFlight.winddir_err := 0;
  DFN_DarkFlight.mc := 0
|}.

Definition main_args : DarkFlight_main.Args := {|
  DarkFlight_main.WindData := Table1D Sphere.sounding;
  DarkFlight_main.h_ground := 0;
  DarkFlight_main.c_lift := 0
|}.

(** One column of [State]: [t0], position, velocity, mass, bulk density,
    shape, mass-loss coefficient.  Half a gram of dust 30 km up. *)
Definition dust_state0 : vec :=
  [ 2459000; 6401000; 0; 0; -1000; 1600; 0; 0.0005; 3500; 1.21; 0.028e-6 ].

(** A particle that starts 1 km below the terminal radius. *)
Definition buried_state0 : vec :=
  [ 2459000; 6370000; 0; 0; -100; 0; 0; 1; 3500; 1.21; 0.028e-6 ].

(** A kilogram 40 km up whose mass-loss coefficient is zero. *)
Definition inert_X : vec :=
  [ 6411000; 0; 0; -1000; 1600; 0; 1; 3500; 1.21; 0 ].





(** Two recorded samples one second apart, 30 km up: the body descends
    1000.1 m along the first axis while it moves 1600 m across, and its mass
    drops from 1.1 g to 0.9 g. *)
Definition dust_prev : vec :=
  [ 6401000; 0; 0; -1000.1; 1600; 0; 0.0011; 3500; 1.21; 0.028e-6 ].
Definition dust_last : vec :=
  [ 6399999.9; 1600; 0; -1000.1; 1600; 0; 0.0009; 3500; 1.21; 0.028e-6 ].
Definition dust_rec : Recorded := ([dust_prev; dust_last], [0; 1]).

(** Two recorded samples a tenth of a second apart around sea level: a
    vertical fall at 100 m/s from 4 m above to 6 m below the terminal
    radius. *)
Definition fall_prev : vec :=
  [ 6371004; 0; 0; -100; 0; 0; 1; 3500; 1.21; 0.028e-6 ].
Definition fall_last : vec :=
  [ 6370994; 0; 0; -100; 0; 0; 1; 3500; 1.21; 0.028e-6 ].
Definition fall_rec : Recorded := ([fall_prev; fall_last], [10; 10.1]).

(** Two recorded samples three seconds apart that straddle sea level on a
    grazing path: radii 6371001 m and 6370999 m, 10 km apart across (the
    components come from the Pythagorean triple 6492303, 5096, 6492305). *)
Definition graze_prev : vec :=
  [ 6371001 * 6492303 / 6492305; - (6371001 * 5096 / 6492305); 0;
    -0.7; 3333; 0; 1; 3500; 1.21; 0.028e-6 ].
Definition graze_last : vec :=
  [ 6370999 * 6492303 / 6492305; 6370999 * 5096 / 6492305; 0;
    -0.7; 3333; 0; 1; 3500; 1.21; 0.028e-6 ].
Definition graze_rec : Recorded := ([graze_prev; graze_last], [10; 13]).

End Scenarios.

(** ** More concrete inputs *)

Module Inputs.

(** The kilogram 40 km up with zero mass-loss coefficient, as a column of
    [State]. *)
Definition inert_state0 : vec := 2459000 :: Scenarios.inert_X.

(** A forecast grid of one cell, [[lat,lon,hei,we,wn,wu,temp,pres,rh]]:
    10 m/s to the east, 20 m/s to the north and 0.5 m/s upwards. *)
Definition one_cell_grid : Grid :=
  [[-30]; [130]; [1000]; [10]; [20]; [0.5]; [280]; [90000]; [50]].

End Inputs.

(** ** Parallel runner: the scatter of [DATA0] *)

Module Scatter.

(** [np.cumsum] *)
Fixpoint cumsum_from (acc : nat) (l : list nat) : list nat :=
  match l with
  | [] => []
  | x :: l' => (acc + x)%nat :: cumsum_from (acc + x) l'
  end.

Definition cumsum (l : list nat) : list nat := cumsum_from 0 l.

(** [sendcounts = states0*n] *)
Definition sendcounts (states0 : nat) (n : list nat) : list nat :=
  map (Nat.mul states0) n.

(** [displacements = np.hstack((0,np.cumsum(sendcounts)[:-1]))] *)
Definition displacements (sendcounts : list nat) : list nat :=
  0%nat :: removelast (cumsum sendcounts).

End Scatter.

(** ** The saturation polynomial of the density

    The polynomial [p] of [density_from_pressure], on its own. *)
Definition wobus (temperature : R) : R :=
  0.99999683 + temperature * (
  -0.90826951e-2 + temperature * (
  0.78736169e-4 + temperature * (
  -0.61117958e-6 + temperature * (
  0.43884187e-8 + temperature * (
  -0.29883885e-10 + temperature * (
  0.21874425e-12 + temperature * (
  -0.17892321e-14 + temperature * (
  0.11112018e-16 + temperature * (
  -0.30994571e-19))))))))).

(** ** PropagateMultiple

    [State0] is the list of the columns of the array, one per particle;
    [hs_of i] lists the sizes of the steps the integrator accepts for
    particle [i].  The result has one entry per particle: the last sample
    of its trajectory. *)

Module DFN_DarkFlight_loop.

Record LandingDict : Type := {
  time_jd : list R;
  pos_eci : list vec;
  vel_eci : list vec;
  mass : list R;
  rho : list R;
  shape : list R;
  c_ml : list R
}.

Section Core.

Context (tu : trajectory_utilities) (af : atm_functions)
        (ou : orbital_utilities) (si : scipy_interpolate)
        (gs : grid_sampler) (elevation_data : srtm_data).

(** The state in which a call of [Propagate] leaves [np.random]. *)
Definition rng_after (args : DFN_DarkFlight.Args) (rng : RNG) : RNG :=
  snd (DFN_DarkFlight.randomise_wind
         (DFN_DarkFlight.WindData args) (DFN_DarkFlight.windspd_err args)
         (DFN_DarkFlight.winddir_err args) (DFN_DarkFlight.mc args) rng).

(** [for i in range(N_outputs): DarkDict = Propagate(State0[:,i:i+1], args)] *)
Fixpoint runs (State0 : list vec) (args : DFN_DarkFlight.Args) (rng : RNG)
    (hs_of : nat -> list R) (i : nat) : list DFN_DarkFlight.DarkDict :=
  match State0 with
  | [] => []
  | state0 :: rest =>
      DFN_DarkFlight.Propagate tu af ou si gs elevation_data state0 args rng
        (hs_of i)
      :: runs rest args (rng_after args rng) hs_of (S i)
  end.

Definition PropagateMultiple (State0 : list vec) (args : DFN_DarkFlight.Args)
    (rng : RNG) (hs_of : nat -> list R) : LandingDict :=
  let DarkDicts := runs State0 args rng hs_of 0 in
  {| pos_eci := map (fun d => last (DFN_DarkFlight.pos_eci d) []) DarkDicts;
     vel_eci := map (fun d => last (DFN_DarkFlight.vel_eci d) []) DarkDicts;
     time_jd := map (fun d => last (DFN_DarkFlight.time_jd d) 0) DarkDicts;
     mass := map (fun d => last (DFN_DarkFlight.mass d) 0) DarkDicts;
     rho := map (fun d => last (map (fun X => idx X 7)
                                    (DFN_DarkFlight.X_all d)) 0) DarkDicts;
     shape := map (fun d => last (map (fun X => idx X 8)
                                      (DFN_DarkFlight.X_all d)) 0) DarkDicts;
     c_ml := map (fun d => last (map (fun X => idx X 9)
                                     (DFN_DarkFlight.X_all d)) 0) DarkDicts |}.

End Core.

(** The number of samples one call of [Propagate] takes from [np.random]:
    none without Monte-Carlo, two draws per layer of a sounding, one draw per
    cell of each of the two perturbed fields of a grid. *)
Definition draws (args : DFN_DarkFlight.Args) : nat :=
  if Z.eqb (DFN_DarkFlight.mc args) 0 then 0%nat
  else
    match DFN_DarkFlight.WindData args with
    | Table1D W => (length W + length W)%nat
    | Array3D G => (length (nth 3 G []) + length (nth 4 G []))%nat
    end.

End DFN_DarkFlight_loop.

Module DarkFlight_main_loop.

(** [Fract[i] = DarkDict['fraction'][-1]]: the fraction is read as the array
    of length 1 it has to be for the subscript. *)
Record LandingDict : Type := {
  time_jd : list R;
  pos_eci : list vec;
  vel_eci : list vec;
  mass : list R;
  rho : list R;
  shape : list R;
  c_ml : list R;
  fraction : list R
}.

Section Core.

Context (tu : trajectory_utilities) (af : atm_functions)
        (ou : orbital_utilities) (si : scipy_interpolate)
        (gs : grid_sampler).

Fixpoint runs (State0 : list vec) (args : DarkFlight_main.Args)
    (hs_of : nat -> list R) (i : nat) : list DarkFlight_main.DarkDict :=
  match State0 with
  | [] => []
  | state0 :: rest =>
      DarkFlight_main.Propagate tu af ou si gs state0 args (hs_of i)
      :: runs rest args hs_of (S i)
  end.

Definition PropagateMultiple (State0 : list vec) (args : DarkFlight_main.Args)
    (hs_of : nat -> list R) : LandingDict :=
  let DarkDicts := runs State0 args hs_of 0 in
  {| pos_eci :=
       map (fun d => last (map (slice 0 3) (DarkFlight_main.X_all d)) [])
           DarkDicts;
     vel_eci :=
       map (fun d => last (map (slice 3 6) (DarkFlight_main.X_all d)) [])
           DarkDicts;
     time_jd := map (fun d => last (DarkFlight_main.time_jd d) 0) DarkDicts;
     mass := map (fun d => last (map (fun X => idx X 6)
                                     (DarkFlight_main.X_all d)) 0) DarkDicts;
     rho := map (fun d => last (map (fun X => idx X 7)
                                    (DarkFlight_main.X_all d)) 0) DarkDicts;
     shape := map (fun d => last (map (fun X => idx X 8)
                                      (DarkFlight_main.X_all d)) 0) DarkDicts;
     c_ml := map (fun d => last (map (fun X => idx X 9)
                                     (DarkFlight_main.X_all d)) 0) DarkDicts;
     fraction := map DarkFlight_main.fraction DarkDicts |}.

End Core.

End DarkFlight_main_loop.

(** ** InitialiseCFG: the initial velocity

    [Vel_ENU0 = vel * np.vstack((sin(zen)*sin(azi), sin(zen)*cos(azi),
    -cos(zen)))], the same line in both scripts: the three rows of the array,
    one entry per particle (one entry in all without Monte-Carlo). *)
Definition Vel_ENU0 (vel zen azi : vec) : list vec :=
  [ zip_with Rmult vel (zip_with (fun z a => sin z * sin a) zen azi);
    zip_with Rmult vel (zip_with (fun z a => sin z * cos a) zen azi);
    zip_with Rmult vel (map (fun z => - cos z) zen) ].

(** [A[:, i]] of an array given by its rows. *)
Definition column (A : list vec) (i : nat) : vec := map (fun row => idx row i) A.

(** The Monte-Carlo branch of [InitialiseCFG] in DarkFlight_main.py, lines
    169-184: the lateral velocity of the fragmentation.  [hei], [vel], [zen]
    and [azi0] are the arrays drawn with [np.random.normal], [a_break] the
    array drawn with [np.random.choice]; [x ** 0.5] is the square root. *)
Module DarkFlight_main_init.

Definition rho_aI (hei : vec) : vec :=
  map (fun h => -140.2 * exp (-0.000187 * h) + 141.4 * exp (-0.000186 * h)) hei.

Definition C_ltr (c_s rho : R) (hei : vec) : vec :=
  map (fun r => sqrt (c_s * r / rho)) (rho_aI hei).

Definition v_ltr (c_s rho : R) (hei vel : vec) : vec :=
  zip_with Rmult vel (C_ltr c_s rho hei).

(** [vel = (vel**2 + v_ltr**2)**0.5] *)
Definition vel (c_s rho : R) (hei vel0 : vec) : vec :=
  zip_with (fun v l => sqrt (v ^ 2 + l ^ 2)) vel0 (v_ltr c_s rho hei vel0).

Definition sinda (c_s rho : R) (hei zen a_break : vec) : vec :=
  zip_with (fun ca z => ca / sqrt (sin z ^ 2 + ca ^ 2))
    (zip_with (fun c a => c * sin a) (C_ltr c_s rho hei) a_break) zen.

Definition d_azimuth (c_s rho : R) (hei zen a_break : vec) : vec :=
  map asin (sinda c_s rho hei zen a_break).

Definition azi (c_s rho : R) (hei zen a_break azi0 : vec) : vec :=
  vadd azi0 (d_azimuth c_s rho hei zen a_break).

End DarkFlight_main_init.

(** ** The Monte-Carlo masses of InitialiseCFG

    [scipy.stats.truncnorm.rvs(loc=loc, scale=scale, a=a, b=b, size=size)]
    is not part of the repository: it returns [loc + scale * z] for [size]
    draws [z] of the standard normal law truncated to [[a, b]].  The draws
    are an input of the model. *)
Definition truncnorm_rvs (loc scale : R) (size : nat) (z : RNG) : list R :=
  map (fun i => loc + scale * z i) (seq 0 size).

Module DarkFlight_main_masses.

(** Lines 198-204 of DarkFlight_main.py:
    [b_m = (m_max-m_min)/m_sigma] and
    [M = truncnorm.rvs(loc=m_min, scale=m_sigma, a=0, b=b_m, size=mc)]. *)
Definition b_m (m_min m_max m_sigma : R) : R := (m_max - m_min) / m_sigma.

Definition M (m_min m_sigma : R) (mc : nat) (z : RNG) : list R :=
  truncnorm_rvs m_min m_sigma mc z.

End DarkFlight_main_masses.

Module DFN_DarkFlight_masses.

(** The text of [Config.get('montecarlo', 'dmass')]: a number followed by
    ['%'], or a number. *)
Inductive dmass : Type :=
| percent : R -> dmass
| absolute : R -> dmass.

(** Lines 313-325 of DFN_DarkFlight.py, for the nominal mass [M0] and bulk
    density [rho0]:
    [m_err = M * float(m_err[:-1]) / 100] or [float(m_err)],
    [M = truncnorm.rvs(loc=M, scale=m_err, a=0, b=np.inf, size=mc)],
    [rho = truncnorm.rvs(loc=rho, scale=rho_err, a=0, b=np.inf, size=mc)]. *)
Definition m_err (M0 : R) (d : dmass) : R :=
  match d with
  | percent p => M0 * p / 100
  | absolute e => e
  end.

Definition M (M0 : R) (d : dmass) (mc : nat) (z : RNG) : list R :=
  truncnorm_rvs M0 (m_err M0 d) mc z.

Definition rho (rho0 rho_err : R) (mc : nat) (z : RNG) : list R :=
  truncnorm_rvs rho0 rho_err mc z.

End DFN_DarkFlight_masses.

(** ** Initialise: the initial velocity from a fitted speed

    Lines 163-176 of DFN_DarkFlight.py, for [velType] ['eks'] or ['grits'].
    [ra_inf] and [dec_inf] are the two entries of [LastTimeStep.meta] and
    [vel] the entry of the speed column [v_col], [None] where the key is
    missing (the lookup raises [KeyError]); [Pos_ECEF0] is the first column
    of the last position and [Pos_ECEF1] the position of [TriData[-2]],
    [None] for a table of fewer than two rows (the subscript raises).  The
    result is [None] when an exception leaves the function. *)
Module DFN_DarkFlight_init.

Definition Vel_ECEF0 (ra_inf dec_inf vel : option R) (Pos_ECEF0 : vec)
    (Pos_ECEF1 : option vec) : option vec :=
  match ra_inf, dec_inf, vel with
  | Some ra_inf, Some dec_inf, Some vel =>
      let ra_ecef := deg2rad ra_inf in
      let dec_ecef := deg2rad dec_inf in
      Some (map (fun x => - vel * x)
              [ cos ra_ecef * cos dec_ecef;
                sin ra_ecef * cos dec_ecef;
                sin dec_ecef ])
  | _, _, _ =>
      match Pos_ECEF1 with
      | None => None
      | Some Pos_ECEF1 =>
          let radiant :=
            map (fun x => x / norm (vsub Pos_ECEF0 Pos_ECEF1))
                (vsub Pos_ECEF0 Pos_ECEF1) in
          match vel with
          | None => None
          | Some vel => Some (map (fun x => vel * x) radiant)
          end
      end
  end.

End DFN_DarkFlight_init.

(** ** InitialiseMC: the Monte-Carlo masses and velocities

    Lines 222-239 and 253-255 of DFN_DarkFlight.py.  [mass] is the value of
    the [--mass] option, [None] when it is not given; [if mass:] is false for
    [None] and for [0.0].  [rng] is the state of the generator when the
    masses are drawn; [vel_eci], [ra_eci] and [dec_eci] are the arrays drawn
    with [np.random.normal]. *)
Module DFN_DarkFlight_MC.

Definition truthy (mass : option R) : bool :=
  match mass with
  | None => false
  | Some m => if Req_dec_T m 0 then false else true
  end.

(** [len(M)] of [Initialise] (lines 140-145): one particle for a float mass,
    the 16 masses of the fall line when no mass is given. *)
Definition Initialise_particles (mass : option R) : nat :=
  match mass with
  | Some _ => 1
  | None => 16
  end.

(** [np.random.normal(loc, scale, size=mc)] with an array [loc] of [k]
    entries: the shapes [(k,)] and [(mc,)] have to broadcast, otherwise numpy
    raises ValueError. *)
Definition broadcasts (k mc : nat) : bool := Nat.eqb k 1 || Nat.eqb k mc.

(** The masses of InitialiseMC.  The masses are drawn after
    [A = np.random.normal(DarkDict0['shape'], shape_err, size=mc)] (line
    227), where [DarkDict0['shape']] has one entry for each particle of
    [Initialise]; [None] stands for the ValueError of that line, which is
    raised before any mass is drawn.  ([__main__] exits at lines 824-826
    when no mass is given in Monte-Carlo mode, so the script itself calls
    the function with a float mass.) *)
Definition M (mass : option R) (mass_err : R) (mc : nat) (rng : RNG)
  : option (list R) :=
  if broadcasts (Initialise_particles mass) mc then
    if truthy mass then
      let m := match mass with Some m => m | None => 0 end in
      Some (fst (uniform (m * (1 - mass_err)) (m * (1 + mass_err)) mc rng))
    else
      Some (fst (uniform 0.01 10 mc rng))
  else None.

(** [Vel_ECI0 = vel_eci * np.vstack((cos(ra)*cos(dec), sin(ra)*cos(dec),
    sin(dec)))], row by row. *)
Definition Vel_ECI0 (vel_eci ra_eci dec_eci : vec) : list vec :=
  [ zip_with Rmult vel_eci
      (zip_with (fun a d => cos a * cos d) ra_eci dec_eci);
    zip_with Rmult vel_eci
      (zip_with (fun a d => sin a * cos d) ra_eci dec_eci);
    zip_with Rmult vel_eci (map sin dec_eci) ].

End DFN_DarkFlight_MC.

(** ** random_perpendicular_unit_vector (DarkFlight_main.py)

    [a] is a column vector; [np.random.rand(3)] takes three samples of the
    unit interval. *)
Definition random_perpendicular_unit_vector (a : vec) (rng : RNG) : vec * RNG :=
  let n_a := norm a in
  let '(b, rng) := uniform 0 1 3 rng in
  let pb := map (fun x => dot b a * x / n_a ^ 2) a in
  let b := vsub b pb in
  let b := map (fun x => x / norm b) b in
  let a := [idx a 0; idx a 1; idx a 2] in
  let b := [idx b 0; idx b 1; idx b 2] in
  let cross_product := cross a b in
  let perpendicular_unit_vector :=
    map (fun x => x / norm cross_product) cross_product in
  (perpendicular_unit_vector, rng).

(** ** WindDataExtraction (df_functions.py): the interpolation in time

    [times_jd] are the times of the forecast file and [snapshot i] the array
    [[lat,lon,hei,we,wn,wu,temp,pres,rh]] that the loop builds with
    [getvar(WindFile, ..., timeidx=i)]; reading the file is not modelled.
    [np.searchsorted(a, v)] is, for an increasing [a], the first index whose
    entry is not below [v].  A subscript follows Python: a negative index
    counts from the end, an index out of range raises (the result is
    [None]). *)
Module df_functions_wind.

Fixpoint searchsorted (a : list R) (v : R) : nat :=
  match a with
  | [] => 0%nat
  | x :: a' => if Rlt_b x v then S (searchsorted a' v) else 0%nat
  end.

Definition py_index (l : list R) (i : Z) : option R :=
  let n := Z.of_nat (length l) in
  if (0 <=? i)%Z && (i <? n)%Z then Some (nth (Z.to_nat i) l 0)
  else if (- n <=? i)%Z && (i <? 0)%Z then Some (nth (Z.to_nat (n + i)) l 0)
  else None.

(** What the call does: whether it prints the warning, and the array. *)
Record Extraction : Type := {
  interp_factor : R;
  warned : bool;
  WindArray : Grid
}.

Definition WindDataExtraction (times_jd : list R) (snapshot : Z -> Grid)
    (t0 : R) : option Extraction :=
  let idx_after := Z.of_nat (searchsorted times_jd t0) in
  let idx_before := (idx_after - 1)%Z in
  match py_index times_jd idx_before, py_index times_jd idx_after with
  | Some t_before, Some t_after =>
      let interp_factor := (t0 - t_before) / (t_after - t_before) in
      let warned := Rlt_b interp_factor 0 || Rlt_b 1 interp_factor in
      let WindArray :=
        zip_with
          (zip_with (fun w0 w1 => (1 - interp_factor) * w0 + interp_factor * w1))
          (snapshot idx_before) (snapshot idx_after) in
      Some {| interp_factor := interp_factor;
              warned := warned;
              WindArray := WindArray |}
  | _, _ => None
  end.

End df_functions_wind.

(** ** From the landing states to the output table

    What [__main__] writes into [data], one row per particle, and what
    [WriteToFile] reads from the gathered [DATA].  An array with one column
    per particle ([Pos_ECI], [DATA.T[:3]], ...) is the list of its columns. *)
Module Output.

Record Landed : Type := {
  Pos_ECI : vec;
  Pos_ECEF : vec;
  Pos_LLH : vec;
  Vel_ECEF : vec;
  Vel_mag : R;
  T : R;
  M0 : R;
  M : R;
  rho : R;
  A : R;
  c_ml : R;
  W : R
}.

(** DFN_DarkFlight.py: [data = np.zeros((n[rank],20)); data[:,:3] =
    Pos_ECI.T; ...; data[:,19] = W] *)
Definition DFN_row (p : Landed) : vec :=
  let data := zeros 20 in
  let data := set_slice 0 3 (Pos_ECI p) data in
  let data := set_slice 3 6 (Pos_ECEF p) data in
  let data := set_slice 6 9 (Pos_LLH p) data in
  let data := set_slice 9 12 (Vel_ECEF p) data in
  let data := set_slice 12 13 [Vel_mag p] data in
  let data := set_slice 13 14 [T p] data in
  let data := set_slice 14 15 [M0 p] data in
  let data := set_slice 15 16 [M p] data in
  let data := set_slice 16 17 [rho p] data in
  let data := set_slice 17 18 [A p] data in
  let data := set_slice 18 19 [c_ml p] data in
  let data := set_slice 19 20 [W p] data in
  data.

(** DarkFlight_main.py: 21 entries, the last one [data[:,20] = Fract]. *)
Definition main_row (p : Landed) (Fract : R) : vec :=
  let data := zeros 21 in
  let data := set_slice 0 3 (Pos_ECI p) data in
  let data := set_slice 3 6 (Pos_ECEF p) data in
  let data := set_slice 6 9 (Pos_LLH p) data in
  let data := set_slice 9 12 (Vel_ECEF p) data in
  let data := set_slice 12 13 [Vel_mag p] data in
  let data := set_slice 13 14 [T p] data in
  let data := set_slice 14 15 [M0 p] data in
  let data := set_slice 15 16 [M p] data in
  let data := set_slice 16 17 [rho p] data in
  let data := set_slice 17 18 [A p] data in
  let data := set_slice 18 19 [c_ml p] data in
  let data := set_slice 19 20 [W p] data in
  let data := set_slice 20 21 [Fract] data in
  data.

(** [comm.Gatherv(data, [DATA, sendcounts, displacements, MPI.DOUBLE])]:
    the blocks of the ranks, one after the other. *)
Definition Gatherv (blocks : list (list vec)) : list vec := concat blocks.

(** The first statement of [WriteToFile]:
    [[Pos_ECI, Pos_ECEF, Pos_LLH, Vel_ECEF, Vel_mag, T, M0, M, rho, A, c_ml,
    W] = [DATA.T[:3], DATA.T[3:6], DATA.T[6:9], DATA.T[9:12], DATA.T[12],
    ..., DATA.T[19]]], with [fraction = DATA.T[20]] added in
    DarkFlight_main.py. *)
Definition read_row (row : vec) : Landed :=
  {| Pos_ECI := slice 0 3 row;
     Pos_ECEF := slice 3 6 row;
     Pos_LLH := slice 6 9 row;
     Vel_ECEF := slice 9 12 row;
     Vel_mag := idx row 12;
     T := idx row 13;
     M0 := idx row 14;
     M := idx row 15;
     rho := idx row 16;
     A := idx row 17;
     c_ml := idx row 18;
     W := idx row 19 |}.

Definition DFN_WriteToFile_columns (DATA : list vec) : list Landed :=
  map read_row DATA.

Definition main_WriteToFile_columns (DATA : list vec) : list (Landed * R) :=
  map (fun row => (read_row row, idx row 20)) DATA.

End Output.

(** The four triples of a landing state have three entries each. *)
Definition triples (p : Output.Landed) : Prop :=
  length (Output.Pos_ECI p) = 3%nat /\ length (Output.Pos_ECEF p) = 3%nat /\
  length (Output.Pos_LLH p) = 3%nat /\ length (Output.Vel_ECEF p) = 3%nat.

(** ** WRF3D (df_functions.py): the grid point next to a position

    Lines 186-196.  A field of one level, [WindArray[k,0]], is the list of
    its rows.  [a[start:stop]] follows Python: a negative bound counts from
    the end and both bounds are clipped to the length. *)
Module df_functions_grid.

Definition py_slice {A : Type} (start stop : Z) (l : list A) : list A :=
  let n := Z.of_nat (length l) in
  let clip i := if (i <? 0)%Z then Z.max 0 (i + n) else Z.min i n in
  firstn (Z.to_nat (clip stop - clip start)) (skipn (Z.to_nat (clip start)) l).

(** [ang_dist2 = (WindArray[0,0] - lat)**2 + (WindArray[1,0] - lon)**2] *)
Definition ang_dist2 (lat2d lon2d : list (list R)) (lat lon : R)
  : list (list R) :=
  zip_with (zip_with (fun a o => (a - lat) ^ 2 + (o - lon) ^ 2)) lat2d lon2d.

(** [min_index = np.argmin(ang_dist2); ncol = WindArray.shape[3];
    xid = min_index % ncol; yid = min_index // ncol]: the pair
    [(xid, yid)]. *)
Definition nearest (lat2d lon2d : list (list R)) (lat lon : R) : nat * nat :=
  let min_index := argmin (concat (ang_dist2 lat2d lon2d lat lon)) in
  let ncol := length (nth 0 lat2d []) in
  ((min_index mod ncol)%nat, (min_index / ncol)%nat).

(** [field[yid-1:yid+2, xid-1:xid+2]] *)
Definition block (field : list (list R)) (yid xid : nat) : list (list R) :=
  map (py_slice (Z.of_nat xid - 1) (Z.of_nat xid + 2))
      (py_slice (Z.of_nat yid - 1) (Z.of_nat yid + 2) field).

End df_functions_grid.

(** ** From the initial particles to the state of the integrator

    [DATA0 = np.zeros((N,12)); DATA0[:,0] = t0; DATA0[:,1:4] = Pos_ECI0.T;
    DATA0[:,4:7] = Vel_ECI0.T; DATA0[:,7] = M; DATA0[:,8] = rho;
    DATA0[:,9] = A; DATA0[:,10] = c_ml; DATA0[:,11] = W]: one row per
    particle, the same in both scripts. *)
Module Particles.

Record Particle : Type := {
  t0 : R;
  Pos_ECI0 : vec;
  Vel_ECI0 : vec;
  M : R;
  rho : R;
  A : R;
  c_ml : R;
  W : R
}.

Definition DATA0_row (p : Particle) : vec :=
  let DATA0 := zeros 12 in
  let DATA0 := set_slice 0 1 [t0 p] DATA0 in
  let DATA0 := set_slice 1 4 (Pos_ECI0 p) DATA0 in
  let DATA0 := set_slice 4 7 (Vel_ECI0 p) DATA0 in
  let DATA0 := set_slice 7 8 [M p] DATA0 in
  let DATA0 := set_slice 8 9 [rho p] DATA0 in
  let DATA0 := set_slice 9 10 [A p] DATA0 in
  let DATA0 := set_slice 10 11 [c_ml p] DATA0 in
  let DATA0 := set_slice 11 12 [W p] DATA0 in
  DATA0.

End Particles.

(** * Properties *)

(** ** Generic facts on arrays *)

Lemma Rlt_b_true (x y : R) : x < y -> Rlt_b x y = true.
Proof. intros H. unfold Rlt_b. destruct (Rlt_dec x y); [reflexivity | contradiction]. Qed.

Lemma Rlt_b_false (x y : R) : ~ x < y -> Rlt_b x y = false.
Proof. intros H. unfold Rlt_b. destruct (Rlt_dec x y); [contradiction | reflexivity]. Qed.

Lemma Rle_b_true (x y : R) : x <= y -> Rle_b x y = true.
Proof. intros H. unfold Rle_b. destruct (Rle_dec x y); [reflexivity | contradiction]. Qed.

Lemma Rle_b_false (x y : R) : ~ x <= y -> Rle_b x y = false.
Proof. intros H. unfold Rle_b. destruct (Rle_dec x y); [contradiction | reflexivity]. Qed.

Lemma Rlt_b_spec (x y : R) : reflect (x < y) (Rlt_b x y).
Proof. unfold Rlt_b. destruct (Rlt_dec x y); constructor; assumption. Qed.

Lemma Rle_b_spec (x y : R) : reflect (x <= y) (Rle_b x y).
Proof. unfold Rle_b. destruct (Rle_dec x y); constructor; assumption. Qed.

Lemma nth_map_seq {A : Type} (f : nat -> A) (n i : nat) (d : A) :
  (i < n)%nat -> nth i (map f (seq 0 n)) d = f i.
Proof.
  intros Hi.
  rewrite nth_indep with (d' := f 0%nat) by (rewrite length_map, length_seq; exact Hi).
  rewrite map_nth, seq_nth by exact Hi. reflexivity.
Qed.

Lemma length_set_slice (a b : nat) (v X : vec) :
  length (set_slice a b v X) = length X.
Proof. unfold set_slice. rewrite length_map, length_seq. reflexivity. Qed.

Lemma idx_overflow (X : vec) (i : nat) : (length X <= i)%nat -> idx X i = 0.
Proof. intros H. unfold idx. apply nth_overflow. exact H. Qed.

Lemma idx_set_slice_in (a b : nat) (v X : vec) (i : nat) :
  (i < length X)%nat -> (a <= i < b)%nat ->
  idx (set_slice a b v X) i = nth (i - a) v 0.
Proof.
  intros Hi [Ha Hb]. unfold idx, set_slice. rewrite nth_map_seq by exact Hi.
  destruct (Nat.leb_spec a i); [| lia].
  destruct (Nat.ltb_spec i b); [| lia]. reflexivity.
Qed.

Lemma idx_set_slice_out (a b : nat) (v X : vec) (i : nat) :
  ~ (a <= i < b)%nat -> idx (set_slice a b v X) i = idx X i.
Proof.
  intros Hout. destruct (Nat.lt_ge_cases i (length X)) as [Hi | Hi].
  - unfold idx, set_slice. rewrite nth_map_seq by exact Hi.
    destruct (Nat.leb_spec a i); destruct (Nat.ltb_spec i b);
      cbn [andb]; try reflexivity; lia.
  - rewrite !idx_overflow; [reflexivity | exact Hi |].
    rewrite length_set_slice. exact Hi.
Qed.

Lemma idx_zeros (n i : nat) : idx (zeros n) i = 0.
Proof.
  unfold idx, zeros. revert i.
  induction n as [|n IH]; intros [|i]; cbn; try reflexivity. apply IH.
Qed.

Lemma length_zeros (n : nat) : length (zeros n) = n.
Proof. apply repeat_length. Qed.

Lemma length_zip_with {A B C : Type} (f : A -> B -> C) (u : list A) (v : list B) :
  length (zip_with f u v) = Nat.min (length u) (length v).
Proof.
  revert v. induction u as [|x u IH]; intros [|y v]; cbn; try reflexivity.
  rewrite IH. reflexivity.
Qed.

Lemma length_vscale (c : R) (v : vec) : length (vscale c v) = length v.
Proof. apply length_map. Qed.

Lemma idx_vscale (c : R) (v : vec) (i : nat) :
  idx (vscale c v) i = c * idx v i.
Proof.
  unfold idx, vscale. revert i.
  induction v as [|x v IH]; intros [|i]; cbn; try lra. apply IH.
Qed.

Lemma idx_vadd (u v : vec) (i : nat) :
  length u = length v -> idx (vadd u v) i = idx u i + idx v i.
Proof.
  unfold idx, vadd. revert v i.
  induction u as [|x u IH]; intros [|y v] i Hl; try discriminate.
  - destruct i; cbn; lra.
  - destruct i; cbn; [reflexivity |]. apply IH. cbn in Hl. lia.
Qed.

Lemma idx_vsub (u v : vec) (i : nat) :
  length u = length v -> idx (vsub u v) i = idx u i - idx v i.
Proof.
  unfold idx, vsub. revert v i.
  induction u as [|x u IH]; intros [|y v] i Hl; try discriminate.
  - destruct i; cbn; lra.
  - destruct i; cbn; [reflexivity |]. apply IH. cbn in Hl. lia.
Qed.

Lemma length_vadd (u v : vec) :
  length u = length v -> length (vadd u v) = length u.
Proof. intros H. unfold vadd. rewrite length_zip_with, H. apply Nat.min_id. Qed.

Lemma length_vsub (u v : vec) :
  length u = length v -> length (vsub u v) = length u.
Proof. intros H. unfold vsub. rewrite length_zip_with, H. apply Nat.min_id. Qed.

(** ** The partition over the ranks *)

Lemma list_sum_map_S (l : list nat) :
  list_sum (map S l) = (list_sum l + length l)%nat.
Proof. induction l as [|x l IH]; simpl; [reflexivity | rewrite IH; lia]. Qed.

Lemma list_sum_repeat (x n : nat) : list_sum (repeat x n) = (n * x)%nat.
Proof. induction n as [|n IH]; simpl; [reflexivity | rewrite IH; lia]. Qed.

Lemma ceil_div (N W : nat) :
  (1 <= W)%nat ->
  ((N + W - 1) / W = N / W + (if Nat.eqb (N mod W) 0 then 0 else 1))%nat.
Proof.
  intros HW.
  assert (HWne : W <> 0%nat) by lia.
  pose proof (Nat.div_mod_eq N W) as Hdm.
  pose proof (Nat.mod_upper_bound N W HWne) as Hub.
  destruct (Nat.eqb_spec (N mod W) 0) as [H0 | Hne].
  - symmetry. apply Nat.div_unique with (r := (W - 1)%nat); lia.
  - symmetry. apply Nat.div_unique with (r := (N mod W - 1)%nat); lia.
Qed.

Lemma partition_length (N W : nat) : length (Runner.partition N W) = W.
Proof.
  unfold Runner.partition.
  rewrite length_app, length_map, length_firstn, length_skipn, repeat_length.
  lia.
Qed.

Lemma partition_nth (N W r : nat) :
  (1 <= W)%nat -> (r < W)%nat ->
  nth r (Runner.partition N W) 0%nat
  = (N / W + (if Nat.ltb r (N mod W) then 1 else 0))%nat.
Proof.
  intros HW Hr.
  assert (Hub : (N mod W < W)%nat) by (apply Nat.mod_upper_bound; lia).
  unfold Runner.partition.
  destruct (Nat.ltb_spec r (N mod W)) as [Hlt | Hge].
  - rewrite app_nth1 by (rewrite length_map, length_firstn, repeat_length; lia).
    rewrite nth_indep with (d' := S 0)
      by (rewrite length_map, length_firstn, repeat_length; lia).
    rewrite map_nth, nth_firstn.
    destruct (Nat.ltb_spec r (N mod W)); [| lia].
    rewrite nth_repeat_lt by lia. lia.
  - rewrite app_nth2 by (rewrite length_map, length_firstn, repeat_length; lia).
    rewrite length_map, length_firstn, repeat_length.
    rewrite nth_skipn.
    rewrite nth_repeat_lt by lia. lia.
Qed.

Lemma partition_sum (N W : nat) :
  (1 <= W)%nat -> list_sum (Runner.partition N W) = N.
Proof.
  intros HW.
  assert (Hub : (N mod W < W)%nat) by (apply Nat.mod_upper_bound; lia).
  unfold Runner.partition.
  rewrite list_sum_app, list_sum_map_S, length_firstn, repeat_length.
  rewrite Nat.min_l by lia.
  replace (list_sum (firstn (N mod W) (repeat (N / W)%nat W))
           + N mod W + list_sum (skipn (N mod W) (repeat (N / W)%nat W)))%nat
    with (list_sum (firstn (N mod W) (repeat (N / W)%nat W)
                    ++ skipn (N mod W) (repeat (N / W)%nat W)) + N mod W)%nat
    by (rewrite list_sum_app; lia).
  rewrite firstn_skipn, list_sum_repeat.
  pose proof (Nat.div_mod_eq N W). lia.
Qed.

(** C9: for N >= 1 particles and W >= 1 ranks the partition has one block per
    rank, every block holds floor(N/W) or ceil(N/W) particles, the blocks sum
    to N, and a rank whose block is empty terminates at once and hands no
    row to the gather. *)
Theorem partition_blocks (N W : nat) (HN : (1 <= N)%nat) (HW : (1 <= W)%nat) :
  length (Runner.partition N W) = W /\
  (forall r, (r < W)%nat ->
     nth r (Runner.partition N W) 0%nat = (N / W)%nat \/
     nth r (Runner.partition N W) 0%nat = ((N + W - 1) / W)%nat) /\
  list_sum (Runner.partition N W) = N /\
  (forall r, (r < W)%nat ->
     nth r (Runner.partition N W) 0%nat = 0%nat ->
     Runner.rank_main (Runner.partition N W) r = Runner.Terminated /\
     Runner.rows_of (Runner.rank_main (Runner.partition N W) r) = 0%nat).
Proof.
  split; [apply partition_length |].
  split; [| split; [apply partition_sum; assumption |]].
  - intros r Hr. rewrite partition_nth by assumption.
    rewrite ceil_div by assumption.
    destruct (Nat.ltb_spec r (N mod W)) as [Hlt | Hge].
    + right. destruct (Nat.eqb_spec (N mod W) 0); lia.
    + left. lia.
  - intros r Hr H0. unfold Runner.rank_main. rewrite H0. simpl. split; reflexivity.
Qed.

Lemma partition_blocks_witness :
  (1 <= 7)%nat /\ (1 <= 3)%nat /\
  Runner.partition 7 3 = [3; 2; 2]%nat /\
  list_sum (Runner.partition 7 3) = 7%nat.
Proof.
  split; [lia |]. split; [lia |]. split; [reflexivity |].
  exact (proj1 (proj2 (proj2 (partition_blocks 7 3 ltac:(lia) ltac:(lia))))).
Defined.

(** ** The mass-loss coefficient *)

Lemma InitialiseParams_c_ml (cd_hyp : R) (rho : vec) :
  assign_where (fun r => Rle_b r 1500) (0.1e-6 * cd_hyp) rho
    (assign_where (fun r => Rlt_b 1500 r && Rle_b r 2500) (0.042e-6 * cd_hyp) rho
      (assign_where (fun r => Rlt_b 2500 r && Rle_b r 5000) (0.014e-6 * cd_hyp) rho
        (assign_where (fun r => Rlt_b 5000 r) (0.07e-6 * cd_hyp) rho
          (zeros (length rho)))))
  = map (fun r => spec_sigma r * cd_hyp) rho.
Proof.
  induction rho as [|r rho IH]; [reflexivity |].
  cbn [length zeros repeat assign_where zip_with map].
  f_equal.
  - unfold spec_sigma.
    destruct (Rlt_b_spec 5000 r), (Rlt_b_spec 2500 r), (Rlt_b_spec 1500 r),
             (Rle_b_spec r 5000), (Rle_b_spec r 2500), (Rle_b_spec r 1500);
      cbn [andb]; try reflexivity; exfalso; lra.
  - exact IH.
Qed.

(** C5 (as amended): in DFN_DarkFlight.py the coefficient of every particle
    is sigma times Cd_hyp(A) with sigma banded in the bulk density as the
    specification says; in DarkFlight_main.py it is 0.042e-6 times Cd_hyp(A)
    whatever the bulk density. *)
Theorem mass_loss_coefficient_bands (af : atm_functions) (rho : vec)
    (s : DFN_DarkFlight.shape_arg) (A : vec) :
  DFN_DarkFlight.c_ml (DFN_DarkFlight.InitialiseParams af rho s)
  = map (fun r =>
           spec_sigma r
           * cd_hypersonic af
               (DFN_DarkFlight.shape (DFN_DarkFlight.InitialiseParams af rho s)))
        rho
  /\ DarkFlight_main.c_ml (DarkFlight_main.InitialiseParams af rho A)
     = map (fun a => 0.042e-6 * cd_hypersonic af a) A.
Proof.
  split.
  - unfold DFN_DarkFlight.InitialiseParams.
    cbn [DFN_DarkFlight.c_ml DFN_DarkFlight.shape].
    apply InitialiseParams_c_ml.
  - unfold DarkFlight_main.InitialiseParams. cbn [DarkFlight_main.c_ml].
    rewrite map_map. reflexivity.
Qed.

(** C5, the claim as stated fails on DarkFlight_main.py: at the default bulk
    density 3500 kg/m3 (band 2500 < rho <= 5000, sigma = 0.014e-6) a sphere
    with Cd_hyp = 2 gets 0.042e-6 * 2. *)
Lemma main_mass_loss_not_banded :
  DarkFlight_main.c_ml
    (DarkFlight_main.InitialiseParams Sphere.af [3500] [1.21])
  = [0.042e-6 * 2]
  /\ map (fun r => spec_sigma r * cd_hypersonic Sphere.af 1.21) [3500]
     = [0.014e-6 * 2]
  /\ 0.042e-6 * 2 <> 0.014e-6 * 2.
Proof.
  split; [reflexivity |]. split.
  - cbn [map Sphere.af cd_hypersonic]. unfold spec_sigma.
    rewrite (Rlt_b_false 5000 3500) by lra.
    rewrite (Rlt_b_true 2500 3500) by lra. reflexivity.
  - lra.
Qed.

(** ** The frame of the dynamics: bulk density, shape and mass-loss
       coefficient *)

Section Frame.

Context (tu : trajectory_utilities) (af : atm_functions)
        (ou : orbital_utilities) (si : scipy_interpolate)
        (gs : grid_sampler).

Lemma DFN_EarthDynamics_length (t : R) (X : vec) (W : WindSource) (t0 : R) :
  length (DFN_DarkFlight.EarthDynamics tu af ou si gs t X W t0) = length X.
Proof.
  unfold DFN_DarkFlight.EarthDynamics.
  destruct (DFN_DarkFlight.atmosphere tu ou si gs W (slice 0 3 X) _)
    as [[v_atm rho_a] temp].
  rewrite !length_set_slice. apply length_zeros.
Qed.

Lemma DFN_EarthDynamics_frame (t : R) (X : vec) (W : WindSource) (t0 : R)
    (i : nat) :
  (7 <= i)%nat ->
  idx (DFN_DarkFlight.EarthDynamics tu af ou si gs t X W t0) i = 0.
Proof.
  intros Hi. unfold DFN_DarkFlight.EarthDynamics.
  destruct (DFN_DarkFlight.atmosphere tu ou si gs W (slice 0 3 X) _)
    as [[v_atm rho_a] temp].
  rewrite !idx_set_slice_out by lia. apply idx_zeros.
Qed.

Lemma main_EarthDynamics_length (t : R) (X : vec) (W : WindSource) (t0 cl : R) :
  length (DarkFlight_main.EarthDynamics tu af ou si gs t X W t0 cl) = length X.
Proof.
  unfold DarkFlight_main.EarthDynamics.
  destruct (DarkFlight_main.atmosphere tu ou si gs W (slice 0 3 X) _)
    as [[v_atm rho_a] temp].
  rewrite !length_set_slice. apply length_zeros.
Qed.

Lemma main_EarthDynamics_frame (t : R) (X : vec) (W : WindSource) (t0 cl : R)
    (i : nat) :
  (7 <= i)%nat ->
  idx (DarkFlight_main.EarthDynamics tu af ou si gs t X W t0 cl) i = 0.
Proof.
  intros Hi. unfold DarkFlight_main.EarthDynamics.
  destruct (DarkFlight_main.atmosphere tu ou si gs W (slice 0 3 X) _)
    as [[v_atm rho_a] temp].
  rewrite !idx_set_slice_out by lia. apply idx_zeros.
Qed.

End Frame.

(** A Runge-Kutta step keeps every component whose derivative vanishes
    identically, whatever the tableau. *)
Section RKFrame.

Import Integrator.

Variable f : R -> vec -> vec.
Variable i : nat.
Hypothesis f_length : forall t y, length (f t y) = length y.
Hypothesis f_zero : forall t y, idx (f t y) i = 0.

Local Abbreviation flat := (flat_at i).

Lemma lincomb_flat (n : nat) (coef : list R) (ks : list vec) :
  Forall (flat n) ks -> flat n (lincomb n coef ks).
Proof.
  intros Hks. revert coef.
  induction Hks as [|k ks [Hlen Hz] _ IH]; intros [|a coef]; cbn [lincomb];
    try (split; [apply length_zeros | apply idx_zeros]).
  destruct (IH coef) as [Hl Hi].
  split.
  - rewrite length_vadd; rewrite length_vscale; congruence.
  - rewrite idx_vadd by (rewrite length_vscale; congruence).
    rewrite idx_vscale, Hz, Hi. lra.
Qed.

Lemma rk_stages_flat (h t : R) (y : vec) (rows : list (R * list R))
    (ks : list vec) :
  Forall (flat (length y)) ks ->
  Forall (flat (length y)) (rk_stages f h t y rows ks).
Proof.
  revert ks. induction rows as [|[c a] rows IH]; intros ks Hks; cbn [rk_stages].
  - exact Hks.
  - apply IH. apply Forall_app. split; [exact Hks |].
    constructor; [| constructor].
    split; [| apply f_zero].
    rewrite f_length.
    destruct (lincomb_flat (length y) a ks Hks) as [Hl _].
    rewrite length_vadd; [reflexivity |].
    rewrite length_vscale. congruence.
Qed.

Lemma rk_step_frame (tab : tableau) (h t : R) (y : vec) :
  idx (rk_step tab f h t y) i = idx y i
  /\ length (rk_step tab f h t y) = length y.
Proof.
  unfold rk_step.
  destruct (lincomb_flat (length y) (rk_b tab)
              (rk_stages f h t y (rk_rows tab) [])
              (rk_stages_flat h t y (rk_rows tab) [] (Forall_nil _)))
    as [Hl Hz].
  split.
  - rewrite idx_vadd by (rewrite length_vscale; congruence).
    rewrite idx_vscale, Hz. lra.
  - apply length_vadd. rewrite length_vscale. congruence.
Qed.

End RKFrame.

Lemma State_of_weight (row : vec) (w : R) :
  Runner.State_of (set_slice 11 12 [w] row) = Runner.State_of row.
Proof.
  unfold Runner.State_of, slice. cbn [skipn Nat.sub].
  apply nth_ext with (d := 0) (d' := 0).
  - rewrite !length_firstn, length_set_slice. reflexivity.
  - intros n Hn. rewrite length_firstn in Hn.
    rewrite !nth_firstn.
    destruct (Nat.ltb_spec n 11) as [Hlt | Hge]; [| reflexivity].
    apply (idx_set_slice_out 11 12 [w] row n). lia.
Qed.

(** ** What the observer records *)

Section Recording.

Import Integrator.

Variable tab : tableau.
Variable f : R -> vec -> vec.
Variable solout : R -> vec -> Recorded -> Z * Recorded.

(** Both observers append the sample first and decide afterwards. *)
Hypothesis solout_appends : forall t X rec,
  solout t X rec
  = (fst (solout t X ([], [])), (fst rec ++ [X], snd rec ++ [t])).

Local Abbreviation offered := (Integrator.offered tab f solout).

Lemma integrate_offered (hs : list R) (t : R) (y : vec) (rec : Recorded) :
  integrate tab f solout hs t y rec
  = (fst rec ++ map snd (offered hs t y), snd rec ++ map fst (offered hs t y)).
Proof.
  revert t y rec. induction hs as [|h hs IH]; intros t y rec.
  - cbn [integrate offered]. rewrite solout_appends.
    destruct (Z.eqb (fst (solout t y ([], []))) (-1)); reflexivity.
  - cbn [integrate offered]. rewrite solout_appends.
    destruct (Z.eqb (fst (solout t y ([], []))) (-1)); [reflexivity |].
    rewrite IH. cbn [fst snd map]. rewrite <- !app_assoc. reflexivity.
Qed.

Lemma offered_continue (hs : list R) (t : R) (y : vec) :
  Forall (fun s => fst (solout (fst s) (snd s) ([], [])) <> (-1)%Z)
         (removelast (offered hs t y)).
Proof.
  revert t y. induction hs as [|h hs IH]; intros t y.
  - cbn [offered].
    destruct (Z.eqb (fst (solout t y ([], []))) (-1)); constructor.
  - cbn [offered].
    destruct (Z.eqb_spec (fst (solout t y ([], []))) (-1)) as [He | Hne].
    + constructor.
    + specialize (IH (t + h) (rk_step tab f h t y)).
      destruct (offered hs (t + h) (rk_step tab f h t y)) as [|s l] eqn:Ho.
      * destruct hs; discriminate Ho.
      * cbn [removelast]. constructor; [exact Hne | exact IH].
Qed.

Lemma offered_stop (hs : list R) (t : R) (y : vec) :
  fst (solout t y ([], [])) = (-1)%Z -> offered hs t y = [(t, y)].
Proof.
  intros H. destruct hs; cbn [offered]; rewrite H; reflexivity.
Qed.

End Recording.

Lemma removelast_map {A B : Type} (g : A -> B) (l : list A) :
  removelast (map g l) = map g (removelast l).
Proof.
  induction l as [|x l IH]; [reflexivity |].
  destruct l as [|y l]; [reflexivity |].
  cbn [map removelast] in *. rewrite IH. reflexivity.
Qed.

Lemma removelast_snoc {A : Type} (l : list A) (x : A) :
  removelast (l ++ [x]) = l.
Proof. apply removelast_last. Qed.

Section Observers.

Context (tu : trajectory_utilities) (elevation_data : srtm_data).

Lemma DFN_solout_appends (t0 : R) (hg : DFN_DarkFlight.ground_arg) (t : R)
    (X : vec) (rec : Recorded) :
  DFN_DarkFlight.solout tu elevation_data t0 hg t X rec
  = (fst (DFN_DarkFlight.solout tu elevation_data t0 hg t X ([], [])),
     (fst rec ++ [X], snd rec ++ [t])).
Proof.
  unfold DFN_DarkFlight.solout.
  destruct (Rlt_b (norm (slice 0 3 X)) _); [reflexivity |].
  destruct (Rlt_b (idx X 6) 1e-3); reflexivity.
Qed.

Lemma DFN_solout_continue (t0 : R) (hg : DFN_DarkFlight.ground_arg) (t : R)
    (X : vec) :
  fst (DFN_DarkFlight.solout tu elevation_data t0 hg t X ([], [])) <> (-1)%Z ->
  1e-3 <= idx X 6.
Proof.
  unfold DFN_DarkFlight.solout.
  destruct (Rlt_b (norm (slice 0 3 X)) _); [intros H; contradiction H; reflexivity |].
  destruct (Rlt_b_spec (idx X 6) 1e-3) as [Hlt | Hge];
    [intros H; contradiction H; reflexivity |].
  intros _. lra.
Qed.

Lemma main_solout_appends (r_end t : R) (X : vec) (rec : Recorded) :
  DarkFlight_main.solout r_end t X rec
  = (fst (DarkFlight_main.solout r_end t X ([], [])),
     (fst rec ++ [X], snd rec ++ [t])).
Proof.
  unfold DarkFlight_main.solout.
  destruct (Rlt_b (norm (slice 0 3 X)) r_end); [reflexivity |].
  destruct (Rlt_b (idx X 6) 1e-3); [reflexivity |].
  destruct (Rlt_b (idx X 6) 0); reflexivity.
Qed.

Lemma main_solout_continue (r_end t : R) (X : vec) :
  fst (DarkFlight_main.solout r_end t X ([], [])) <> (-1)%Z ->
  1e-3 <= idx X 6.
Proof.
  unfold DarkFlight_main.solout.
  destruct (Rlt_b (norm (slice 0 3 X)) r_end); [intros H; contradiction H; reflexivity |].
  destruct (Rlt_b_spec (idx X 6) 1e-3) as [Hlt | Hge];
    [intros H; contradiction H; reflexivity |].
  intros _. lra.
Qed.

End Observers.

Lemma DFN_backtrack_removelast (tu : trajectory_utilities)
    (elevation_data : srtm_data) (t0 : R) (hg : DFN_DarkFlight.ground_arg)
    (state : list vec) (T_rel : list R) :
  removelast (DFN_DarkFlight.X_all
                (DFN_DarkFlight.backtrack tu elevation_data t0 hg (state, T_rel)))
  = removelast state.
Proof.
  unfold DFN_DarkFlight.backtrack.
  destruct (Nat.ltb 1 (length state)); cbn [DFN_DarkFlight.X_all];
    [apply removelast_snoc | reflexivity].
Qed.

Lemma main_backtrack_removelast (tu : trajectory_utilities) (t0 hg : R)
    (state : list vec) (T_rel : list R) :
  removelast (DarkFlight_main.X_all
                (DarkFlight_main.backtrack tu t0 hg (state, T_rel)))
  = removelast state.
Proof.
  unfold DarkFlight_main.backtrack.
  destruct (Nat.ltb 1 (length state)); cbn [DarkFlight_main.X_all];
    [apply removelast_snoc | reflexivity].
Qed.

(** C2 (as amended): in either script every sample of the trajectory that
    Propagate returns, other than the last one, has mass >= 1e-3 kg; the
    observer records every sample it is handed before it tests it, so the
    first sample below the 1 g threshold is recorded and is the last one. *)
Theorem recorded_mass_threshold (tu : trajectory_utilities)
    (af : atm_functions) (ou : orbital_utilities) (si : scipy_interpolate)
    (gs : grid_sampler) (elevation_data : srtm_data) (state0 : vec)
    (args : DFN_DarkFlight.Args) (rng : RNG) (hs : list R)
    (args' : DarkFlight_main.Args) :
  Forall (fun m => 1e-3 <= m)
    (removelast
       (DFN_DarkFlight.mass
          (DFN_DarkFlight.Propagate tu af ou si gs elevation_data
             state0 args rng hs)))
  /\ Forall (fun m => 1e-3 <= m)
       (removelast
          (DarkFlight_main.mass
             (DarkFlight_main.Propagate tu af ou si gs state0 args' hs)))
  /\ (forall t0 hg t X rec,
        snd (DFN_DarkFlight.solout tu elevation_data t0 hg t X rec)
        = (fst rec ++ [X], snd rec ++ [t]))
  /\ (forall r_end t X rec,
        snd (DarkFlight_main.solout r_end t X rec)
        = (fst rec ++ [X], snd rec ++ [t])).
Proof.
  split; [| split; [| split]];
    [ | | intros; rewrite DFN_solout_appends; reflexivity
        | intros; rewrite main_solout_appends; reflexivity ].
  - unfold DFN_DarkFlight.mass, DFN_DarkFlight.Propagate.
    rewrite (integrate_offered _ _ _ (DFN_solout_appends tu elevation_data _ _)).
    cbn [fst snd app].
    rewrite removelast_map, DFN_backtrack_removelast.
    rewrite removelast_map, !Forall_map.
    eapply Forall_impl; [| apply offered_continue].
    intros [t X] H. cbn [fst snd] in *.
    eapply DFN_solout_continue. exact H.
  - unfold DarkFlight_main.mass, DarkFlight_main.Propagate.
    rewrite (integrate_offered _ _ _ (main_solout_appends _)).
    cbn [fst snd app].
    rewrite removelast_map, main_backtrack_removelast.
    rewrite removelast_map, !Forall_map.
    eapply Forall_impl; [| apply offered_continue].
    intros [t X] H. cbn [fst snd] in *.
    eapply main_solout_continue. exact H.
Qed.

(** ** Evaluating norms *)

Lemma norm_nonneg (v : vec) : 0 <= norm v.
Proof. apply sqrt_pos. Qed.

Lemma sum_sq_nonneg (v : vec) : 0 <= sum_sq v.
Proof.
  induction v as [|x v IH]; [cbn; lra |].
  change (0 <= x * x + sum_sq v). nra.
Qed.

Lemma norm_sq (v : vec) : norm v * norm v = sum_sq v.
Proof. apply sqrt_sqrt, sum_sq_nonneg. Qed.

Lemma norm_eq (v : vec) (a : R) : 0 <= a -> sum_sq v = a * a -> norm v = a.
Proof. intros Ha H. unfold norm. rewrite H. apply sqrt_square. exact Ha. Qed.

Lemma norm_lt (v : vec) (a : R) : 0 <= a -> a * a < sum_sq v -> a < norm v.
Proof.
  intros Ha H. pose proof (norm_sq v) as Hs. pose proof (norm_nonneg v) as Hn.
  nra.
Qed.

Lemma norm_gt (v : vec) (a : R) : 0 <= a -> sum_sq v < a * a -> norm v < a.
Proof.
  intros Ha H. pose proof (norm_sq v) as Hs. pose proof (norm_nonneg v) as Hn.
  nra.
Qed.

(** ** The single-sample trajectory *)

Lemma DFN_Propagate_single (tu : trajectory_utilities) (af : atm_functions)
    (ou : orbital_utilities) (si : scipy_interpolate) (gs : grid_sampler)
    (elevation_data : srtm_data) (state0 : vec) (args : DFN_DarkFlight.Args)
    (rng : RNG) (hs : list R) :
  fst (DFN_DarkFlight.solout tu elevation_data (idx state0 0)
         (DFN_DarkFlight.h_ground args) 0 (skipn 1 state0) ([], [])) = (-1)%Z ->
  DFN_DarkFlight.Propagate tu af ou si gs elevation_data state0 args rng hs
  = {| DFN_DarkFlight.time_jd := [0 / (24 * 60 * 60) + idx state0 0];
       DFN_DarkFlight.X_all := [skipn 1 state0] |}.
Proof.
  intros H. unfold DFN_DarkFlight.Propagate.
  rewrite (integrate_offered _ _ _ (DFN_solout_appends tu elevation_data _ _)).
  rewrite offered_stop by exact H. reflexivity.
Qed.

Lemma main_Propagate_single (tu : trajectory_utilities) (af : atm_functions)
    (ou : orbital_utilities) (si : scipy_interpolate) (gs : grid_sampler)
    (state0 : vec) (args : DarkFlight_main.Args) (hs : list R) :
  fst (DarkFlight_main.solout
         (EarthRadius tu (idx (ECEF2LLH tu (slice 1 4 state0)) 0)
          + DarkFlight_main.h_ground args)
         0 (skipn 1 state0) ([], [])) = (-1)%Z ->
  DarkFlight_main.X_all
    (DarkFlight_main.Propagate tu af ou si gs state0 args hs)
  = [skipn 1 state0]
  /\ DarkFlight_main.time_jd
       (DarkFlight_main.Propagate tu af ou si gs state0 args hs)
     = [0 / (24 * 60 * 60) + idx state0 0].
Proof.
  intros H. unfold DarkFlight_main.Propagate.
  rewrite (integrate_offered _ _ _ (main_solout_appends _)).
  rewrite offered_stop by exact H. split; reflexivity.
Qed.

(** C10: when the observer ends the integration on the very first sample
    (the initial state), Propagate returns that one sample and its time
    unchanged, in either script: the backtrack is skipped.  In particular an
    initial position below the terminal radius is returned as it is, so the
    emitted sample lies below the modelled ground. *)
Theorem single_sample_unchanged (tu : trajectory_utilities)
    (af : atm_functions) (ou : orbital_utilities) (si : scipy_interpolate)
    (gs : grid_sampler) (elevation_data : srtm_data) (state0 : vec)
    (args : DFN_DarkFlight.Args) (rng : RNG) (hs : list R)
    (args' : DarkFlight_main.Args) :
  let X := skipn 1 state0 in
  let t0 := idx state0 0 in
  let r_end' :=
    EarthRadius tu (idx (ECEF2LLH tu (slice 1 4 state0)) 0)
    + DarkFlight_main.h_ground args' in
  let out := DFN_DarkFlight.Propagate tu af ou si gs elevation_data
               state0 args rng hs in
  let out' := DarkFlight_main.Propagate tu af ou si gs state0 args' hs in
  (fst (DFN_DarkFlight.solout tu elevation_data t0
          (DFN_DarkFlight.h_ground args) 0 X ([], [])) = (-1)%Z ->
   DFN_DarkFlight.X_all out = [X] /\
   DFN_DarkFlight.time_jd out = [0 / (24 * 60 * 60) + t0]) /\
  (fst (DarkFlight_main.solout r_end' 0 X ([], [])) = (-1)%Z ->
   DarkFlight_main.X_all out' = [X] /\
   DarkFlight_main.time_jd out' = [0 / (24 * 60 * 60) + t0]) /\
  (norm (slice 0 3 X)
   < DFN_DarkFlight.final_r_end tu elevation_data (DFN_DarkFlight.h_ground args)
       [X] [0 / (24 * 60 * 60) + t0] ->
   DFN_DarkFlight.X_all out = [X] /\
   norm (slice 0 3 (last (DFN_DarkFlight.X_all out) []))
   < DFN_DarkFlight.final_r_end tu elevation_data (DFN_DarkFlight.h_ground args)
       (DFN_DarkFlight.X_all out) (DFN_DarkFlight.time_jd out)) /\
  (norm (slice 0 3 X) < r_end' ->
   DarkFlight_main.X_all out' = [X] /\
   norm (slice 0 3 (last (DarkFlight_main.X_all out') []))
   < DarkFlight_main.final_r_end tu (DarkFlight_main.h_ground args')
       (DarkFlight_main.X_all out')).
Proof.
  intros X t0 r_end' out out'.
  assert (HD : fst (DFN_DarkFlight.solout tu elevation_data t0
                      (DFN_DarkFlight.h_ground args) 0 X ([], [])) = (-1)%Z ->
               out = {| DFN_DarkFlight.time_jd := [0 / (24 * 60 * 60) + t0];
                        DFN_DarkFlight.X_all := [X] |}).
  { intros H. apply DFN_Propagate_single. exact H. }
  split; [| split; [| split]].
  - intros H. rewrite (HD H). split; reflexivity.
  - intros H. apply main_Propagate_single. exact H.
  - intros Hlow.
    assert (H : fst (DFN_DarkFlight.solout tu elevation_data t0
                       (DFN_DarkFlight.h_ground args) 0 X ([], [])) = (-1)%Z).
    { unfold DFN_DarkFlight.solout.
      unfold DFN_DarkFlight.final_r_end in Hlow. cbn [last] in Hlow.
      replace (t0 + 0 / (24 * 60 * 60)) with (0 / (24 * 60 * 60) + t0) by lra.
      rewrite Rlt_b_true by exact Hlow. reflexivity. }
    rewrite (HD H). cbn [DFN_DarkFlight.X_all DFN_DarkFlight.time_jd last].
    split; [reflexivity | exact Hlow].
  - intros Hlow.
    assert (H : fst (DarkFlight_main.solout r_end' 0 X ([], [])) = (-1)%Z).
    { unfold DarkFlight_main.solout. rewrite Rlt_b_true by exact Hlow.
      reflexivity. }
    destruct (main_Propagate_single tu af ou si gs state0 args' hs H) as [HX HT].
    fold out' in HX. rewrite HX. cbn [last]. split; [reflexivity |].
    unfold DarkFlight_main.final_r_end, slice_m1.
    cbn [length Nat.sub skipn map concat]. rewrite app_nil_r.
    exact Hlow.
Qed.

Lemma single_sample_unchanged_witness :
  DFN_DarkFlight.X_all
    (DFN_DarkFlight.Propagate Sphere.tu Sphere.af Sphere.ou Sphere.si
       Sphere.gs Sphere.elevation_data Scenarios.buried_state0
       Scenarios.dfn_args (fun _ => 0) [0.1])
  = [skipn 1 Scenarios.buried_state0]
  /\ DarkFlight_main.X_all
       (DarkFlight_main.Propagate Sphere.tu Sphere.af Sphere.ou Sphere.si
          Sphere.gs Scenarios.buried_state0 Scenarios.main_args [0.1])
     = [skipn 1 Scenarios.buried_state0]
  /\ norm (slice 0 3 (skipn 1 Scenarios.buried_state0)) < Sphere.R0.
Proof.
  assert (Hn : norm (slice 0 3 (skipn 1 Scenarios.buried_state0)) < Sphere.R0).
  { apply norm_gt; unfold Sphere.R0; [lra |].
    cbn [Scenarios.buried_state0 skipn slice Nat.sub firstn sum_sq fold_right].
    lra. }
  pose proof (single_sample_unchanged Sphere.tu Sphere.af Sphere.ou Sphere.si
                Sphere.gs Sphere.elevation_data Scenarios.buried_state0
                Scenarios.dfn_args (fun _ => 0) [0.1] Scenarios.main_args) as H.
  cbv zeta in H. destruct H as (_ & _ & H3 & H4).
  split; [| split; [| exact Hn]].
  - apply H3.
    unfold DFN_DarkFlight.final_r_end, DFN_DarkFlight.ground_height.
    cbn [Scenarios.dfn_args DFN_DarkFlight.h_ground Sphere.tu EarthRadius].
    fold Sphere.R0. lra.
  - apply H4.
    cbn [Scenarios.main_args DarkFlight_main.h_ground Sphere.tu EarthRadius].
    lra.
Defined.

(** C2, the claim as stated fails: half a gram of dust 30 km up is handed to
    the observer as the first sample; the observer records it and only then
    ends the integration, so the trajectory Propagate returns holds a sample
    of mass 0.0005 kg < 1e-3 kg. *)
Lemma dust_sample_is_recorded :
  DFN_DarkFlight.mass
    (DFN_DarkFlight.Propagate Sphere.tu Sphere.af Sphere.ou Sphere.si
       Sphere.gs Sphere.elevation_data Scenarios.dust_state0
       Scenarios.dfn_args (fun _ => 0) [0.1])
  = [0.0005]
  /\ 0.0005 < 1e-3.
Proof.
  split; [| lra].
  rewrite DFN_Propagate_single; [reflexivity |].
  unfold DFN_DarkFlight.solout, DFN_DarkFlight.ground_height.
  cbn [Scenarios.dfn_args DFN_DarkFlight.h_ground Sphere.tu EarthRadius
       ECI2ECEF_pos ECEF2LLH].
  rewrite Rlt_b_false.
  - rewrite Rlt_b_true; [reflexivity |].
    cbn [Scenarios.dust_state0 skipn idx nth]. lra.
  - apply Rle_not_lt. unfold Sphere.R0. left. apply norm_lt; [lra |].
    cbn [Scenarios.dust_state0 skipn slice Nat.sub firstn sum_sq fold_right].
    lra.
Qed.

(** ** The backtrack to the surface *)

Lemma cauchy3 (p1 p2 p3 q1 q2 q3 a b : R) :
  0 <= a -> 0 <= b ->
  a * a = p1 * p1 + (p2 * p2 + (p3 * p3 + 0)) ->
  b * b = q1 * q1 + (q2 * q2 + (q3 * q3 + 0)) ->
  p1 * q1 + p2 * q2 + p3 * q3 <= a * b.
Proof.
  intros Ha Hb Haa Hbb.
  assert (HL : (p1 * q1 + p2 * q2 + p3 * q3) * (p1 * q1 + p2 * q2 + p3 * q3)
               <= (a * b) * (a * b)).
  { replace ((a * b) * (a * b)) with ((a * a) * (b * b)) by ring.
    rewrite Haa, Hbb.
    pose proof (Rle_0_sqr (p1 * q2 - p2 * q1)).
    pose proof (Rle_0_sqr (p1 * q3 - p3 * q1)).
    pose proof (Rle_0_sqr (p2 * q3 - p3 * q2)).
    unfold Rsqr in *. nra. }
  assert (Hab : 0 <= a * b) by nra.
  destruct (Rle_lt_dec (p1 * q1 + p2 * q2 + p3 * q3) (a * b)) as [H | H];
    [exact H | exfalso; nra].
Qed.

(** The radius of a point of the chord from [p] (radius [a]) to [q] (radius
    [b]) taken at the fraction [f = (a - r) / (a - b)]: at most [r], and
    short of [r] by no more than [chord^2 / (4 r)]. *)
Lemma backtrack_radius (p1 p2 p3 q1 q2 q3 a b n r f : R) :
  0 <= a -> 0 <= b -> 0 <= n ->
  a * a = p1 * p1 + (p2 * p2 + (p3 * p3 + 0)) ->
  b * b = q1 * q1 + (q2 * q2 + (q3 * q3 + 0)) ->
  n * n = (p1 + f * (q1 - p1)) * (p1 + f * (q1 - p1))
          + ((p2 + f * (q2 - p2)) * (p2 + f * (q2 - p2))
             + ((p3 + f * (q3 - p3)) * (p3 + f * (q3 - p3)) + 0)) ->
  f = (a - r) / (a - b) ->
  b < r <= a ->
  (q1 - p1) * (q1 - p1) + ((q2 - p2) * (q2 - p2) + ((q3 - p3) * (q3 - p3) + 0))
    <= 4 * r ->
  r - 1 <= n <= r.
Proof.
  intros Ha Hb Hn Haa Hbb Hnn Hf [Hbr Hra] Hd.
  assert (Hab : 0 < a - b) by lra.
  assert (Hfe : f * (a - b) = a - r).
  { rewrite Hf. field. lra. }
  assert (Hf0 : 0 <= f).
  { rewrite Hf. apply Rmult_le_pos; [lra |]. left. apply Rinv_0_lt_compat. exact Hab. }
  assert (Hf1 : f < 1).
  { destruct (Rlt_le_dec f 1) as [H | H]; [exact H | exfalso; nra]. }
  pose proof (cauchy3 p1 p2 p3 q1 q2 q3 a b Ha Hb Haa Hbb) as HCS.
  set (pq := p1 * q1 + p2 * q2 + p3 * q3) in *.
  assert (Hn2 : n * n = (1 - f) * (1 - f) * (a * a) + f * f * (b * b)
                        + 2 * f * (1 - f) * pq).
  { rewrite Hnn, Haa, Hbb. unfold pq. ring. }
  assert (Hr : r = (1 - f) * a + f * b) by lra.
  assert (Hdiff : r * r - n * n = 2 * f * (1 - f) * (a * b - pq)).
  { rewrite Hn2, Hr. ring. }
  assert (Hd2 : 2 * (a * b - pq) <= 4 * r).
  { assert (2 * (a * b - pq)
            = (q1 - p1) * (q1 - p1)
              + ((q2 - p2) * (q2 - p2) + ((q3 - p3) * (q3 - p3) + 0))
              - (a - b) * (a - b)).
    { unfold pq.
      replace ((a - b) * (a - b)) with (a * a + b * b - 2 * (a * b)) by ring.
      rewrite Haa, Hbb. ring. }
    nra. }
  assert (Hq : f * (1 - f) <= 1 / 4).
  { pose proof (Rle_0_sqr (f - 1 / 2)) as Hs. unfold Rsqr in Hs. lra. }
  assert (Hfq : 0 <= f * (1 - f)) by nra.
  assert (Hge : 0 <= r * r - n * n).
  { rewrite Hdiff. nra. }
  assert (Hle : r * r - n * n <= r).
  { rewrite Hdiff.
    assert (0 <= a * b - pq) by lra.
    assert (f * (1 - f) * (2 * (a * b - pq)) <= 1 / 4 * (4 * r)).
    { apply Rmult_le_compat; nra. }
    nra. }
  assert (Hrpos : 0 < r) by lra.
  split.
  - destruct (Rle_lt_dec (r - 1) n) as [H | H]; [exact H | exfalso; nra].
  - destruct (Rle_lt_dec n r) as [H | H]; [exact H | exfalso; nra].
Qed.

Section LastTwo.

Context {A : Type}.
Variables (l : list A) (a b : A).

Lemma length_two_more : length (l ++ [a; b]) = S (S (length l)).
Proof. rewrite length_app. cbn. lia. Qed.

Lemma slice_m2_m1_two : slice_m2_m1 (l ++ [a; b]) = [a].
Proof.
  unfold slice_m2_m1, slice. rewrite length_two_more.
  replace (S (S (length l)) - 1 - (S (S (length l)) - 2))%nat with 1%nat by lia.
  replace (S (S (length l)) - 2)%nat with (length l + 0)%nat by lia.
  rewrite skipn_app, skipn_all2 by lia.
  replace (length l + 0 - length l)%nat with 0%nat by lia. reflexivity.
Qed.

Lemma slice_m1_two : slice_m1 (l ++ [a; b]) = [b].
Proof.
  unfold slice_m1. rewrite length_two_more.
  replace (S (S (length l)) - 1)%nat with (length l + 1)%nat by lia.
  rewrite skipn_app, skipn_all2 by lia.
  replace (length l + 1 - length l)%nat with 1%nat by lia. reflexivity.
Qed.

Lemma nth_m2_two (d : A) : nth (length (l ++ [a; b]) - 2) (l ++ [a; b]) d = a.
Proof.
  rewrite length_two_more.
  replace (S (S (length l)) - 2)%nat with (length l) by lia.
  rewrite app_nth2 by lia. rewrite Nat.sub_diag. reflexivity.
Qed.

Lemma nth_m1_two (d : A) : nth (length (l ++ [a; b]) - 1) (l ++ [a; b]) d = b.
Proof.
  rewrite length_two_more.
  replace (S (S (length l)) - 1)%nat with (S (length l)) by lia.
  rewrite app_nth2 by lia.
  replace (S (length l) - length l)%nat with 1%nat by lia. reflexivity.
Qed.

Lemma removelast_two : removelast (l ++ [a; b]) = l ++ [a].
Proof.
  change (l ++ [a; b]) with (l ++ [a] ++ [b]). rewrite app_assoc.
  apply removelast_last.
Qed.

Lemma last_two (d : A) : last (l ++ [a; b]) d = b.
Proof.
  change (l ++ [a; b]) with (l ++ [a] ++ [b]). rewrite app_assoc.
  apply last_last.
Qed.

End LastTwo.

Lemma snoc_two {A : Type} (l : list A) (a b : A) :
  (l ++ [a]) ++ [b] = l ++ [a; b].
Proof. rewrite <- app_assoc. reflexivity. Qed.

Section Backtrack.

Context (tu : trajectory_utilities) (elevation_data : srtm_data).
Variables (t0 : R) (St : list vec) (T : list R) (Xp Xl : vec) (tp tl : R).

Let jd (t : R) : R := t / (24 * 60 * 60) + t0.

Lemma DFN_backtrack_two (hg : DFN_DarkFlight.ground_arg) :
  length St = length T ->
  DFN_DarkFlight.backtrack tu elevation_data t0 hg
    (St ++ [Xp; Xl], T ++ [tp; tl])
  = let r := DFN_DarkFlight.final_r_end tu elevation_data hg
               (St ++ [Xp; Xl]) (map jd (T ++ [tp; tl])) in
    let f := (norm (slice 0 3 Xp) - r)
             / (norm (slice 0 3 Xp) - norm (slice 0 3 Xl)) in
    {| DFN_DarkFlight.time_jd :=
         map jd T ++ [jd tp; jd tp + f * (jd tl - jd tp)];
       DFN_DarkFlight.X_all := St ++ [Xp; interpolated f Xp Xl] |}.
Proof.
  intros Hlen. unfold DFN_DarkFlight.backtrack, DFN_DarkFlight.fraction_of.
  fold jd. cbv zeta.
  rewrite slice_m2_m1_two, slice_m1_two. cbn [map concat]. rewrite !app_nil_r.
  rewrite map_app. cbn [map].
  rewrite !nth_m2_two, !nth_m1_two, !removelast_two, !snoc_two.
  rewrite length_two_more. cbn [Nat.ltb Nat.leb].
  reflexivity.
Qed.

Lemma main_backtrack_two (hg : R) :
  length St = length T ->
  DarkFlight_main.backtrack tu t0 hg (St ++ [Xp; Xl], T ++ [tp; tl])
  = let r := DarkFlight_main.final_r_end tu hg (St ++ [Xp; Xl]) in
    let f := (norm (slice 0 3 Xp) - r)
             / (norm (slice 0 3 Xp) - norm (slice 0 3 Xl)) in
    {| DarkFlight_main.time_jd :=
         map jd T ++ [jd tp; jd tp + f * (jd tl - jd tp)];
       DarkFlight_main.X_all := St ++ [Xp; interpolated f Xp Xl];
       DarkFlight_main.fraction := f |}.
Proof.
  intros Hlen. unfold DarkFlight_main.backtrack, DarkFlight_main.fraction_of.
  fold jd. cbv zeta.
  rewrite slice_m2_m1_two. cbn [map concat]. rewrite !app_nil_r.
  unfold DarkFlight_main.final_r_end.
  rewrite slice_m1_two. cbn [map concat]. rewrite !app_nil_r.
  rewrite map_app. cbn [map].
  rewrite !nth_m2_two, !nth_m1_two, !removelast_two, !snoc_two.
  rewrite length_two_more. cbn [Nat.ltb Nat.leb].
  reflexivity.
Qed.

End Backtrack.

Ltac explode_vec X H :=
  repeat (destruct X as [|? X]; [discriminate H |]);
  destruct X; [clear H | discriminate H].

Lemma interpolated_radius (Xp Xl : vec) (r : R) :
  length Xp = 10%nat -> length Xl = 10%nat ->
  let p := slice 0 3 Xp in
  let q := slice 0 3 Xl in
  let f := (norm p - r) / (norm p - norm q) in
  (norm p <> norm q -> norm p + f * (norm q - norm p) = r) /\
  (norm q < r <= norm p -> sum_sq (vsub q p) <= 4 * r ->
   r - 1 <= norm (slice 0 3 (interpolated f Xp Xl)) <= r).
Proof.
  intros Hp Hl p q f. split.
  - intros Hne. unfold f. field. lra.
  - intros Hr Hd.
    explode_vec Xp Hp. explode_vec Xl Hl.
    cbn [slice Nat.sub skipn firstn] in p, q.
    cbn [interpolated vadd vscale vsub zip_with map slice Nat.sub skipn firstn].
    apply backtrack_radius
      with (a := norm p) (b := norm q) (f := f)
           (p1 := r0) (p2 := r1) (p3 := r2) (q1 := r10) (q2 := r11) (q3 := r12).
    + apply norm_nonneg.
    + apply norm_nonneg.
    + apply norm_nonneg.
    + apply norm_sq.
    + apply norm_sq.
    + rewrite norm_sq. reflexivity.
    + reflexivity.
    + exact Hr.
    + exact Hd.
Qed.

(** C1 (as amended): with at least two recorded samples, Propagate (either
    script) replaces the last sample by [X_prev + f (X_last - X_prev)] and
    the last time by [T_prev + f (T_last - T_prev)], with
    [f = (|p_prev| - r_end) / (|p_prev| - |p_last|)] and
    [r_end = R_earth(lat_last) + h_ground].  The two radii interpolated at
    [f] give [r_end] exactly when they differ; when
    [|p_last| < r_end <= |p_prev|] and the squared length of the last step is
    at most [4 r_end], the radius of the emitted final sample lies between
    [r_end - 1] and [r_end]. *)
Theorem backtrack_to_surface (tu : trajectory_utilities)
    (elevation_data : srtm_data) (t0 : R) (hg : DFN_DarkFlight.ground_arg)
    (hg' : R) (St : list vec) (T : list R) (Xp Xl : vec) (tp tl : R) :
  length Xp = 10%nat -> length Xl = 10%nat -> length St = length T ->
  let p := slice 0 3 Xp in
  let q := slice 0 3 Xl in
  let jd := fun t => t / (24 * 60 * 60) + t0 in
  let rec := (St ++ [Xp; Xl], T ++ [tp; tl]) in
  let out := DFN_DarkFlight.backtrack tu elevation_data t0 hg rec in
  let r := DFN_DarkFlight.final_r_end tu elevation_data hg
             (St ++ [Xp; Xl]) (map jd (T ++ [tp; tl])) in
  let f := (norm p - r) / (norm p - norm q) in
  let out' := DarkFlight_main.backtrack tu t0 hg' rec in
  let r' := DarkFlight_main.final_r_end tu hg' (St ++ [Xp; Xl]) in
  let f' := (norm p - r') / (norm p - norm q) in
  (DFN_DarkFlight.X_all out = St ++ [Xp; interpolated f Xp Xl] /\
   DFN_DarkFlight.time_jd out
   = map jd T ++ [jd tp; jd tp + f * (jd tl - jd tp)] /\
   (norm p <> norm q -> norm p + f * (norm q - norm p) = r) /\
   (norm q < r <= norm p -> sum_sq (vsub q p) <= 4 * r ->
    r - 1 <= norm (slice 0 3 (last (DFN_DarkFlight.X_all out) [])) <= r)) /\
  (DarkFlight_main.X_all out' = St ++ [Xp; interpolated f' Xp Xl] /\
   DarkFlight_main.time_jd out'
   = map jd T ++ [jd tp; jd tp + f' * (jd tl - jd tp)] /\
   DarkFlight_main.fraction out' = f' /\
   (norm p <> norm q -> norm p + f' * (norm q - norm p) = r') /\
   (norm q < r' <= norm p -> sum_sq (vsub q p) <= 4 * r' ->
    r' - 1 <= norm (slice 0 3 (last (DarkFlight_main.X_all out') [])) <= r')).
Proof.
  intros Hp Hl Hlen p q jd rec out r f out' r' f'.
  split.
  - unfold out, rec.
    rewrite (DFN_backtrack_two tu elevation_data t0 St T Xp Xl tp tl hg Hlen).
    cbv zeta. cbn [DFN_DarkFlight.X_all DFN_DarkFlight.time_jd].
    fold jd. fold r. fold p. fold q. fold f.
    rewrite last_two.
    destruct (interpolated_radius Xp Xl r Hp Hl) as [H1 H2].
    repeat split; try reflexivity; try (apply H1; assumption);
      apply H2; assumption.
  - unfold out', rec.
    rewrite (main_backtrack_two tu t0 St T Xp Xl tp tl hg' Hlen).
    cbv zeta.
    cbn [DarkFlight_main.X_all DarkFlight_main.time_jd DarkFlight_main.fraction].
    fold jd. fold r'. fold p. fold q. fold f'.
    rewrite last_two.
    destruct (interpolated_radius Xp Xl r' Hp Hl) as [H1 H2].
    repeat split; try reflexivity; try (apply H1; assumption);
      apply H2; assumption.
Qed.

Lemma norm_axis (a : R) : 0 <= a -> norm [a; 0; 0] = a.
Proof. intros Ha. apply norm_eq; [exact Ha | cbn; ring]. Qed.

Lemma backtrack_to_surface_witness :
  Sphere.R0 - 1
  <= norm (slice 0 3
             (last (DFN_DarkFlight.X_all
                      (DFN_DarkFlight.backtrack Sphere.tu Sphere.elevation_data
                         2459000 (DFN_DarkFlight.ground_const 0)
                         Scenarios.fall_rec)) []))
  <= Sphere.R0.
Proof.
  pose proof (backtrack_to_surface Sphere.tu Sphere.elevation_data 2459000
                (DFN_DarkFlight.ground_const 0) 0 [] []
                Scenarios.fall_prev Scenarios.fall_last 10 10.1
                eq_refl eq_refl eq_refl) as H.
  cbv zeta in H. destruct H as [(_ & _ & _ & H) _].
  assert (Hr : DFN_DarkFlight.final_r_end Sphere.tu Sphere.elevation_data
                 (DFN_DarkFlight.ground_const 0)
                 ([] ++ [Scenarios.fall_prev; Scenarios.fall_last])
                 (map (fun t => t / (24 * 60 * 60) + 2459000) ([] ++ [10; 10.1]))
               = Sphere.R0).
  { unfold DFN_DarkFlight.final_r_end, DFN_DarkFlight.ground_height.
    cbn [Sphere.tu EarthRadius]. lra. }
  rewrite Hr in H.
  assert (Hp : norm (slice 0 3 Scenarios.fall_prev) = 6371004).
  { apply (norm_axis 6371004). lra. }
  assert (Hq : norm (slice 0 3 Scenarios.fall_last) = 6370994).
  { apply (norm_axis 6370994). lra. }
  rewrite Hp, Hq in H.
  apply H.
  - unfold Sphere.R0. lra.
  - unfold Sphere.R0.
    cbn [Scenarios.fall_prev Scenarios.fall_last slice Nat.sub skipn firstn
         vsub zip_with sum_sq fold_right].
    lra.
Defined.

(** C1, the claim as stated fails: two recorded samples 30 km up, the second
    below the 1 g threshold (the observer continues on the first and ends the
    integration on the second).  With [|p_prev| = 6401000],
    [|p_last| = 6400000.1] and [r_end = 6371000] the fraction is
    [30000 / 999.9], about 30: the last sample is extrapolated along the
    chord, the emitted final position [(6370993.99.., 48004.80.., 0)] has
    radius above [r_end + 1] (about 175 m above the modelled ground), and
    the emitted mass is negative.  Second, a ground termination on a grazing
    path: radii 6371001 and 6370999 with 10 km between the samples give
    [f = 1/2], and the emitted midpoint of the chord lies more than 1 m
    (about 1.96 m) below [r_end]. *)
Lemma backtrack_misses_surface :
  let hg := DFN_DarkFlight.ground_const 0 in
  let out := DFN_DarkFlight.backtrack Sphere.tu Sphere.elevation_data
               2459000 hg Scenarios.dust_rec in
  let out2 := DFN_DarkFlight.backtrack Sphere.tu Sphere.elevation_data
                2459000 hg Scenarios.graze_rec in
  fst (DFN_DarkFlight.solout Sphere.tu Sphere.elevation_data 2459000 hg
         0 Scenarios.dust_prev ([], [])) = 0%Z /\
  fst (DFN_DarkFlight.solout Sphere.tu Sphere.elevation_data 2459000 hg
         1 Scenarios.dust_last ([Scenarios.dust_prev], [0])) = (-1)%Z /\
  length (DFN_DarkFlight.X_all out) = 2%nat /\
  DFN_DarkFlight.final_r_end Sphere.tu Sphere.elevation_data hg
    (DFN_DarkFlight.X_all out) (DFN_DarkFlight.time_jd out) + 1
  < norm (slice 0 3 (last (DFN_DarkFlight.X_all out) [])) /\
  idx (last (DFN_DarkFlight.X_all out) []) 6 < 0 /\
  fst (DFN_DarkFlight.solout Sphere.tu Sphere.elevation_data 2459000 hg
         10 Scenarios.graze_prev ([], [])) = 0%Z /\
  fst (DFN_DarkFlight.solout Sphere.tu Sphere.elevation_data 2459000 hg
         13 Scenarios.graze_last ([Scenarios.graze_prev], [10])) = (-1)%Z /\
  norm (slice 0 3 (last (DFN_DarkFlight.X_all out2) []))
  < DFN_DarkFlight.final_r_end Sphere.tu Sphere.elevation_data hg
      (DFN_DarkFlight.X_all out2) (DFN_DarkFlight.time_jd out2) - 1.
Proof.
  intros hg out out2.
  assert (Hgp : norm (slice 0 3 Scenarios.graze_prev) = 6371001).
  { apply norm_eq; [lra |].
    cbn [Scenarios.graze_prev slice Nat.sub skipn firstn sum_sq fold_right].
    field. }
  assert (Hgl : norm (slice 0 3 Scenarios.graze_last) = 6370999).
  { apply norm_eq; [lra |].
    cbn [Scenarios.graze_last slice Nat.sub skipn firstn sum_sq fold_right].
    field. }
  assert (Hout2 : DFN_DarkFlight.X_all out2
                  = [Scenarios.graze_prev;
                     interpolated (1 / 2) Scenarios.graze_prev
                       Scenarios.graze_last]).
  { unfold out2, Scenarios.graze_rec.
    pose proof (DFN_backtrack_two Sphere.tu Sphere.elevation_data 2459000
                  [] [] Scenarios.graze_prev Scenarios.graze_last 10 13 hg
                  eq_refl) as Hb.
    cbn [app] in Hb. rewrite Hb. clear Hb.
    cbv zeta. cbn [DFN_DarkFlight.X_all].
    rewrite Hgp, Hgl.
    unfold DFN_DarkFlight.final_r_end, DFN_DarkFlight.ground_height, hg.
    cbn [Sphere.tu EarthRadius]. unfold Sphere.R0.
    replace ((6371001 - (6371000 + 0)) / (6371001 - 6370999))
      with (1 / 2) by lra.
    reflexivity. }
  assert (Hp : norm (slice 0 3 Scenarios.dust_prev) = 6401000).
  { apply (norm_axis 6401000). lra. }
  assert (Hq : norm (slice 0 3 Scenarios.dust_last) = 6400000.1).
  { apply norm_eq; [lra |].
    cbn [Scenarios.dust_last slice Nat.sub skipn firstn sum_sq fold_right].
    lra. }
  assert (Hout : DFN_DarkFlight.X_all out
                 = [Scenarios.dust_prev;
                    interpolated (100000 / 3333) Scenarios.dust_prev
                      Scenarios.dust_last]).
  { unfold out, Scenarios.dust_rec.
    pose proof (DFN_backtrack_two Sphere.tu Sphere.elevation_data 2459000
                  [] [] Scenarios.dust_prev Scenarios.dust_last 0 1 hg eq_refl)
      as Hb.
    cbn [app] in Hb. rewrite Hb. clear Hb.
    cbv zeta. cbn [DFN_DarkFlight.X_all].
    rewrite Hp, Hq.
    unfold DFN_DarkFlight.final_r_end, DFN_DarkFlight.ground_height, hg.
    cbn [Sphere.tu EarthRadius]. unfold Sphere.R0.
    replace ((6401000 - (6371000 + 0)) / (6401000 - 6400000.1))
      with (100000 / 3333) by lra.
    reflexivity. }
  split; [| split; [| split; [| split; [| split; [| split; [| split]]]]]].
  - unfold DFN_DarkFlight.solout, DFN_DarkFlight.ground_height, hg.
    cbn [Sphere.tu EarthRadius ECI2ECEF_pos ECEF2LLH].
    rewrite Hp. unfold Sphere.R0.
    rewrite Rlt_b_false by lra.
    rewrite Rlt_b_false; [reflexivity |].
    cbn [Scenarios.dust_prev idx nth]. lra.
  - unfold DFN_DarkFlight.solout, DFN_DarkFlight.ground_height, hg.
    cbn [Sphere.tu EarthRadius ECI2ECEF_pos ECEF2LLH].
    rewrite Hq. unfold Sphere.R0.
    rewrite Rlt_b_false by lra.
    rewrite Rlt_b_true; [reflexivity |].
    cbn [Scenarios.dust_last idx nth]. lra.
  - rewrite Hout. reflexivity.
  - rewrite Hout. cbn [last].
    unfold DFN_DarkFlight.final_r_end, DFN_DarkFlight.ground_height, hg.
    cbn [Sphere.tu EarthRadius]. unfold Sphere.R0.
    apply norm_lt; [lra |].
    cbn [Scenarios.dust_prev Scenarios.dust_last interpolated vadd vscale vsub
         zip_with map slice Nat.sub skipn firstn sum_sq fold_right].
    lra.
  - rewrite Hout. cbn [last].
    cbn [Scenarios.dust_prev Scenarios.dust_last interpolated vadd vscale vsub
         zip_with map idx nth].
    lra.
  - unfold DFN_DarkFlight.solout, DFN_DarkFlight.ground_height, hg.
    cbn [Sphere.tu EarthRadius ECI2ECEF_pos ECEF2LLH].
    rewrite Hgp. unfold Sphere.R0.
    rewrite Rlt_b_false by lra.
    rewrite Rlt_b_false; [reflexivity |].
    cbn [Scenarios.graze_prev idx nth]. lra.
  - unfold DFN_DarkFlight.solout, DFN_DarkFlight.ground_height, hg.
    cbn [Sphere.tu EarthRadius ECI2ECEF_pos ECEF2LLH].
    rewrite Hgl. unfold Sphere.R0.
    rewrite Rlt_b_true by lra. reflexivity.
  - rewrite Hout2. cbn [last].
    unfold DFN_DarkFlight.final_r_end, DFN_DarkFlight.ground_height, hg.
    cbn [Sphere.tu EarthRadius]. unfold Sphere.R0.
    apply norm_gt; [lra |].
    cbn [Scenarios.graze_prev Scenarios.graze_last interpolated vadd vscale
         vsub zip_with map slice Nat.sub skipn firstn sum_sq fold_right].
    lra.
Qed.

(** ** The sign of the mass rate *)

(** A Runge-Kutta step keeps component [i] when its derivative vanishes on
    every state whose component [j] is zero and component [j] itself is
    never changed. *)
Section RKConditionalFrame.

Import Integrator.

Variable f : R -> vec -> vec.
Variables i j : nat.
Hypothesis f_length : forall t y, length (f t y) = length y.
Hypothesis f_zero_j : forall t y, idx (f t y) j = 0.
Hypothesis f_zero_i : forall t y, idx y j = 0 -> idx (f t y) i = 0.

Local Abbreviation flat2 := (flat2_at i j).




End RKConditionalFrame.

Lemma powf_pos (x y : R) : 0 < powf x y.
Proof. unfold powf, Rpower. apply exp_pos. Qed.



Section MassRate.

Context (tu : trajectory_utilities) (af : atm_functions)
        (ou : orbital_utilities) (si : scipy_interpolate)
        (gs : grid_sampler).





End MassRate.

(** ** The atmosphere of the test world *)

Lemma sounding_top : max_list (map Height Sphere.sounding) = 30000.
Proof.
  cbn [Sphere.sounding map Height max_list fold_left].
  unfold Rmax. destruct (Rle_dec 0 30000); lra.
Qed.

Lemma sounding_bottom : min_list (map Height Sphere.sounding) = 0.
Proof.
  cbn [Sphere.sounding map Height min_list fold_left].
  unfold Rmin. destruct (Rle_dec 0 30000); lra.
Qed.

Lemma Sphere_DFN_atmosphere_above (a t_jd : R) :
  Sphere.R0 + 30000 < a ->
  DFN_DarkFlight.atmosphere Sphere.tu Sphere.ou Sphere.si Sphere.gs
    (Table1D Sphere.sounding) [a; 0; 0] t_jd
  = (df_functions.v_rot Sphere.tu [a; 0; 0] t_jd, 1e-9, 1000).
Proof.
  intros Ha. unfold DFN_DarkFlight.atmosphere.
  rewrite sounding_top.
  cbn [Sphere.tu ECI2ECEF_pos ECEF2LLH]. unfold Sphere.sphere_ECEF2LLH.
  cbn [idx nth]. unfold Sphere.R0 in *.
  rewrite norm_axis by lra.
  rewrite Rlt_b_true by lra.
  reflexivity.
Qed.


(** ** The Monte-Carlo randomisation of the wind *)

Lemma nth_zip_with {A B C : Type} (g : A -> B -> C) (u : list A) (v : list B)
    (i : nat) (da : A) (db : B) (dc : C) :
  (i < length u)%nat -> (i < length v)%nat ->
  nth i (zip_with g u v) dc = g (nth i u da) (nth i v db).
Proof.
  revert v i. induction u as [|x u IH]; intros [|y v] [|i] Hu Hv;
    cbn in *; try lia; [reflexivity |].
  apply IH; lia.
Qed.

Lemma length_uniform (lo hi : R) (n : nat) (rng : RNG) :
  length (fst (uniform lo hi n rng)) = n.
Proof. unfold uniform. cbn [fst]. rewrite length_map, length_seq. reflexivity. Qed.

Lemma nth_uniform (lo hi : R) (n : nat) (rng : RNG) (i : nat) :
  (i < n)%nat ->
  nth i (fst (uniform lo hi n rng)) 0 = lo + (hi - lo) * rng i.
Proof.
  intros Hi. unfold uniform. cbn [fst].
  apply (nth_map_seq (fun i => lo + (hi - lo) * rng i)). exact Hi.
Qed.

Lemma np_mod_range (x m : R) : 0 < m -> 0 <= np_mod x m < m.
Proof.
  intros Hm. unfold np_mod.
  destruct (base_Int_part (x / m)) as [H1 H2].
  assert (Hx : x = m * (x / m)) by (field; lra).
  split; nra.
Qed.

Lemma np_mod_small (x m : R) : 0 <= x < m -> np_mod x m = x.
Proof.
  intros [H0 Hm]. unfold np_mod.
  assert (Hq : 0 <= x / m < 1).
  { split.
    - apply Rmult_le_pos; [exact H0 |]. left. apply Rinv_0_lt_compat. lra.
    - apply Rmult_lt_reg_r with (r := m); [lra |].
      replace (x / m * m) with x by (field; lra). lra. }
  rewrite <- (Int_part_spec (x / m) 0%Z); [lra |].
  split; simpl; lra.
Qed.

Lemma uniform_symmetric (e u : R) :
  0 <= e -> 0 <= u < 1 -> - e <= - e + (e - - e) * u <= e.
Proof. intros He [H0 H1]. split; nra. Qed.

Lemma length_set_Wind (vals : list R) (W : list Layer) :
  length vals = length W -> length (set_Wind vals W) = length W.
Proof. intros H. unfold set_Wind. rewrite length_zip_with, H. apply Nat.min_id. Qed.

Lemma length_set_WDir (vals : list R) (W : list Layer) :
  length vals = length W -> length (set_WDir vals W) = length W.
Proof. intros H. unfold set_WDir. rewrite length_zip_with, H. apply Nat.min_id. Qed.

Lemma nth_set_Wind (vals : list R) (W : list Layer) (i : nat) :
  length vals = length W -> (i < length W)%nat ->
  nth i (set_Wind vals W) no_layer
  = let row := nth i W no_layer in
    mkLayer (Height row) (TempK row) (Press row) (RHum row)
            (nth i vals 0) (WDir row).
Proof.
  intros Hl Hi. unfold set_Wind.
  rewrite (nth_zip_with _ W vals i no_layer 0) by lia. reflexivity.
Qed.

Lemma nth_set_WDir (vals : list R) (W : list Layer) (i : nat) :
  length vals = length W -> (i < length W)%nat ->
  nth i (set_WDir vals W) no_layer
  = let row := nth i W no_layer in
    mkLayer (Height row) (TempK row) (Press row) (RHum row)
            (Wind row) (nth i vals 0).
Proof.
  intros Hl Hi. unfold set_WDir.
  rewrite (nth_zip_with _ W vals i no_layer 0) by lia. reflexivity.
Qed.

Lemma nth_map_layer (g : Layer -> R) (W : list Layer) (i : nat) :
  (i < length W)%nat -> nth i (map g W) 0 = g (nth i W no_layer).
Proof.
  intros Hi. rewrite nth_indep with (d' := g no_layer) by (rewrite length_map; exact Hi).
  apply map_nth.
Qed.

Lemma nth_vadd (u v : vec) (i : nat) :
  length u = length v -> nth i (vadd u v) 0 = nth i u 0 + nth i v 0.
Proof. apply idx_vadd. Qed.

Lemma randomise_table (W : list Layer) (e de : R) (mc : Z) (rng : RNG) :
  mc <> 0%Z ->
  exists W',
    fst (DFN_DarkFlight.randomise_wind (Table1D W) e de mc rng) = Table1D W' /\
    length W' = length W /\
    forall i, (i < length W)%nat ->
      let row := nth i W no_layer in
      nth i W' no_layer
      = mkLayer (Height row) (TempK row) (Press row) (RHum row)
          (Wind row + (- e + (e - - e) * rng i))
          (np_mod (WDir row + (- e + (de - - e) * rng (length W + i)%nat))
                  360.0).
Proof.
  intros Hmc. unfold DFN_DarkFlight.randomise_wind.
  destruct (Z.eqb_spec mc 0) as [H0 | _]; [contradiction |].
  rewrite length_map.
  set (d_spd := fst (uniform (- e) e (length W) rng)).
  set (rng1 := snd (uniform (- e) e (length W) rng)).
  set (d_dir := fst (uniform (- e) de (length W) rng1)).
  change (uniform (- e) e (length W) rng) with (d_spd, rng1).
  cbv iota beta.
  change (uniform (- e) de (length W) rng1)
    with (d_dir, snd (uniform (- e) de (length W) rng1)).
  cbv iota beta.
  set (W1 := set_Wind (vadd (map Wind W) d_spd) W).
  set (W2 := set_WDir (vadd (map WDir W) d_dir) W1).
  set (W3 := set_WDir (map (fun x => np_mod x 360.0) (map WDir W2)) W2).
  assert (Ls : length d_spd = length W) by apply length_uniform.
  assert (Ld : length d_dir = length W) by apply length_uniform.
  assert (L1 : length W1 = length W).
  { apply length_set_Wind. rewrite length_vadd; rewrite length_map; congruence. }
  assert (L2 : length W2 = length W).
  { unfold W2. rewrite length_set_WDir; [exact L1 |].
    rewrite length_vadd; rewrite length_map; congruence. }
  assert (L3 : length W3 = length W).
  { unfold W3. rewrite length_set_WDir; [exact L2 |].
    rewrite !length_map. reflexivity. }
  exists W3. cbn [fst]. split; [reflexivity |]. split; [exact L3 |].
  intros i Hi.
  unfold W3. rewrite nth_set_WDir by (rewrite ?length_map; lia).
  cbv zeta.
  rewrite (nth_indep _ 0 (np_mod 0 360.0)) by (rewrite !length_map; lia).
  rewrite (map_nth (fun x => np_mod x 360.0)).
  rewrite nth_map_layer by lia.
  unfold W2. rewrite nth_set_WDir
    by (rewrite ?length_vadd; rewrite ?length_map; congruence || lia).
  cbv zeta. cbn [Height TempK Press RHum Wind WDir].
  rewrite nth_vadd by (rewrite length_map; congruence).
  rewrite nth_map_layer by lia.
  unfold W1. rewrite nth_set_Wind
    by (rewrite ?length_vadd; rewrite ?length_map; congruence || lia).
  cbv zeta. cbn [Height TempK Press RHum Wind WDir].
  rewrite nth_vadd by (rewrite length_map; congruence).
  rewrite nth_map_layer by lia.
  unfold d_spd, d_dir, rng1.
  rewrite !nth_uniform by lia.
  cbn [uniform snd]. reflexivity.
Qed.

Lemma randomise_grid (G : Grid) (e de : R) (mc : Z) (rng : RNG) :
  length G = 9%nat -> mc <> 0%Z ->
  exists G',
    fst (DFN_DarkFlight.randomise_wind (Array3D G) e de mc rng) = Array3D G' /\
    length G' = 9%nat /\
    (forall k, k <> 3%nat -> k <> 4%nat -> nth k G' [] = nth k G []) /\
    nth 3 G' []
    = vadd (nth 3 G []) (fst (uniform (- e) e (length (nth 3 G [])) rng)) /\
    nth 4 G' []
    = vadd (nth 4 G [])
        (fst (uniform (- e) e (length (nth 4 G []))
                (snd (uniform (- e) e (length (nth 3 G [])) rng)))).
Proof.
  intros HG Hmc. unfold DFN_DarkFlight.randomise_wind.
  destruct (Z.eqb_spec mc 0) as [H0 | _]; [contradiction |].
  do 9 (destruct G as [|? G]; [discriminate HG |]).
  destruct G; [clear HG | discriminate HG].
  cbn [nth].
  set (u3 := uniform (- e) e (length l2) rng).
  rewrite (surjective_pairing u3). cbv iota beta.
  set (u4 := uniform (- e) e (length l3) (snd u3)).
  rewrite (surjective_pairing u4). cbv iota beta.
  cbn [set_field firstn skipn app fst].
  eexists. split; [reflexivity |].
  split; [reflexivity |]. split; [| split; reflexivity].
  intros k H3 H4.
  do 9 (destruct k as [|k]; [try reflexivity; lia |]).
  destruct k; reflexivity.
Qed.

(** C6 (as amended): with Monte-Carlo mode on (mc <> 0) and a non-negative
    wind-speed error, for generators of samples of [0, 1): Propagate's copy
    of a 1-D sounding keeps the number of layers and the height, temperature,
    pressure and humidity of each layer; layer number i gets draws of its
    own: sample i offsets the wind speed by a uniform draw from
    [-wind_err, +wind_err], and sample (number of layers + i) offsets the
    direction by a uniform draw from an interval [lo, +winddir_err], whose
    lower end lo <= 0 is the same for every sounding, layer and generator;
    the direction is then reduced mod 360 into [0, 360).  In a 3-D grid
    each cell of fields 3 and 4 (the east and north wind) gets its own
    offset in [-wind_err, +wind_err] and every other field, the vertical
    wind (field 5) included, is left as it was.  With mc = 0 the wind data
    are not changed. *)
Theorem wind_randomisation (e de : R) (mc : Z) :
  mc <> 0%Z -> 0 <= e ->
  (exists lo, - Rmax e de <= lo <= 0 /\
     forall (W : list Layer) (rng : RNG), (forall i, 0 <= rng i < 1) ->
     exists W',
       fst (DFN_DarkFlight.randomise_wind (Table1D W) e de mc rng)
       = Table1D W' /\
       length W' = length W /\
       forall i, (i < length W)%nat ->
         let row := nth i W no_layer in
         let row' := nth i W' no_layer in
         let d := - e + (e - - e) * rng i in
         let d_dir := lo + (de - lo) * rng (length W + i)%nat in
         Wind row' = Wind row + d /\ - e <= d <= e /\
         WDir row' = np_mod (WDir row + d_dir) 360 /\
         (0 <= de -> lo <= d_dir <= de) /\
         0 <= WDir row' < 360 /\
         Height row' = Height row /\ TempK row' = TempK row /\
         Press row' = Press row /\ RHum row' = RHum row) /\
  (forall (G : Grid) (rng : RNG),
     (forall i, 0 <= rng i < 1) -> length G = 9%nat ->
     exists G',
       fst (DFN_DarkFlight.randomise_wind (Array3D G) e de mc rng)
       = Array3D G' /\
       length G' = 9%nat /\
       (forall k, k <> 3%nat -> k <> 4%nat -> nth k G' [] = nth k G []) /\
       (forall j, (j < length (nth 3 G []))%nat ->
          let d := - e + (e - - e) * rng j in
          idx (nth 3 G' []) j = idx (nth 3 G []) j + d /\ - e <= d <= e) /\
       (forall j, (j < length (nth 4 G []))%nat ->
          let d := - e + (e - - e) * rng (length (nth 3 G []) + j)%nat in
          idx (nth 4 G' []) j = idx (nth 4 G []) j + d /\ - e <= d <= e)) /\
  (forall (W : list Layer) (G : Grid) (rng : RNG),
     fst (DFN_DarkFlight.randomise_wind (Table1D W) e de 0 rng) = Table1D W /\
     fst (DFN_DarkFlight.randomise_wind (Array3D G) e de 0 rng) = Array3D G).
Proof.
  intros Hmc He.
  split; [| split; [| intros W G rng; split; reflexivity]].
  - exists (- e). split.
    { split; [| lra]. pose proof (Rmax_l e de). lra. }
    intros W rng Hrng.
    destruct (randomise_table W e de mc rng Hmc) as (W' & HW' & HL & Hrow).
    exists W'. split; [exact HW' |]. split; [exact HL |].
    intros i Hi row row' d d_dir. unfold row'. rewrite (Hrow i Hi).
    cbn [Height TempK Press RHum Wind WDir]. fold row.
    split; [reflexivity |].
    split; [apply uniform_symmetric; [exact He | apply Hrng] |].
    split; [unfold d_dir; replace 360 with 360.0 by lra; reflexivity |].
    split.
    { intros Hde. unfold d_dir.
      destruct (Hrng (length W + i)%nat) as [Hu0 Hu1].
      assert (0 <= (de - - e) * rng (length W + i)%nat)
        by (apply Rmult_le_pos; lra).
      assert ((de - - e) * rng (length W + i)%nat <= (de - - e) * 1)
        by (apply Rmult_le_compat_l; lra).
      lra. }
    split; [| repeat split; reflexivity].
    replace 360 with 360.0 by lra.
    apply np_mod_range. lra.
  - intros G rng Hrng HG.
    destruct (randomise_grid G e de mc rng HG Hmc)
      as (G' & HG' & HL & Hother & H3 & H4).
    exists G'. split; [exact HG' |]. split; [exact HL |].
    split; [exact Hother |]. split.
    + intros j Hj d. rewrite H3.
      rewrite idx_vadd by (rewrite length_uniform; reflexivity).
      unfold idx at 2. rewrite nth_uniform by exact Hj.
      split; [reflexivity |]. apply uniform_symmetric; [exact He | apply Hrng].
    + intros j Hj d. rewrite H4.
      rewrite idx_vadd by (rewrite length_uniform; reflexivity).
      unfold idx at 2. rewrite nth_uniform by exact Hj.
      cbn [uniform snd].
      split; [reflexivity |]. apply uniform_symmetric; [exact He | apply Hrng].
Qed.

Lemma wind_randomisation_witness :
  (exists W',
     fst (DFN_DarkFlight.randomise_wind (Table1D Sphere.sounding) 2 0 1
            (fun _ => 1 / 2)) = Table1D W' /\
     length W' = 2%nat /\
     Wind (nth 0 W' no_layer) = 5 + (- 2 + (2 - - 2) * (1 / 2))) /\
  (exists G',
     fst (DFN_DarkFlight.randomise_wind (Array3D Inputs.one_cell_grid) 2 0 1
            (fun _ => 1 / 2)) = Array3D G' /\
     nth 5 G' [] = [0.5]).
Proof.
  assert (Hmc : 1%Z <> 0%Z) by discriminate.
  assert (He : 0 <= 2) by lra.
  assert (Hrng : forall i : nat, 0 <= (fun _ : nat => 1 / 2) i < 1)
    by (intros _; cbv beta; lra).
  destruct (wind_randomisation 2 0 1 Hmc He)
    as ((lo & _ & Htab) & Hgrid & _).
  split.
  - destruct (Htab Sphere.sounding (fun _ => 1 / 2) Hrng)
      as (W' & HW' & HL & Hrow).
    exists W'. split; [exact HW' |]. split; [exact HL |].
    destruct (Hrow 0%nat ltac:(cbn; lia)) as [Hw _].
    exact Hw.
  - destruct (Hgrid Inputs.one_cell_grid (fun _ => 1 / 2) Hrng eq_refl)
      as (G' & HG' & _ & Hother & _).
    exists G'. split; [exact HG' |].
    apply (Hother 5%nat); discriminate.
Defined.

(** C6, the claim as stated fails on the vertical wind of a grid: on the
    grid of one cell, with the wind error 2 m/s, the vertical wind (field 5)
    comes out as it went in, 0.5 m/s, for every generator, while the same
    run moves the east and north winds by 1 m/s for the samples 3/4; so no
    sample of the generator offsets the vertical wind by a draw from
    [-2, +2]. *)
Lemma vertical_wind_not_randomised :
  (forall rng : RNG,
     exists G',
       fst (DFN_DarkFlight.randomise_wind (Array3D Inputs.one_cell_grid)
              2 0 1 rng) = Array3D G' /\
       nth 5 G' [] = [0.5]) /\
  (exists G',
     fst (DFN_DarkFlight.randomise_wind (Array3D Inputs.one_cell_grid)
            2 0 1 (fun _ => 3 / 4)) = Array3D G' /\
     nth 3 G' [] = [10 + 1] /\ nth 4 G' [] = [20 + 1] /\
     nth 5 G' [] = [0.5]) /\
  ~ (exists k : nat,
       forall rng : RNG, (forall i, 0 <= rng i < 1) ->
       exists G',
         fst (DFN_DarkFlight.randomise_wind (Array3D Inputs.one_cell_grid)
                2 0 1 rng) = Array3D G' /\
         idx (nth 5 G' []) 0 = 0.5 + (- 2 + (2 - - 2) * rng k)).
Proof.
  assert (Hall : forall rng : RNG,
            fst (DFN_DarkFlight.randomise_wind
                   (Array3D Inputs.one_cell_grid) 2 0 1 rng)
            = Array3D [[-30]; [130]; [1000];
                       [10 + (- 2 + (2 - - 2) * rng 0%nat)];
                       [20 + (- 2 + (2 - - 2) * rng 1%nat)];
                       [0.5]; [280]; [90000]; [50]]).
  { intros rng. reflexivity. }
  split; [| split].
  - intros rng. eexists. split; [apply Hall | reflexivity].
  - eexists. split; [apply Hall |]. cbn [nth].
    split; [f_equal; lra |]. split; [f_equal; lra | reflexivity].
  - intros (k & Hk).
    destruct (Hk (fun _ => 3 / 4) ltac:(intros i; cbv beta; lra))
      as (G' & HG' & Hv).
    rewrite Hall in HG'. injection HG' as HG'. rewrite <- HG' in Hv.
    cbn [nth idx] in Hv. lra.
Qed.

(** Line 425 of DFN_DarkFlight.py draws the direction offset with
    [np.random.uniform(-windspd_err, winddir_err)]: with the defaults of the
    script (wind error 2 m/s, direction error 0 degrees) and the sample
    u = 0 a layer with direction 90 ends at 88 degrees. *)
Lemma direction_draw_lower_end :
  exists W',
    fst (DFN_DarkFlight.randomise_wind (Table1D Sphere.sounding) 2 0 1
           (fun _ => 0)) = Table1D W' /\
    WDir (nth 0 Sphere.sounding no_layer) = 90 /\
    WDir (nth 0 W' no_layer) = 88.
Proof.
  assert (Hmc : 1%Z <> 0%Z) by discriminate.
  destruct (randomise_table Sphere.sounding 2 0 1 (fun _ => 0) Hmc)
    as (W' & HW' & HL & Hrow).
  exists W'. split; [exact HW' |]. split; [reflexivity |].
  rewrite (Hrow 0%nat ltac:(cbn; lia)).
  cbn [WDir Sphere.sounding nth].
  rewrite np_mod_small by lra. lra.
Qed.

(** ** The sampler on a 1-D sounding *)

Lemma Sphere_reference_height (a t_jd : R) :
  0 <= a ->
  idx (df_functions.reference_Pos_LLH Sphere.tu [a; 0; 0] t_jd) 2
  = a - Sphere.R0.
Proof.
  intros Ha. unfold df_functions.reference_Pos_LLH.
  cbn [Sphere.tu ECI2ECEF_pos ECEF2LLH]. unfold Sphere.sphere_ECEF2LLH.
  cbn [idx nth]. rewrite norm_axis by exact Ha. reflexivity.
Qed.

Lemma Sphere_sounding_height (a : R) :
  Sphere.R0 <= a ->
  idx (df_functions.sounding_Pos_LLH Sphere.tu [a; 0; 0]) 2
  = (a - Sphere.R0) - Sphere.R0.
Proof.
  intros Ha. unfold df_functions.sounding_Pos_LLH.
  cbn [Sphere.tu ECEF2LLH]. unfold Sphere.sphere_ECEF2LLH at 1.
  cbn [idx nth].
  assert (HR : 0 < Sphere.R0) by (unfold Sphere.R0; lra).
  unfold Sphere.sphere_ECEF2LLH. cbn [idx nth].
  rewrite norm_axis by lra.
  f_equal. apply norm_eq; [lra |].
  unfold Sphere.atan2. rewrite Rlt_b_true by lra.
  replace (0 / a) with 0 by (unfold Rdiv; ring).
  rewrite asin_0, atan_0. cbn [sum_sq fold_right]. ring.
Qed.

Lemma Sphere_sounding_fields_below (si : scipy_interpolate) (h : R) :
  h < 0 ->
  df_functions.sounding_fields si Sphere.sounding h
  = (5, 90, 288, 101325, 0.5).
Proof.
  intros Hh. unfold df_functions.sounding_fields.
  rewrite sounding_top, sounding_bottom.
  rewrite Rlt_b_false by lra.
  rewrite Rle_b_true by lra.
  rewrite (Rle_b_false 0 h) by lra.
  cbn [andb Sphere.sounding map Height argmin argmin_from].
  rewrite Rlt_b_false by lra.
  reflexivity.
Qed.

Lemma Sphere_AtmosphericModel_temp (ou : orbital_utilities)
    (si : scipy_interpolate) (a t_jd : R) :
  Sphere.R0 <= a < 2 * Sphere.R0 ->
  snd (df_functions.AtmosphericModel Sphere.tu ou si Sphere.sounding
         [a; 0; 0] t_jd) = 288.
Proof.
  intros [Ha1 Ha2]. unfold df_functions.AtmosphericModel.
  cbn [Sphere.sounding length Nat.eqb negb].
  fold Sphere.sounding.
  rewrite Sphere_sounding_height by exact Ha1.
  rewrite Sphere_sounding_fields_below by lra.
  reflexivity.
Qed.

(** C3, the code at a failing input: on the spherical Earth a query 1 km
    above sea level lies inside the height range [0, 30000] of the sounding
    (its geodetic height, as the reference branch computes it, is 1000 m),
    but the sounding branch applies ECEF2LLH twice and looks the sounding up
    at 1000 - 6371000 m; the sampler returns the temperature of the lowest
    layer, 288 K, whatever the interpolation would have given. *)
Theorem sounding_height_converted_twice (ou : orbital_utilities)
    (si : scipy_interpolate) (t_jd : R) :
  let p := [6372000; 0; 0] in
  (forall (tu : trajectory_utilities) (q : vec),
     df_functions.sounding_Pos_LLH tu q = ECEF2LLH tu (ECEF2LLH tu q)) /\
  idx (df_functions.reference_Pos_LLH Sphere.tu p t_jd) 2 = 1000 /\
  min_list (map Height Sphere.sounding) <= 1000
    <= max_list (map Height Sphere.sounding) /\
  idx (df_functions.sounding_Pos_LLH Sphere.tu p) 2 = 1000 - 6371000 /\
  snd (df_functions.AtmosphericModel Sphere.tu ou si Sphere.sounding p t_jd)
  = 288.
Proof.
  intros p. split; [reflexivity |]. split; [| split; [| split]].
  - unfold p. rewrite Sphere_reference_height by lra. unfold Sphere.R0. lra.
  - rewrite sounding_top, sounding_bottom. lra.
  - unfold p. rewrite Sphere_sounding_height by (unfold Sphere.R0; lra).
    unfold Sphere.R0. lra.
  - apply Sphere_AtmosphericModel_temp. unfold Sphere.R0. lra.
Qed.

(** ** Above the top of the sounding *)

Lemma main_atmosphere_ignores_reference (tu : trajectory_utilities)
    (ou ou' : orbital_utilities) (si : scipy_interpolate) (gs : grid_sampler)
    (W : list Layer) (p : vec) (t_jd : R) :
  W <> [] ->
  DarkFlight_main.atmosphere tu ou si gs (Table1D W) p t_jd
  = DarkFlight_main.atmosphere tu ou' si gs (Table1D W) p t_jd.
Proof.
  intros HW. unfold DarkFlight_main.atmosphere, df_functions.AtmosphericModel.
  destruct W as [|row W]; [contradiction HW; reflexivity |].
  reflexivity.
Qed.

(** C4 (as amended): in DFN_DarkFlight.py, when the geodetic height of the
    query lies above the top of the 1-D sounding, the dynamics takes its wind
    (the rotation of the Earth alone), density and temperature from the
    reference model evaluated at the geodetic position and t_jd.  In
    DarkFlight_main.py the dynamics hands a non-empty sounding to the sampler
    at every height, and the result does not depend on the reference
    model. *)
Theorem reference_model_above_sounding (tu : trajectory_utilities)
    (ou ou' : orbital_utilities) (si : scipy_interpolate) (gs : grid_sampler)
    (W : list Layer) (p : vec) (t_jd : R) :
  let Pos_LLH := ECEF2LLH tu (ECI2ECEF_pos tu p t_jd) in
  (max_list (map Height W) < idx Pos_LLH 2 ->
   DFN_DarkFlight.atmosphere tu ou si gs (Table1D W) p t_jd
   = (df_functions.v_rot tu p t_jd,
      snd (NRLMSISE_00 ou Pos_LLH t_jd),
      fst (fst (NRLMSISE_00 ou Pos_LLH t_jd)))) /\
  (W <> [] ->
   DarkFlight_main.atmosphere tu ou si gs (Table1D W) p t_jd
   = DarkFlight_main.atmosphere tu ou' si gs (Table1D W) p t_jd).
Proof.
  intros Pos_LLH. split.
  - intros Habove. unfold DFN_DarkFlight.atmosphere. fold Pos_LLH.
    rewrite Rlt_b_true by exact Habove.
    unfold df_functions.AtmosphericModel, df_functions.reference_Pos_LLH.
    cbn [length Nat.eqb negb]. fold Pos_LLH.
    destruct (NRLMSISE_00 ou Pos_LLH t_jd) as [[T P] rho_a]. reflexivity.
  - apply main_atmosphere_ignores_reference.
Qed.

Lemma reference_model_above_sounding_witness :
  DFN_DarkFlight.atmosphere Sphere.tu Sphere.ou Sphere.si Sphere.gs
    (Table1D Sphere.sounding) [6411000; 0; 0] 2459000
  = (df_functions.v_rot Sphere.tu [6411000; 0; 0] 2459000, 1e-9, 1000).
Proof.
  pose proof (reference_model_above_sounding Sphere.tu Sphere.ou Sphere.ou
                Sphere.si Sphere.gs Sphere.sounding [6411000; 0; 0] 2459000)
    as H.
  cbv zeta in H. destruct H as [H _].
  apply H.
  rewrite sounding_top.
  assert (Hh : 0 <= 6411000) by lra.
  pose proof (Sphere_reference_height 6411000 2459000 Hh) as Hgeo.
  unfold df_functions.reference_Pos_LLH in Hgeo. rewrite Hgeo.
  unfold Sphere.R0. lra.
Defined.

(** C4, the claim as stated fails on DarkFlight_main.py: 40 km up, above the
    30 km top of the sounding, its dynamics gets the temperature 288 K of a
    sounding layer, not the 1000 K of the reference model. *)
Lemma main_sampler_above_sounding :
  let p := [6411000; 0; 0] in
  max_list (map Height Sphere.sounding)
  < idx (df_functions.reference_Pos_LLH Sphere.tu p 2459000) 2 /\
  snd (DarkFlight_main.atmosphere Sphere.tu Sphere.ou Sphere.si Sphere.gs
         (Table1D Sphere.sounding) p 2459000) = 288 /\
  fst (fst (NRLMSISE_00 Sphere.ou
              (df_functions.reference_Pos_LLH Sphere.tu p 2459000) 2459000))
  = 1000 /\
  288 <> 1000.
Proof.
  intros p. split; [| split; [| split]].
  - unfold p. rewrite sounding_top, Sphere_reference_height by lra.
    unfold Sphere.R0. lra.
  - unfold DarkFlight_main.atmosphere.
    apply Sphere_AtmosphericModel_temp. unfold Sphere.R0. lra.
  - reflexivity.
  - lra.
Qed.

(** ** The frame along a trajectory *)

Section TrajectoryFrame.

Import Integrator.

Variable tab : tableau.
Variable f : R -> vec -> vec.
Variable solout : R -> vec -> Recorded -> Z * Recorded.
Variable i : nat.
Hypothesis f_length : forall t y, length (f t y) = length y.
Hypothesis f_zero : forall t y, idx (f t y) i = 0.

Lemma offered_frame (hs : list R) (t : R) (y : vec) :
  Forall (fun X => length X = length y /\ idx X i = idx y i)
         (map snd (offered tab f solout hs t y)).
Proof.
  revert t y. induction hs as [|h hs IH]; intros t y; cbn [offered map snd].
  - constructor; [split; reflexivity |].
    destruct (Z.eqb _ _); constructor.
  - constructor; [split; reflexivity |].
    destruct (Z.eqb _ _); [constructor |].
    destruct (rk_step_frame f i f_length f_zero tab h t y) as [Hi Hl].
    eapply Forall_impl; [| apply IH].
    intros X [HX1 HX2]. split; congruence.
Qed.

End TrajectoryFrame.

Lemma interpolated_frame (n : nat) (v fr : R) (i : nat) (Xp Xl : vec) :
  length Xp = n /\ idx Xp i = v -> length Xl = n /\ idx Xl i = v ->
  length (interpolated fr Xp Xl) = n /\ idx (interpolated fr Xp Xl) i = v.
Proof.
  intros [Lp Hp] [Ll Hl]. unfold interpolated.
  assert (Ls : length (vsub Xl Xp) = n) by (rewrite length_vsub; congruence).
  split.
  - rewrite length_vadd; [exact Lp |]. rewrite length_vscale. congruence.
  - rewrite idx_vadd by (rewrite length_vscale; congruence).
    rewrite idx_vscale, idx_vsub by congruence. rewrite Hp, Hl. lra.
Qed.

Lemma Forall_nth_default {A : Type} (P : A -> Prop) (l : list A) (k : nat)
    (d : A) :
  Forall P l -> (k < length l)%nat -> P (nth k l d).
Proof. intros H Hk. apply Forall_nth; assumption. Qed.

Lemma Forall_removelast {A : Type} (P : A -> Prop) (l : list A) :
  Forall P l -> Forall P (removelast l).
Proof.
  induction 1 as [|x l Hx Hl IH]; [constructor |].
  destruct l as [|y l]; [constructor |].
  cbn [removelast] in *. constructor; assumption.
Qed.

Lemma DFN_backtrack_frame (tu : trajectory_utilities)
    (elevation_data : srtm_data) (t0 : R) (hg : DFN_DarkFlight.ground_arg)
    (state : list vec) (T_rel : list R) (n : nat) (v : R) (i : nat) :
  Forall (fun X => length X = n /\ idx X i = v) state ->
  Forall (fun X => length X = n /\ idx X i = v)
    (DFN_DarkFlight.X_all
       (DFN_DarkFlight.backtrack tu elevation_data t0 hg (state, T_rel))).
Proof.
  intros H. unfold DFN_DarkFlight.backtrack.
  destruct (Nat.ltb_spec 1 (length state)) as [Hlen | Hlen];
    cbn [DFN_DarkFlight.X_all]; [| exact H].
  apply Forall_app. split; [apply Forall_removelast; exact H |].
  constructor; [| constructor].
  apply interpolated_frame; apply Forall_nth_default; try exact H; lia.
Qed.

Lemma main_backtrack_frame (tu : trajectory_utilities) (t0 hg : R)
    (state : list vec) (T_rel : list R) (n : nat) (v : R) (i : nat) :
  Forall (fun X => length X = n /\ idx X i = v) state ->
  Forall (fun X => length X = n /\ idx X i = v)
    (DarkFlight_main.X_all
       (DarkFlight_main.backtrack tu t0 hg (state, T_rel))).
Proof.
  intros H. unfold DarkFlight_main.backtrack.
  destruct (Nat.ltb_spec 1 (length state)) as [Hlen | Hlen];
    cbn [DarkFlight_main.X_all]; [| exact H].
  apply Forall_app. split; [apply Forall_removelast; exact H |].
  constructor; [| constructor].
  apply interpolated_frame; apply Forall_nth_default; try exact H; lia.
Qed.

(** C8: every evaluation of the dynamics, in either script, returns a
    derivative whose components 7, 8 and 9 (bulk density, shape factor,
    mass-loss coefficient) are zero, so every accepted integration step
    leaves these three components of the state as they were, and every
    sample of the trajectory Propagate returns carries the bulk density,
    shape factor and mass-loss coefficient of the initial state; the weight
    is split off before the state goes to the integrator, so changing it
    changes nothing in the integrated state. *)
Theorem dynamics_frame (tu : trajectory_utilities) (af : atm_functions)
    (ou : orbital_utilities) (si : scipy_interpolate) (gs : grid_sampler)
    (elevation_data : srtm_data)
    (t : R) (X : vec) (W : WindSource) (t0 cl : R)
    (tab : Integrator.tableau) (h : R) (row : vec) (w : R)
    (state0 : vec) (args : DFN_DarkFlight.Args) (rng : RNG) (hs : list R)
    (args' : DarkFlight_main.Args) :
  (idx (DFN_DarkFlight.EarthDynamics tu af ou si gs t X W t0) 7 = 0 /\
   idx (DFN_DarkFlight.EarthDynamics tu af ou si gs t X W t0) 8 = 0 /\
   idx (DFN_DarkFlight.EarthDynamics tu af ou si gs t X W t0) 9 = 0) /\
  (idx (DarkFlight_main.EarthDynamics tu af ou si gs t X W t0 cl) 7 = 0 /\
   idx (DarkFlight_main.EarthDynamics tu af ou si gs t X W t0 cl) 8 = 0 /\
   idx (DarkFlight_main.EarthDynamics tu af ou si gs t X W t0 cl) 9 = 0) /\
  (forall i, (7 <= i <= 9)%nat ->
     idx (Integrator.rk_step tab
            (fun t X => DFN_DarkFlight.EarthDynamics tu af ou si gs t X W t0)
            h t X) i = idx X i) /\
  (forall i, (7 <= i <= 9)%nat ->
     idx (Integrator.rk_step tab
            (fun t X => DarkFlight_main.EarthDynamics tu af ou si gs t X W t0 cl)
            h t X) i = idx X i) /\
  (forall i, (7 <= i <= 9)%nat ->
     Forall (fun X' => idx X' i = idx (skipn 1 state0) i)
       (DFN_DarkFlight.X_all
          (DFN_DarkFlight.Propagate tu af ou si gs elevation_data
             state0 args rng hs))) /\
  (forall i, (7 <= i <= 9)%nat ->
     Forall (fun X' => idx X' i = idx (skipn 1 state0) i)
       (DarkFlight_main.X_all
          (DarkFlight_main.Propagate tu af ou si gs state0 args' hs))) /\
  Runner.State_of (set_slice 11 12 [w] row) = Runner.State_of row.
Proof.
  split; [| split; [| split; [| split; [| split; [| split]]]]].
  - repeat split; apply DFN_EarthDynamics_frame; lia.
  - repeat split; apply main_EarthDynamics_frame; lia.
  - intros i Hi. apply rk_step_frame.
    + intros. apply DFN_EarthDynamics_length.
    + intros. apply DFN_EarthDynamics_frame. lia.
  - intros i Hi. apply rk_step_frame.
    + intros. apply main_EarthDynamics_length.
    + intros. apply main_EarthDynamics_frame. lia.
  - intros i Hi. unfold DFN_DarkFlight.Propagate.
    rewrite (integrate_offered _ _ _ (DFN_solout_appends tu elevation_data _ _)).
    cbn [fst snd app].
    eapply Forall_impl;
      [| apply (DFN_backtrack_frame tu elevation_data _ _ _ _
                  (length (skipn 1 state0)) (idx (skipn 1 state0) i) i) ].
    + intros X' [_ HX']. exact HX'.
    + apply offered_frame.
      * intros. apply DFN_EarthDynamics_length.
      * intros. apply DFN_EarthDynamics_frame. lia.
  - intros i Hi. unfold DarkFlight_main.Propagate.
    rewrite (integrate_offered _ _ _ (main_solout_appends _)).
    cbn [fst snd app].
    eapply Forall_impl;
      [| apply (main_backtrack_frame tu _ _ _ _
                  (length (skipn 1 state0)) (idx (skipn 1 state0) i) i) ].
    + intros X' [_ HX']. exact HX'.
    + apply offered_frame.
      * intros. apply main_EarthDynamics_length.
      * intros. apply main_EarthDynamics_frame. lia.
  - apply State_of_weight.
Qed.

(** * Further properties of the propagator *)

(** ** The shape of a trajectory *)

Lemma last_cons_indep {A : Type} (x : A) (l : list A) (d d' : A) :
  last (x :: l) d = last (x :: l) d'.
Proof.
  revert x. induction l as [|y l IH]; intros x; [reflexivity |].
  change (last (y :: l) d = last (y :: l) d'). apply IH.
Qed.

Section OfferedShape.

Import Integrator.

Variable tab : tableau.
Variable f : R -> vec -> vec.
Variable solout : R -> vec -> Recorded -> Z * Recorded.

Local Abbreviation offered := (Integrator.offered tab f solout).

Lemma offered_length (hs : list R) (t : R) (y : vec) :
  (1 <= length (offered hs t y) <= S (length hs))%nat.
Proof.
  revert t y. induction hs as [|h hs IH]; intros t y; cbn [offered length].
  - destruct (Z.eqb _ _); cbn [length]; lia.
  - destruct (Z.eqb _ _); cbn [length]; [lia |].
    specialize (IH (t + h) (rk_step tab f h t y)). lia.
Qed.

Lemma offered_head (hs : list R) (t : R) (y : vec) :
  exists rest, offered hs t y = (t, y) :: rest.
Proof. destruct hs; cbn [offered]; eexists; reflexivity. Qed.

Lemma offered_times_from (hs : list R) (t : R) (y : vec) :
  Forall (fun h => 0 < h) hs ->
  Forall (fun s => t <= fst s) (offered hs t y).
Proof.
  intros Hpos. revert t y.
  induction Hpos as [|h hs Hh _ IH]; intros t y; cbn [offered].
  - constructor; [cbn; lra |]. destruct (Z.eqb _ _); constructor.
  - constructor; [cbn; lra |]. destruct (Z.eqb _ _); [constructor |].
    eapply Forall_impl; [| apply IH].
    intros s Hs. cbn beta in Hs. lra.
Qed.

Lemma offered_times_sorted (hs : list R) (t : R) (y : vec) :
  Forall (fun h => 0 < h) hs ->
  StronglySorted Rlt (map fst (offered hs t y)).
Proof.
  intros Hpos. revert t y.
  induction Hpos as [|h hs Hh Hpos IH]; intros t y; cbn [offered map fst].
  - constructor; destruct (Z.eqb _ _); constructor.
  - destruct (Z.eqb _ _); [constructor; constructor |].
    constructor; [apply IH |].
    rewrite Forall_map.
    eapply Forall_impl; [| apply offered_times_from; exact Hpos].
    intros s Hs. cbn beta in Hs. lra.
Qed.

Lemma offered_last_stops (hs : list R) (t : R) (y : vec) :
  (length (offered hs t y) < S (length hs))%nat ->
  fst (solout (fst (last (offered hs t y) (t, y)))
              (snd (last (offered hs t y) (t, y))) ([], [])) = (-1)%Z.
Proof.
  revert t y. induction hs as [|h hs IH]; intros t y; cbn [offered length].
  - destruct (Z.eqb _ _); cbn [length]; lia.
  - destruct (Z.eqb_spec (fst (solout t y ([], []))) (-1)) as [He | Hne].
    + intros _. cbn [last fst snd]. exact He.
    + intros Hlen. cbn [length] in Hlen.
      destruct (offered_head hs (t + h) (rk_step tab f h t y)) as [rest Hrest].
      specialize (IH (t + h) (rk_step tab f h t y) ltac:(lia)).
      rewrite Hrest in *.
      change (last ((t, y) :: (t + h, rk_step tab f h t y) :: rest) (t, y))
        with (last ((t + h, rk_step tab f h t y) :: rest) (t, y)).
      rewrite (last_cons_indep _ rest (t, y) (t + h, rk_step tab f h t y)).
      exact IH.
Qed.

End OfferedShape.

Lemma length_removelast {A : Type} (l : list A) :
  length (removelast l) = (length l - 1)%nat.
Proof.
  rewrite removelast_firstn_len, length_firstn. lia.
Qed.

Lemma length_replace_last {A : Type} (l : list A) (x : A) :
  (1 <= length l)%nat -> length (removelast l ++ [x]) = length l.
Proof.
  intros H. rewrite length_app, length_removelast. cbn [length]. lia.
Qed.

Lemma head_replace_last {A : Type} (l : list A) (x d : A) :
  (1 < length l)%nat -> nth 0 (removelast l ++ [x]) d = nth 0 l d.
Proof.
  intros H. destruct l as [|a [|b l]]; cbn [length] in H; try lia.
  reflexivity.
Qed.

Lemma removelast_combine {A B : Type} (u : list A) (v : list B) :
  length u = length v ->
  removelast (combine u v) = combine (removelast u) (removelast v).
Proof.
  revert v. induction u as [|a u IH]; intros [|b v] H; try discriminate;
    [reflexivity |].
  destruct u as [|a' u], v as [|b' v]; try discriminate; [reflexivity |].
  change (removelast (combine (a :: a' :: u) (b :: b' :: v)))
    with ((a, b) :: removelast (combine (a' :: u) (b' :: v))).
  change (combine (removelast (a :: a' :: u)) (removelast (b :: b' :: v)))
    with ((a, b) :: combine (removelast (a' :: u)) (removelast (b' :: v))).
  f_equal. apply IH. cbn [length] in *. lia.
Qed.

Lemma DFN_backtrack_shape (tu : trajectory_utilities)
    (elevation_data : srtm_data) (t0 : R) (hg : DFN_DarkFlight.ground_arg)
    (state : list vec) (T_rel : list R) :
  let out := DFN_DarkFlight.backtrack tu elevation_data t0 hg (state, T_rel) in
  let T := map (fun t => t / (24 * 60 * 60) + t0) T_rel in
  length (DFN_DarkFlight.X_all out) = length state /\
  (length state = length T_rel ->
   length (DFN_DarkFlight.time_jd out) = length T_rel) /\
  nth 0 (DFN_DarkFlight.X_all out) [] = nth 0 state [] /\
  (length state = length T_rel ->
   nth 0 (DFN_DarkFlight.time_jd out) 0 = nth 0 T 0) /\
  removelast (DFN_DarkFlight.X_all out) = removelast state /\
  removelast (DFN_DarkFlight.time_jd out) = removelast T.
Proof.
  intros out T. unfold out, DFN_DarkFlight.backtrack. fold T.
  destruct (Nat.ltb_spec 1 (length state)) as [Hlen | Hlen];
    cbn [DFN_DarkFlight.X_all DFN_DarkFlight.time_jd].
  - split; [apply length_replace_last; lia |].
    split.
    { intros HT. rewrite length_replace_last; unfold T; rewrite length_map;
        [reflexivity | lia]. }
    split; [apply head_replace_last; exact Hlen |].
    split; [intros HT; apply head_replace_last; unfold T;
            rewrite length_map; lia |].
    split; apply removelast_last.
  - unfold T. rewrite length_map. repeat split; reflexivity.
Qed.

Lemma main_backtrack_shape (tu : trajectory_utilities) (t0 hg : R)
    (state : list vec) (T_rel : list R) :
  let out := DarkFlight_main.backtrack tu t0 hg (state, T_rel) in
  let T := map (fun t => t / (24 * 60 * 60) + t0) T_rel in
  length (DarkFlight_main.X_all out) = length state /\
  (length state = length T_rel ->
   length (DarkFlight_main.time_jd out) = length T_rel) /\
  nth 0 (DarkFlight_main.X_all out) [] = nth 0 state [] /\
  (length state = length T_rel ->
   nth 0 (DarkFlight_main.time_jd out) 0 = nth 0 T 0) /\
  removelast (DarkFlight_main.X_all out) = removelast state /\
  removelast (DarkFlight_main.time_jd out) = removelast T.
Proof.
  intros out T. unfold out, DarkFlight_main.backtrack. fold T.
  destruct (Nat.ltb_spec 1 (length state)) as [Hlen | Hlen];
    cbn [DarkFlight_main.X_all DarkFlight_main.time_jd].
  - split; [apply length_replace_last; lia |].
    split.
    { intros HT. rewrite length_replace_last; unfold T; rewrite length_map;
        [reflexivity | lia]. }
    split; [apply head_replace_last; exact Hlen |].
    split; [intros HT; apply head_replace_last; unfold T;
            rewrite length_map; lia |].
    split; apply removelast_last.
  - unfold T. rewrite length_map. repeat split; reflexivity.
Qed.

Section PropagateRecord.

Context (tu : trajectory_utilities) (af : atm_functions)
        (ou : orbital_utilities) (si : scipy_interpolate)
        (gs : grid_sampler) (elevation_data : srtm_data).

(** What the integrator records inside the two [Propagate]. *)
Lemma DFN_Propagate_record (state0 : vec) (args : DFN_DarkFlight.Args)
    (rng : RNG) (hs : list R) :
  exists F,
    DFN_DarkFlight.Propagate tu af ou si gs elevation_data state0 args rng hs
    = DFN_DarkFlight.backtrack tu elevation_data (idx state0 0)
        (DFN_DarkFlight.h_ground args)
        (map snd (Integrator.offered Integrator.dopri5 F
                    (DFN_DarkFlight.solout tu elevation_data (idx state0 0)
                       (DFN_DarkFlight.h_ground args))
                    hs 0 (skipn 1 state0)),
         map fst (Integrator.offered Integrator.dopri5 F
                    (DFN_DarkFlight.solout tu elevation_data (idx state0 0)
                       (DFN_DarkFlight.h_ground args))
                    hs 0 (skipn 1 state0))).
Proof.
  eexists. unfold DFN_DarkFlight.Propagate.
  rewrite (integrate_offered _ _ _ (DFN_solout_appends tu elevation_data _ _)).
  reflexivity.
Qed.

Lemma main_Propagate_record (state0 : vec) (args : DarkFlight_main.Args)
    (hs : list R) :
  exists F,
    DarkFlight_main.Propagate tu af ou si gs state0 args hs
    = DarkFlight_main.backtrack tu (idx state0 0)
        (DarkFlight_main.h_ground args)
        (map snd (Integrator.offered Integrator.dopri5 F
                    (DarkFlight_main.solout
                       (EarthRadius tu (idx (ECEF2LLH tu (slice 1 4 state0)) 0)
                        + DarkFlight_main.h_ground args))
                    hs 0 (skipn 1 state0)),
         map fst (Integrator.offered Integrator.dopri5 F
                    (DarkFlight_main.solout
                       (EarthRadius tu (idx (ECEF2LLH tu (slice 1 4 state0)) 0)
                        + DarkFlight_main.h_ground args))
                    hs 0 (skipn 1 state0))).
Proof.
  eexists. unfold DarkFlight_main.Propagate.
  rewrite (integrate_offered _ _ _ (main_solout_appends _)).
  reflexivity.
Qed.

End PropagateRecord.

Lemma nth0_map_offered_snd (tab : Integrator.tableau) (f : R -> vec -> vec)
    (solout : R -> vec -> Recorded -> Z * Recorded) (hs : list R) (t : R)
    (y : vec) :
  nth 0 (map snd (Integrator.offered tab f solout hs t y)) [] = y
  /\ forall g : R -> R,
       nth 0 (map g (map fst (Integrator.offered tab f solout hs t y))) 0 = g t.
Proof.
  destruct (offered_head tab f solout hs t y) as [rest H]. rewrite H.
  split; [reflexivity | intros g; reflexivity].
Qed.

(** X1: in either script the trajectory Propagate returns has as many times
    as samples, at least one and at most one more than the number of accepted
    steps, and it starts with the initial state at the initial time. *)
Theorem trajectory_shape (tu : trajectory_utilities) (af : atm_functions)
    (ou : orbital_utilities) (si : scipy_interpolate) (gs : grid_sampler)
    (elevation_data : srtm_data) (state0 : vec) (args : DFN_DarkFlight.Args)
    (rng : RNG) (hs : list R) (args' : DarkFlight_main.Args) :
  let out := DFN_DarkFlight.Propagate tu af ou si gs elevation_data
               state0 args rng hs in
  let out' := DarkFlight_main.Propagate tu af ou si gs state0 args' hs in
  (length (DFN_DarkFlight.time_jd out) = length (DFN_DarkFlight.X_all out) /\
   (1 <= length (DFN_DarkFlight.X_all out) <= S (length hs))%nat /\
   nth 0 (DFN_DarkFlight.X_all out) [] = skipn 1 state0 /\
   nth 0 (DFN_DarkFlight.time_jd out) 0 = 0 / (24 * 60 * 60) + idx state0 0) /\
  (length (DarkFlight_main.time_jd out') = length (DarkFlight_main.X_all out') /\
   (1 <= length (DarkFlight_main.X_all out') <= S (length hs))%nat /\
   nth 0 (DarkFlight_main.X_all out') [] = skipn 1 state0 /\
   nth 0 (DarkFlight_main.time_jd out') 0 = 0 / (24 * 60 * 60) + idx state0 0).
Proof.
  intros out out'. split.
  - destruct (DFN_Propagate_record tu af ou si gs elevation_data state0 args
                rng hs) as [F HF].
    unfold out. rewrite HF.
    set (o := Integrator.offered _ F _ hs 0 (skipn 1 state0)).
    destruct (DFN_backtrack_shape tu elevation_data (idx state0 0)
                (DFN_DarkFlight.h_ground args) (map snd o) (map fst o))
      as (HL & HT & HX0 & HT0 & _).
    assert (Hlen : length (map snd o) = length (map fst o))
      by (rewrite !length_map; reflexivity).
    pose proof (offered_length Integrator.dopri5 F
                  (DFN_DarkFlight.solout tu elevation_data (idx state0 0)
                     (DFN_DarkFlight.h_ground args)) hs 0 (skipn 1 state0))
      as Hb.
    fold o in Hb.
    destruct (nth0_map_offered_snd Integrator.dopri5 F
                (DFN_DarkFlight.solout tu elevation_data (idx state0 0)
                   (DFN_DarkFlight.h_ground args)) hs 0 (skipn 1 state0))
      as [Hx Ht]. fold o in Hx, Ht.
    split; [rewrite HL, (HT Hlen); symmetry; exact Hlen |].
    split; [rewrite HL, length_map; exact Hb |].
    split; [rewrite HX0; exact Hx |].
    rewrite (HT0 Hlen). apply Ht.
  - destruct (main_Propagate_record tu af ou si gs state0 args' hs) as [F HF].
    unfold out'. rewrite HF.
    set (r := EarthRadius tu (idx (ECEF2LLH tu (slice 1 4 state0)) 0)
              + DarkFlight_main.h_ground args').
    set (o := Integrator.offered _ F _ hs 0 (skipn 1 state0)).
    destruct (main_backtrack_shape tu (idx state0 0)
                (DarkFlight_main.h_ground args') (map snd o) (map fst o))
      as (HL & HT & HX0 & HT0 & _).
    assert (Hlen : length (map snd o) = length (map fst o))
      by (rewrite !length_map; reflexivity).
    pose proof (offered_length Integrator.dopri5 F
                  (DarkFlight_main.solout r) hs 0 (skipn 1 state0)) as Hb.
    fold o in Hb.
    destruct (nth0_map_offered_snd Integrator.dopri5 F
                (DarkFlight_main.solout r) hs 0 (skipn 1 state0))
      as [Hx Ht]. fold o in Hx, Ht.
    split; [rewrite HL, (HT Hlen); symmetry; exact Hlen |].
    split; [rewrite HL, length_map; exact Hb |].
    split; [rewrite HX0; exact Hx |].
    rewrite (HT0 Hlen). apply Ht.
Qed.

(** ** The mass along the recorded samples *)

Section RKComponent.

Import Integrator.

Variable f : R -> vec -> vec.
Hypothesis f_length : forall t y, length (f t y) = length y.








End RKComponent.

(** The comparison of the stage rates cannot be dropped: the fifth weight of
    the formula is negative, and a rate that is never positive but vanishes
    at every stage except the fifth makes the component grow across the
    step. *)
Lemma dopri5_step_not_monotone :
  let f := fun (t : R) (y : vec) =>
    map (fun _ => if Rlt_b 0.85 t && Rlt_b t 0.95 then - 1 else 0) y in
  (forall t y, idx (f t y) 0 <= 0) /\
  idx (Integrator.rk_step Integrator.dopri5 f 1 0 [1]) 0 = 1 + 2187 / 6784.
Proof.
  intros f. split.
  - intros t y. unfold f. destruct y as [|y0 y]; cbn [map idx nth]; [lra |].
    destruct (Rlt_b 0.85 t && Rlt_b t 0.95); lra.
  - assert (Hout : forall t y, ~ (0.85 < t < 0.95) -> f t [y] = [0]).
    { intros t y Ht. unfold f. cbn [map].
      destruct (Rlt_b_spec 0.85 t); destruct (Rlt_b_spec t 0.95);
        cbn [andb]; try reflexivity.
      exfalso. apply Ht. split; assumption. }
    assert (Hin : forall t y, 0.85 < t < 0.95 -> f t [y] = [- 1]).
    { intros t y [Ht1 Ht2]. unfold f. cbn [map].
      rewrite (Rlt_b_true _ _ Ht1), (Rlt_b_true _ _ Ht2). reflexivity. }
    unfold Integrator.rk_step.
    cbn [Integrator.rk_rows Integrator.rk_b Integrator.dopri5
         Integrator.rk_stages Integrator.lincomb length app zeros repeat
         vadd vscale zip_with map].
    rewrite (Hout (0 + 0 * 1)) by lra.
    cbn [Integrator.lincomb length app zeros repeat vadd vscale zip_with map].
    rewrite (Hout (0 + 1 / 5 * 1)) by lra.
    cbn [Integrator.lincomb length app zeros repeat vadd vscale zip_with map].
    rewrite (Hout (0 + 3 / 10 * 1)) by lra.
    cbn [Integrator.lincomb length app zeros repeat vadd vscale zip_with map].
    rewrite (Hout (0 + 4 / 5 * 1)) by lra.
    cbn [Integrator.lincomb length app zeros repeat vadd vscale zip_with map].
    rewrite (Hin (0 + 8 / 9 * 1)) by lra.
    cbn [Integrator.lincomb length app zeros repeat vadd vscale zip_with map].
    rewrite (Hout (0 + 1 * 1)) by lra.
    cbn [Integrator.lincomb length app zeros repeat vadd vscale zip_with map
         idx nth].
    lra.
Qed.



(** ** The order of the emitted times *)

Lemma StronglySorted_lt_le (l : list R) :
  StronglySorted Rlt l -> StronglySorted Rle l.
Proof.
  intros H. induction H as [|a l Hl IH Ha]; constructor.
  - exact IH.
  - eapply Forall_impl; [| exact Ha]. intros x Hx. lra.
Qed.

Lemma StronglySorted_map_monotone (g : R -> R) (l : list R) :
  (forall x y, x <= y -> g x <= g y) ->
  StronglySorted Rle l -> StronglySorted Rle (map g l).
Proof.
  intros Hg H. induction H as [|a l Hl IH Ha]; cbn [map]; constructor.
  - exact IH.
  - rewrite Forall_map. eapply Forall_impl; [| exact Ha].
    intros x Hx. apply Hg. exact Hx.
Qed.

Lemma StronglySorted_removelast (l : list R) :
  StronglySorted Rle l -> StronglySorted Rle (removelast l).
Proof.
  intros H. induction H as [|a l Hl IH Ha]; [constructor |].
  destruct l as [|b l]; [constructor |].
  change (StronglySorted Rle (a :: removelast (b :: l))).
  constructor; [exact IH |]. apply Forall_removelast. exact Ha.
Qed.

Lemma StronglySorted_snoc (l : list R) (x : R) :
  StronglySorted Rle l -> Forall (fun y => y <= x) l ->
  StronglySorted Rle (l ++ [x]).
Proof.
  intros H. induction H as [|a l Hl IH Ha]; intros Hx; cbn [app].
  - constructor; constructor.
  - inversion Hx as [|? ? Hax Hlx]; subst.
    constructor; [apply IH; exact Hlx |].
    apply Forall_app. split; [exact Ha | constructor; [exact Hax | constructor]].
Qed.

Lemma StronglySorted_last_two (l : list R) (a b : R) :
  StronglySorted Rle (l ++ [a; b]) ->
  StronglySorted Rle (l ++ [a]) /\ a <= b /\ Forall (fun y => y <= a) (l ++ [a]).
Proof.
  induction l as [|x l IH]; cbn [app]; intros H.
  - inversion H as [|? ? Hs Hf]; subst. inversion Hf; subst.
    split; [constructor; constructor |]. split; [assumption |].
    constructor; [lra | constructor].
  - inversion H as [|? ? Hs Hf]; subst.
    destruct (IH Hs) as (H1 & H2 & H3).
    apply Forall_app in Hf. destruct Hf as [Hfl Hfab].
    inversion Hfab; subst.
    split; [| split; [exact H2 |]].
    + constructor; [exact H1 |].
      apply Forall_app. split; [exact Hfl | constructor; [assumption | constructor]].
    + constructor; [lra | exact H3].
Qed.

Lemma decompose_two {A B : Type} (u : list A) (v : list B) :
  length u = length v -> (1 < length u)%nat ->
  exists u' a b v' c d,
    u = u' ++ [a; b] /\ v = v' ++ [c; d] /\ length u' = length v'.
Proof.
  intros Hl Hu.
  assert (Hu' : u <> []) by (intros ->; cbn in Hu; lia).
  assert (Hv' : v <> []) by (intros ->; cbn in Hl; rewrite Hl in Hu; cbn in Hu; lia).
  destruct (exists_last Hu') as (u1 & b & ->).
  destruct (exists_last Hv') as (v1 & d & ->).
  rewrite !length_app in *. cbn [length] in *.
  assert (Hu1 : u1 <> []) by (intros ->; cbn in Hu; lia).
  assert (Hv1 : v1 <> []) by (intros ->; cbn in Hl, Hu; lia).
  destruct (exists_last Hu1) as (u2 & a & ->).
  destruct (exists_last Hv1) as (v2 & c & ->).
  rewrite !length_app in *. cbn [length] in *.
  exists u2, a, b, v2, c, d.
  rewrite <- !app_assoc. cbn [app]. repeat split; lia.
Qed.

(** X2: when every accepted step is positive, the times, in seconds after
    t0, that the observer of either script records during the integration
    are strictly increasing, whatever the right-hand side.  The Julian dates
    that Propagate makes of them, T_rel / 86400 + t0, are stated to be in
    order only (each one at least its predecessor): up to the last but one in
    either script, and for the whole list in DarkFlight_main.py, whose
    dictionary carries the fraction of the backtrack, when that fraction is
    not negative. *)
Theorem emitted_times_ordered (tu : trajectory_utilities)
    (af : atm_functions) (ou : orbital_utilities) (si : scipy_interpolate)
    (gs : grid_sampler) (elevation_data : srtm_data) (state0 : vec)
    (args : DFN_DarkFlight.Args) (rng : RNG) (hs : list R)
    (args' : DarkFlight_main.Args) (F : R -> vec -> vec) (X : vec)
    (t0 r_end : R) (hg : DFN_DarkFlight.ground_arg) :
  Forall (fun h => 0 < h) hs ->
  let out := DFN_DarkFlight.Propagate tu af ou si gs elevation_data
               state0 args rng hs in
  let out' := DarkFlight_main.Propagate tu af ou si gs state0 args' hs in
  StronglySorted Rlt
    (snd (Integrator.integrate Integrator.dopri5 F
            (DFN_DarkFlight.solout tu elevation_data t0 hg) hs 0 X ([], []))) /\
  StronglySorted Rlt
    (snd (Integrator.integrate Integrator.dopri5 F
            (DarkFlight_main.solout r_end) hs 0 X ([], []))) /\
  StronglySorted Rle (removelast (DFN_DarkFlight.time_jd out)) /\
  StronglySorted Rle (removelast (DarkFlight_main.time_jd out')) /\
  (0 <= DarkFlight_main.fraction out' ->
   StronglySorted Rle (DarkFlight_main.time_jd out')).
Proof.
  intros Hpos out out'.
  assert (Hjd : forall t0 x y, x <= y ->
                  x / (24 * 60 * 60) + t0 <= y / (24 * 60 * 60) + t0)
    by (intros; lra).
  split; [| split; [| split; [| split]]].
  - rewrite (integrate_offered _ _ _ (DFN_solout_appends tu elevation_data _ _)).
    cbn [snd app]. apply offered_times_sorted. exact Hpos.
  - rewrite (integrate_offered _ _ _ (main_solout_appends _)).
    cbn [snd app]. apply offered_times_sorted. exact Hpos.
  - destruct (DFN_Propagate_record tu af ou si gs elevation_data state0 args
                rng hs) as [F' HF].
    unfold out. rewrite HF.
    set (o := Integrator.offered _ F' _ hs 0 (skipn 1 state0)).
    destruct (DFN_backtrack_shape tu elevation_data (idx state0 0)
                (DFN_DarkFlight.h_ground args) (map snd o) (map fst o))
      as (_ & _ & _ & _ & _ & HR).
    rewrite HR. apply StronglySorted_removelast.
    apply StronglySorted_map_monotone; [apply Hjd |].
    apply StronglySorted_lt_le, offered_times_sorted. exact Hpos.
  - destruct (main_Propagate_record tu af ou si gs state0 args' hs) as [F' HF].
    unfold out'. rewrite HF.
    set (o := Integrator.offered _ F' _ hs 0 (skipn 1 state0)).
    destruct (main_backtrack_shape tu (idx state0 0)
                (DarkFlight_main.h_ground args') (map snd o) (map fst o))
      as (_ & _ & _ & _ & _ & HR).
    rewrite HR. apply StronglySorted_removelast.
    apply StronglySorted_map_monotone; [apply Hjd |].
    apply StronglySorted_lt_le, offered_times_sorted. exact Hpos.
  - destruct (main_Propagate_record tu af ou si gs state0 args' hs) as [F' HF].
    unfold out'. rewrite HF.
    set (r := EarthRadius tu (idx (ECEF2LLH tu (slice 1 4 state0)) 0)
              + DarkFlight_main.h_ground args').
    set (o := Integrator.offered _ F' _ hs 0 (skipn 1 state0)).
    assert (Hs : StronglySorted Rle (map fst o))
      by (apply StronglySorted_lt_le, offered_times_sorted; exact Hpos).
    assert (Hlen : length (map snd o) = length (map fst o))
      by (rewrite !length_map; reflexivity).
    destruct (Nat.lt_ge_cases 1 (length (map snd o))) as [H2 | H1].
    + destruct (decompose_two (map snd o) (map fst o) Hlen H2)
        as (St & Xp & Xl & T & tp & tl & HeS & HeT & HL).
      rewrite HeS, HeT in *.
      rewrite (main_backtrack_two tu (idx state0 0) St T Xp Xl tp tl _ HL).
      cbv zeta. cbn [DarkFlight_main.fraction DarkFlight_main.time_jd].
      intros Hf.
      apply (StronglySorted_map_monotone
               (fun t => t / (24 * 60 * 60) + idx state0 0)) in Hs;
        [| apply Hjd].
      rewrite map_app in Hs. cbn [map] in Hs.
      apply StronglySorted_last_two in Hs. destruct Hs as (Hs1 & Hab & Hle).
      rewrite <- snoc_two.
      apply StronglySorted_snoc; [exact Hs1 |].
      eapply Forall_impl; [| exact Hle].
      intros y Hy. cbn beta in Hy.
      assert (0 <= (norm (slice 0 3 Xp)
                    - DarkFlight_main.final_r_end tu
                        (DarkFlight_main.h_ground args') (St ++ [Xp; Xl]))
                   / (norm (slice 0 3 Xp) - norm (slice 0 3 Xl))
                   * (tl / (24 * 60 * 60) + idx state0 0
                      - (tp / (24 * 60 * 60) + idx state0 0))).
      { apply Rmult_le_pos; [exact Hf | lra]. }
      lra.
    + intros _. unfold DarkFlight_main.backtrack.
      destruct (Nat.ltb_spec 1 (length (map snd o))) as [Hc | _]; [lia |].
      cbn [DarkFlight_main.time_jd].
      apply StronglySorted_map_monotone; [apply Hjd | exact Hs].
Qed.

Lemma emitted_times_ordered_witness :
  StronglySorted Rlt
    (snd (Integrator.integrate Integrator.dopri5
            (fun _ X => map (fun _ => 0) X)
            (DarkFlight_main.solout 6371000) [0.1; 0.2] 0
            (skipn 1 Inputs.inert_state0) ([], []))) /\
  StronglySorted Rle
    (removelast
       (DFN_DarkFlight.time_jd
          (DFN_DarkFlight.Propagate Sphere.tu Sphere.af Sphere.ou Sphere.si
             Sphere.gs Sphere.elevation_data Inputs.inert_state0
             Scenarios.dfn_args (fun _ => 0) [0.1; 0.2]))).
Proof.
  assert (Hpos : Forall (fun h => 0 < h) [0.1; 0.2]).
  { constructor; [lra |]. constructor; [lra | constructor]. }
  destruct (emitted_times_ordered Sphere.tu Sphere.af Sphere.ou
              Sphere.si Sphere.gs Sphere.elevation_data
              Inputs.inert_state0 Scenarios.dfn_args (fun _ => 0)
              [0.1; 0.2] Scenarios.main_args
              (fun _ X => map (fun _ => 0) X) (skipn 1 Inputs.inert_state0)
              0 6371000 (DFN_DarkFlight.h_ground Scenarios.dfn_args) Hpos)
    as (_ & H2 & H3 & _).
  split; [exact H2 | exact H3].
Defined.

(** ** Why the integration stops *)

Lemma last_map {A B : Type} (g : A -> B) (l : list A) (d : A) :
  last (map g l) (g d) = g (last l d).
Proof.
  induction l as [|x l IH]; [reflexivity |].
  destruct l as [|y l]; [reflexivity |].
  change (last (map g (y :: l)) (g d) = g (last (y :: l) d)). exact IH.
Qed.

Lemma last_map_nonempty {A B : Type} (g : A -> B) (l : list A) (d : A)
    (d' : B) :
  l <> [] -> last (map g l) d' = g (last l d).
Proof.
  intros Hl. destruct l as [|x l]; [contradiction Hl; reflexivity |].
  cbn [map]. rewrite (last_cons_indep (g x) (map g l) d' (g d)).
  apply (last_map g (x :: l) d).
Qed.

Lemma offered_nonempty (tab : Integrator.tableau) (f : R -> vec -> vec)
    (solout : R -> vec -> Recorded -> Z * Recorded) (hs : list R) (t : R)
    (y : vec) :
  Integrator.offered tab f solout hs t y <> [].
Proof.
  destruct (offered_head tab f solout hs t y) as [rest H]. rewrite H.
  discriminate.
Qed.

(** X3: when the integrator records fewer samples than the accepted steps
    allow, the observer ended the integration, and the last recorded sample
    is below its terminal radius or below the 1 g threshold, in either
    script. *)
Theorem integration_stop_cause (tu : trajectory_utilities)
    (elevation_data : srtm_data) (F : R -> vec -> vec) (t0 : R)
    (hg : DFN_DarkFlight.ground_arg) (r_end : R) (hs : list R) (X : vec) :
  let rec :=
    Integrator.integrate Integrator.dopri5 F
      (DFN_DarkFlight.solout tu elevation_data t0 hg) hs 0 X ([], []) in
  let rec' :=
    Integrator.integrate Integrator.dopri5 F
      (DarkFlight_main.solout r_end) hs 0 X ([], []) in
  ((length (fst rec) < S (length hs))%nat ->
   let X_l := last (fst rec) X in
   let t_l := last (snd rec) 0 in
   norm (slice 0 3 X_l)
   < DFN_DarkFlight.final_r_end tu elevation_data hg
       [X_l] [t0 + t_l / (24 * 60 * 60)]
   \/ idx X_l 6 < 1e-3) /\
  ((length (fst rec') < S (length hs))%nat ->
   let X_l := last (fst rec') X in
   norm (slice 0 3 X_l) < r_end \/ idx X_l 6 < 1e-3).
Proof.
  intros rec rec'. split.
  - unfold rec.
    rewrite (integrate_offered _ _ _ (DFN_solout_appends tu elevation_data _ _)).
    cbn [fst snd app]. rewrite length_map. intros Hlen.
    pose proof (offered_last_stops Integrator.dopri5 F _ hs 0 X Hlen) as Hstop.
    pose proof (offered_nonempty Integrator.dopri5 F
                  (DFN_DarkFlight.solout tu elevation_data t0 hg) hs 0 X)
      as Hne.
    rewrite (last_map_nonempty snd _ (0, X) X Hne).
    rewrite (last_map_nonempty fst _ (0, X) 0 Hne).
    set (s := last (Integrator.offered Integrator.dopri5 F
                      (DFN_DarkFlight.solout tu elevation_data t0 hg) hs 0 X)
                   (0, X)) in *.
    unfold DFN_DarkFlight.solout in Hstop.
    unfold DFN_DarkFlight.final_r_end. cbn [last].
    destruct (Rlt_b_spec (norm (slice 0 3 (snd s)))
                (EarthRadius tu
                   (idx (ECEF2LLH tu
                           (ECI2ECEF_pos tu (slice 0 3 (snd s))
                              (t0 + fst s / (24 * 60 * 60)))) 0)
                 + DFN_DarkFlight.ground_height elevation_data hg
                     (idx (ECEF2LLH tu
                             (ECI2ECEF_pos tu (slice 0 3 (snd s))
                                (t0 + fst s / (24 * 60 * 60)))) 0)
                     (idx (ECEF2LLH tu
                             (ECI2ECEF_pos tu (slice 0 3 (snd s))
                                (t0 + fst s / (24 * 60 * 60)))) 1)))
      as [Hg | Hg]; [left; exact Hg |].
    destruct (Rlt_b_spec (idx (snd s) 6) 1e-3) as [Hm | Hm];
      [right; exact Hm | discriminate Hstop].
  - unfold rec'.
    rewrite (integrate_offered _ _ _ (main_solout_appends _)).
    cbn [fst snd app]. rewrite length_map. intros Hlen.
    pose proof (offered_last_stops Integrator.dopri5 F _ hs 0 X Hlen) as Hstop.
    pose proof (offered_nonempty Integrator.dopri5 F
                  (DarkFlight_main.solout r_end) hs 0 X) as Hne.
    rewrite (last_map_nonempty snd _ (0, X) X Hne).
    set (s := last (Integrator.offered Integrator.dopri5 F
                      (DarkFlight_main.solout r_end) hs 0 X) (0, X)) in *.
    unfold DarkFlight_main.solout in Hstop.
    destruct (Rlt_b_spec (norm (slice 0 3 (snd s))) r_end) as [Hg | Hg];
      [left; exact Hg |].
    destruct (Rlt_b_spec (idx (snd s) 6) 1e-3) as [Hm | Hm];
      [right; exact Hm |].
    destruct (Rlt_b_spec (idx (snd s) 6) 0) as [Hz | Hz];
      [right; lra | discriminate Hstop].
Qed.

Lemma integration_stop_cause_witness :
  let X := skipn 1 Scenarios.buried_state0 in
  let rec' :=
    Integrator.integrate Integrator.dopri5
      (fun t X =>
         DarkFlight_main.EarthDynamics Sphere.tu Sphere.af Sphere.ou
           Sphere.si Sphere.gs t X (Table1D Sphere.sounding) 2459000 0)
      (DarkFlight_main.solout Sphere.R0) [0.1] 0 X ([], []) in
  norm (slice 0 3 (last (fst rec') X)) < Sphere.R0
  \/ idx (last (fst rec') X) 6 < 1e-3.
Proof.
  intros X rec'.
  assert (Hn : norm (slice 0 3 X) < Sphere.R0).
  { apply norm_gt; unfold Sphere.R0; [lra |].
    cbn [X Scenarios.buried_state0 skipn slice Nat.sub firstn sum_sq
         fold_right].
    lra. }
  assert (Hlen : (length (fst rec') < 2)%nat).
  { unfold rec'. rewrite (integrate_offered _ _ _ (main_solout_appends _)).
    rewrite offered_stop; [cbn; lia |].
    unfold DarkFlight_main.solout. rewrite Rlt_b_true by exact Hn.
    reflexivity. }
  exact (proj2 (integration_stop_cause Sphere.tu Sphere.elevation_data _
                  2459000 (DFN_DarkFlight.ground_const 0) Sphere.R0 [0.1] X)
               Hlen).
Defined.

(** ** Above the ground until the last sample *)

(** X4: every sample Propagate emits, the last one apart, lies at or above
    its terminal radius: in DFN_DarkFlight.py the Earth radius plus ground
    height at the sample's own latitude, longitude and time, in
    DarkFlight_main.py the radius fixed at the initial position. *)
Theorem samples_above_ground (tu : trajectory_utilities)
    (af : atm_functions) (ou : orbital_utilities) (si : scipy_interpolate)
    (gs : grid_sampler) (elevation_data : srtm_data) (state0 : vec)
    (args : DFN_DarkFlight.Args) (rng : RNG) (hs : list R)
    (args' : DarkFlight_main.Args) :
  let out := DFN_DarkFlight.Propagate tu af ou si gs elevation_data
               state0 args rng hs in
  let out' := DarkFlight_main.Propagate tu af ou si gs state0 args' hs in
  Forall (fun s =>
            DFN_DarkFlight.final_r_end tu elevation_data
              (DFN_DarkFlight.h_ground args) [snd s] [fst s]
            <= norm (slice 0 3 (snd s)))
         (removelast (combine (DFN_DarkFlight.time_jd out)
                              (DFN_DarkFlight.X_all out))) /\
  Forall (fun X =>
            EarthRadius tu (idx (ECEF2LLH tu (slice 1 4 state0)) 0)
            + DarkFlight_main.h_ground args'
            <= norm (slice 0 3 X))
         (removelast (DarkFlight_main.X_all out')).
Proof.
  intros out out'. split.
  - destruct (DFN_Propagate_record tu af ou si gs elevation_data state0 args
                rng hs) as [F HF].
    unfold out. rewrite HF.
    set (o := Integrator.offered _ F _ hs 0 (skipn 1 state0)).
    assert (Hlo : length (map snd o) = length (map fst o))
      by (rewrite !length_map; reflexivity).
    destruct (DFN_backtrack_shape tu elevation_data (idx state0 0)
                (DFN_DarkFlight.h_ground args) (map snd o) (map fst o))
      as (HLX & HLT & _ & _ & HRX & HRT).
    rewrite removelast_combine by (rewrite HLX, (HLT Hlo); symmetry; exact Hlo).
    rewrite HRX, HRT, !removelast_map.
    pose proof (offered_continue Integrator.dopri5 F
                  (DFN_DarkFlight.solout tu elevation_data (idx state0 0)
                     (DFN_DarkFlight.h_ground args)) hs 0 (skipn 1 state0))
      as Hc.
    fold o in Hc.
    induction Hc as [|[t X] l Hs _ IH]; cbn [map combine fst snd];
      constructor; [| exact IH].
    cbn [fst snd] in *.
    unfold DFN_DarkFlight.solout in Hs.
    unfold DFN_DarkFlight.final_r_end. cbn [last].
    replace (t / (24 * 60 * 60) + idx state0 0)
      with (idx state0 0 + t / (24 * 60 * 60)) by lra.
    destruct (Rlt_b_spec (norm (slice 0 3 X))
                (EarthRadius tu
                   (idx (ECEF2LLH tu
                           (ECI2ECEF_pos tu (slice 0 3 X)
                              (idx state0 0 + t / (24 * 60 * 60)))) 0)
                 + DFN_DarkFlight.ground_height elevation_data
                     (DFN_DarkFlight.h_ground args)
                     (idx (ECEF2LLH tu
                             (ECI2ECEF_pos tu (slice 0 3 X)
                                (idx state0 0 + t / (24 * 60 * 60)))) 0)
                     (idx (ECEF2LLH tu
                             (ECI2ECEF_pos tu (slice 0 3 X)
                                (idx state0 0 + t / (24 * 60 * 60)))) 1)))
      as [Hg | Hg]; [contradiction Hs; reflexivity | lra].
  - destruct (main_Propagate_record tu af ou si gs state0 args' hs) as [F HF].
    unfold out'. rewrite HF.
    set (r := EarthRadius tu (idx (ECEF2LLH tu (slice 1 4 state0)) 0)
              + DarkFlight_main.h_ground args').
    set (o := Integrator.offered _ F _ hs 0 (skipn 1 state0)).
    destruct (main_backtrack_shape tu (idx state0 0)
                (DarkFlight_main.h_ground args') (map snd o) (map fst o))
      as (_ & _ & _ & _ & HRX & _).
    rewrite HRX, removelast_map, Forall_map.
    eapply Forall_impl;
      [| apply (offered_continue Integrator.dopri5 F
                  (DarkFlight_main.solout r) hs 0 (skipn 1 state0))].
    intros [t X] Hs. cbn [fst snd] in *.
    unfold DarkFlight_main.solout in Hs.
    destruct (Rlt_b_spec (norm (slice 0 3 X)) r) as [Hg | Hg];
      [contradiction Hs; reflexivity | lra].
Qed.

(** ** Idle ranks and the scatter *)

(** X5: with W >= 1 ranks, rank r is given no particle exactly when
    r >= N, and exactly then it terminates before the scatter; a rank r >= 1
    that is given particles stops with a NameError after the scatter, so that
    only rank 0 hands rows to the gather; the blocks never grow with the rank
    and differ by at most one particle. *)
Theorem idle_ranks (N W r r' : nat) :
  (1 <= W)%nat -> (r <= r')%nat -> (r' < W)%nat ->
  (nth r (Runner.partition N W) 0%nat = 0%nat <-> (N <= r)%nat) /\
  (Runner.rank_main (Runner.partition N W) r = Runner.Terminated
   <-> (N <= r)%nat) /\
  (Runner.rank_main (Runner.partition N W) r = Runner.Raises
   <-> (1 <= r < N)%nat) /\
  (Runner.rows_of (Runner.rank_main (Runner.partition N W) r) <> 0%nat ->
   r = 0%nat) /\
  (nth r' (Runner.partition N W) 0 <= nth r (Runner.partition N W) 0
   <= S (nth r' (Runner.partition N W) 0))%nat.
Proof.
  intros HW Hrr Hr'.
  assert (Hr : (r < W)%nat) by lia.
  assert (Hub : (N mod W < W)%nat) by (apply Nat.mod_upper_bound; lia).
  pose proof (Nat.div_mod_eq N W) as Hdm.
  assert (Hzero : nth r (Runner.partition N W) 0%nat = 0%nat <-> (N <= r)%nat).
  { rewrite partition_nth by assumption.
    destruct (Nat.ltb_spec r (N mod W)) as [Hlt | Hge].
    - split; [lia |]. intros HN.
      assert (N mod W <= N)%nat by (apply Nat.Div0.mod_le). lia.
    - split.
      + intros H0. assert (Hq : (N / W = 0)%nat) by lia.
        rewrite Hq in Hdm. lia.
      + intros HN. assert (Hq : (N / W = 0)%nat)
          by (apply Nat.div_small; lia).
        lia. }
  split; [exact Hzero |].
  split; [| split; [| split]].
  - unfold Runner.rank_main.
    destruct (Nat.eqb_spec (nth r (Runner.partition N W) 0%nat) 0) as [He | Hne].
    + split; [intros _; apply Hzero; exact He | reflexivity].
    + split; [destruct (Nat.eqb r 0); discriminate
             | intros HN; apply Hzero in HN; contradiction].
  - unfold Runner.rank_main.
    destruct (Nat.eqb_spec (nth r (Runner.partition N W) 0%nat) 0) as [He | Hne].
    + split; [discriminate | intros HN; apply Hzero in He; lia].
    + assert (HN : (r < N)%nat)
        by (destruct (Nat.lt_ge_cases r N) as [Hlt | Hge];
            [exact Hlt | apply Hzero in Hge; contradiction]).
      destruct (Nat.eqb_spec r 0) as [H0 | Hn0].
      * split; [discriminate | lia].
      * split; [intros _; lia | reflexivity].
  - unfold Runner.rank_main.
    destruct (Nat.eqb (nth r (Runner.partition N W) 0%nat) 0);
      [intros H; contradiction H; reflexivity |].
    destruct (Nat.eqb_spec r 0) as [H0 | Hn0];
      [intros _; exact H0 | intros H; contradiction H; reflexivity].
  - rewrite !partition_nth by assumption.
    destruct (Nat.ltb_spec r (N mod W)), (Nat.ltb_spec r' (N mod W)); lia.
Qed.

Lemma idle_ranks_witness :
  nth 3 (Runner.partition 3 5) 0%nat = 0%nat /\
  Runner.rank_main (Runner.partition 3 5) 3 = Runner.Terminated /\
  Runner.rank_main (Runner.partition 3 5) 2 = Runner.Raises /\
  Runner.rows_of (Runner.rank_main (Runner.partition 3 5) 2) = 0%nat.
Proof.
  destruct (idle_ranks 3 5 3 4 ltac:(lia) ltac:(lia) ltac:(lia))
    as (H1 & H2 & _).
  destruct (idle_ranks 3 5 2 4 ltac:(lia) ltac:(lia) ltac:(lia))
    as (_ & _ & H3 & _).
  split; [apply H1; lia |]. split; [apply H2; lia |].
  assert (HR : Runner.rank_main (Runner.partition 3 5) 2 = Runner.Raises)
    by (apply H3; lia).
  split; [exact HR | rewrite HR; reflexivity].
Defined.

Lemma cumsum_from_nth (acc : nat) (l : list nat) (r : nat) :
  (r < length l)%nat ->
  nth r (Scatter.cumsum_from acc l) 0%nat
  = (acc + list_sum (firstn (S r) l))%nat.
Proof.
  revert acc r. induction l as [|x l IH]; intros acc r Hr;
    cbn [length] in Hr; [lia |].
  destruct r as [|r].
  - cbn. destruct l; cbn; lia.
  - cbn [Scatter.cumsum_from nth]. rewrite IH by lia.
    change (firstn (S (S r)) (x :: l)) with (x :: firstn (S r) l).
    change (list_sum (x :: firstn (S r) l))
      with (x + list_sum (firstn (S r) l))%nat.
    lia.
Qed.

Lemma length_cumsum_from (acc : nat) (l : list nat) :
  length (Scatter.cumsum_from acc l) = length l.
Proof.
  revert acc. induction l as [|x l IH]; intros acc; cbn; [reflexivity |].
  rewrite IH. reflexivity.
Qed.

Lemma nth_removelast {A : Type} (l : list A) (k : nat) (d : A) :
  (S k < length l)%nat -> nth k (removelast l) d = nth k l d.
Proof.
  intros H. rewrite removelast_firstn_len, nth_firstn.
  destruct (Nat.ltb_spec k (pred (length l))); [reflexivity | lia].
Qed.

Lemma list_sum_map_mul (s : nat) (l : list nat) :
  list_sum (map (Nat.mul s) l) = (s * list_sum l)%nat.
Proof.
  induction l as [|x l IH]; [cbn; lia |].
  change (list_sum (map (Nat.mul s) (x :: l)))
    with (s * x + list_sum (map (Nat.mul s) l))%nat.
  change (list_sum (x :: l)) with (x + list_sum l)%nat.
  rewrite IH. lia.
Qed.

Lemma displacements_nth (s : nat) (n : list nat) (r : nat) :
  (r < length n)%nat ->
  nth r (Scatter.displacements (Scatter.sendcounts s n)) 0%nat
  = (s * list_sum (firstn r n))%nat.
Proof.
  intros Hr. unfold Scatter.displacements, Scatter.cumsum, Scatter.sendcounts.
  destruct r as [|r]; [cbn; lia |].
  cbn [nth].
  rewrite nth_removelast by (rewrite length_cumsum_from, length_map; lia).
  rewrite cumsum_from_nth by (rewrite length_map; lia).
  rewrite firstn_map, list_sum_map_mul. lia.
Qed.

(** X6: the blocks of the scatter tile [DATA0]: there is one displacement per
    rank, the block of rank r starts after the particles of the ranks before
    it ([states0] numbers each), every block ends where the next one starts,
    and the last block ends at [N * states0]. *)
Theorem scatter_blocks_tile (N W states0 r : nat) :
  (1 <= W)%nat -> (r < W)%nat ->
  let n := Runner.partition N W in
  let sc := Scatter.sendcounts states0 n in
  let d := Scatter.displacements sc in
  length d = W /\
  nth r d 0%nat = (states0 * list_sum (firstn r n))%nat /\
  ((S r < W)%nat -> nth (S r) d 0%nat = (nth r d 0 + nth r sc 0)%nat) /\
  (S r = W -> (nth r d 0 + nth r sc 0 = states0 * N)%nat).
Proof.
  intros HW Hr n sc d.
  assert (Hn : length n = W) by apply partition_length.
  assert (Hsc : nth r sc 0%nat = (states0 * nth r n 0)%nat).
  { unfold sc, Scatter.sendcounts.
    rewrite nth_indep with (d' := (states0 * 0)%nat)
      by (rewrite length_map; lia).
    apply (map_nth (Nat.mul states0)). }
  assert (Hstep : list_sum (firstn (S r) n)
                  = (list_sum (firstn r n) + nth r n 0)%nat).
  { clear Hsc. revert r Hr. rewrite <- Hn. generalize n.
    induction n0 as [|x l IH]; intros r Hr; cbn [length] in Hr; [lia |].
    destruct r as [|r]; [cbn; lia |].
    change (firstn (S (S r)) (x :: l)) with (x :: firstn (S r) l).
    change (firstn (S r) (x :: l)) with (x :: firstn r l).
    change (list_sum (x :: firstn (S r) l)) with (x + list_sum (firstn (S r) l))%nat.
    change (list_sum (x :: firstn r l)) with (x + list_sum (firstn r l))%nat.
    cbn [nth]. rewrite IH by lia. lia. }
  split; [| split; [| split]].
  - unfold d, Scatter.displacements. cbn [length].
    rewrite length_removelast. unfold Scatter.cumsum.
    rewrite length_cumsum_from. unfold sc, Scatter.sendcounts.
    rewrite length_map. lia.
  - unfold d, sc. apply displacements_nth. lia.
  - intros HS. unfold d. unfold sc at 1 2.
    rewrite !displacements_nth by lia. rewrite Hsc, Hstep. lia.
  - intros HS. unfold d. unfold sc at 1.
    rewrite displacements_nth by lia. rewrite Hsc.
    assert (Hall : list_sum (firstn (S r) n) = N).
    { rewrite firstn_all2 by lia. apply partition_sum. exact HW. }
    rewrite <- Hall, Hstep. lia.
Qed.

Lemma scatter_blocks_tile_witness :
  Scatter.displacements (Scatter.sendcounts 12 (Runner.partition 7 3))
  = [0; 36; 60]%nat /\
  nth 2 (Scatter.displacements
           (Scatter.sendcounts 12 (Runner.partition 7 3))) 0%nat
  = (12 * list_sum (firstn 2 (Runner.partition 7 3)))%nat.
Proof.
  split; [reflexivity |].
  exact (proj1 (proj2 (scatter_blocks_tile 7 3 12 2 ltac:(lia) ltac:(lia)))).
Defined.

(** ** The density of moist air *)

Lemma density_from_pressure_eq (T P RH : R) :
  df_functions.density_from_pressure T P RH
  = (P / (287.05 * T)) * (1 - (0.378 * (6.1078 / wobus T ^ 8 * RH) / P)).
Proof. reflexivity. Qed.

Lemma wobus_pow8_pos (T : R) : wobus T <> 0 -> 0 < wobus T ^ 8.
Proof.
  intros H. replace (wobus T ^ 8) with (Rsqr (wobus T ^ 4))
    by (unfold Rsqr; ring).
  apply Rsqr_pos_lt. apply pow_nonzero. exact H.
Qed.

(** X7: for dry air (relative humidity 0) at positive temperature and
    pressure, density_from_pressure is the ideal-gas density
    P / (287.05 T). *)
Theorem dry_air_density (T P : R) :
  0 < T -> 0 < P -> wobus T <> 0 ->
  df_functions.density_from_pressure T P 0 = P / (287.05 * T).
Proof.
  intros HT HP Hw. rewrite density_from_pressure_eq.
  pose proof (wobus_pow8_pos T Hw) as Hp. field. repeat split; lra.
Qed.

(** X8: at positive temperature and pressure the density falls as the
    relative humidity rises: moist air is never denser than drier air. *)
Theorem humid_air_is_lighter (T P RH RH' : R) :
  0 < T -> 0 < P -> wobus T <> 0 -> RH <= RH' ->
  df_functions.density_from_pressure T P RH'
  <= df_functions.density_from_pressure T P RH.
Proof.
  intros HT HP Hw Hle. rewrite !density_from_pressure_eq.
  pose proof (wobus_pow8_pos T Hw) as Hp.
  assert (Hsat : 0 < 6.1078 / wobus T ^ 8).
  { apply Rdiv_lt_0_compat; [lra | exact Hp]. }
  set (sat := 6.1078 / wobus T ^ 8) in *.
  assert (Hk : 0 < P / (287.05 * T)).
  { apply Rdiv_lt_0_compat; [exact HP | lra]. }
  apply Rmult_le_compat_l; [lra |].
  assert (Hm : 0.378 * (sat * RH) / P <= 0.378 * (sat * RH') / P).
  { unfold Rdiv. apply Rmult_le_compat_r.
    - left. apply Rinv_0_lt_compat. exact HP.
    - apply Rmult_le_compat_l; [lra |].
      apply Rmult_le_compat_l; [lra | exact Hle]. }
  lra.
Qed.

Lemma wobus_at_1 : wobus 1 <> 0.
Proof. unfold wobus. lra. Qed.

Lemma dry_air_density_witness :
  df_functions.density_from_pressure 1 101325 0 = 101325 / (287.05 * 1).
Proof.
  apply dry_air_density; [lra | lra | exact wobus_at_1].
Defined.

Lemma humid_air_is_lighter_witness :
  df_functions.density_from_pressure 1 101325 1
  <= df_functions.density_from_pressure 1 101325 0.
Proof.
  apply humid_air_is_lighter; [lra | lra | exact wobus_at_1 | lra].
Defined.

(** ** Outside the height range of the sounding *)

Lemma argmax_from_spec (l : list R) (i best : nat) (bv : R) :
  let k := argmax_from l i best bv in
  (k = best /\ fold_left Rmax l bv = bv) \/
  ((i <= k < i + length l)%nat /\ nth (k - i) l 0 = fold_left Rmax l bv).
Proof.
  revert i best bv. induction l as [|x l IH]; intros i best bv;
    cbn [argmax_from fold_left length].
  - left. split; reflexivity.
  - destruct (Rlt_b_spec bv x) as [Hlt | Hge].
    + rewrite (Rmax_right bv x) by lra.
      destruct (IH (S i) i x) as [[Hk Hf] | [Hk Hf]]; right.
      * rewrite Hk, Hf. split; [lia |]. rewrite Nat.sub_diag. reflexivity.
      * split; [lia |]. rewrite <- Hf.
        replace (argmax_from l (S i) i x - i)%nat
          with (S (argmax_from l (S i) i x - S i)) by lia.
        reflexivity.
    + rewrite (Rmax_left bv x) by lra.
      destruct (IH (S i) best bv) as [[Hk Hf] | [Hk Hf]].
      * left. split; assumption.
      * right. split; [lia |]. rewrite <- Hf.
        replace (argmax_from l (S i) best bv - i)%nat
          with (S (argmax_from l (S i) best bv - S i)) by lia.
        reflexivity.
Qed.

Lemma argmin_from_spec (l : list R) (i best : nat) (bv : R) :
  let k := argmin_from l i best bv in
  (k = best /\ fold_left Rmin l bv = bv) \/
  ((i <= k < i + length l)%nat /\ nth (k - i) l 0 = fold_left Rmin l bv).
Proof.
  revert i best bv. induction l as [|x l IH]; intros i best bv;
    cbn [argmin_from fold_left length].
  - left. split; reflexivity.
  - destruct (Rlt_b_spec x bv) as [Hlt | Hge].
    + rewrite (Rmin_right bv x) by lra.
      destruct (IH (S i) i x) as [[Hk Hf] | [Hk Hf]]; right.
      * rewrite Hk, Hf. split; [lia |]. rewrite Nat.sub_diag. reflexivity.
      * split; [lia |]. rewrite <- Hf.
        replace (argmin_from l (S i) i x - i)%nat
          with (S (argmin_from l (S i) i x - S i)) by lia.
        reflexivity.
    + rewrite (Rmin_left bv x) by lra.
      destruct (IH (S i) best bv) as [[Hk Hf] | [Hk Hf]].
      * left. split; assumption.
      * right. split; [lia |]. rewrite <- Hf.
        replace (argmin_from l (S i) best bv - i)%nat
          with (S (argmin_from l (S i) best bv - S i)) by lia.
        reflexivity.
Qed.

Lemma argmax_spec (l : list R) :
  l <> [] -> (argmax l < length l)%nat /\ nth (argmax l) l 0 = max_list l.
Proof.
  intros Hl. destruct l as [|x l]; [contradiction Hl; reflexivity |].
  cbn [argmax max_list length].
  destruct (argmax_from_spec l 1 0 x) as [[Hk Hf] | [Hk Hf]].
  - rewrite Hk, Hf. split; [lia | reflexivity].
  - split; [lia |]. rewrite <- Hf.
    replace (argmax_from l 1 0 x) with (S (argmax_from l 1 0 x - 1)) at 1 by lia.
    reflexivity.
Qed.

Lemma argmin_spec (l : list R) :
  l <> [] -> (argmin l < length l)%nat /\ nth (argmin l) l 0 = min_list l.
Proof.
  intros Hl. destruct l as [|x l]; [contradiction Hl; reflexivity |].
  cbn [argmin min_list length].
  destruct (argmin_from_spec l 1 0 x) as [[Hk Hf] | [Hk Hf]].
  - rewrite Hk, Hf. split; [lia | reflexivity].
  - split; [lia |]. rewrite <- Hf.
    replace (argmin_from l 1 0 x) with (S (argmin_from l 1 0 x - 1)) at 1 by lia.
    reflexivity.
Qed.

Lemma fold_Rmax_ge (l : list R) (x : R) : x <= fold_left Rmax l x.
Proof.
  revert x. induction l as [|y l IH]; intros x; cbn [fold_left]; [lra |].
  eapply Rle_trans; [apply (Rmax_l x y) | apply IH].
Qed.

Lemma fold_Rmin_le (l : list R) (x : R) : fold_left Rmin l x <= x.
Proof.
  revert x. induction l as [|y l IH]; intros x; cbn [fold_left]; [lra |].
  eapply Rle_trans; [apply IH | apply (Rmin_l x y)].
Qed.

Lemma min_le_max_list (l : list R) : min_list l <= max_list l.
Proof.
  destruct l as [|x l]; cbn [min_list max_list]; [lra |].
  eapply Rle_trans; [apply fold_Rmin_le | apply fold_Rmax_ge].
Qed.

(** X9: outside the height range of a non-empty sounding the sampler takes
    the five fields of one layer as they are: above the greatest height the
    layer np.argmax picks, whose height is that greatest height, and below
    the least height the layer np.argmin picks, whose height is the least. *)
Theorem sounding_clamps (si : scipy_interpolate) (W : list Layer) (h : R) :
  W <> [] ->
  let heights := map Height W in
  let top := nth (argmax heights) W no_layer in
  let bottom := nth (argmin heights) W no_layer in
  (Height top = max_list heights /\ Height bottom = min_list heights) /\
  (max_list heights < h ->
   df_functions.sounding_fields si W h
   = (Wind top, WDir top, TempK top, Press top, RHum top)) /\
  (h < min_list heights ->
   df_functions.sounding_fields si W h
   = (Wind bottom, WDir bottom, TempK bottom, Press bottom, RHum bottom)).
Proof.
  intros HW heights top bottom.
  assert (Hh : heights <> []).
  { unfold heights. destruct W; [contradiction HW; reflexivity | discriminate]. }
  destruct (argmax_spec heights Hh) as [Hmax_lt Hmax].
  destruct (argmin_spec heights Hh) as [Hmin_lt Hmin].
  pose proof (min_le_max_list heights) as Hmm.
  split; [split |]; [| | split].
  - rewrite <- Hmax. symmetry.
    apply (nth_map_layer Height W (argmax heights)).
    unfold heights in Hmax_lt. rewrite length_map in Hmax_lt. exact Hmax_lt.
  - rewrite <- Hmin. symmetry.
    apply (nth_map_layer Height W (argmin heights)).
    unfold heights in Hmin_lt. rewrite length_map in Hmin_lt. exact Hmin_lt.
  - intros Habove. unfold df_functions.sounding_fields. fold heights.
    rewrite Rlt_b_true by exact Habove. reflexivity.
  - intros Hbelow. unfold df_functions.sounding_fields. fold heights.
    rewrite Rlt_b_false by lra.
    rewrite (Rle_b_false (min_list heights) h) by lra.
    rewrite andb_false_r. reflexivity.
Qed.

Lemma sounding_clamps_witness :
  df_functions.sounding_fields Sphere.si Sphere.sounding 40000
  = (20, 270, 226, 1200, 0).
Proof.
  assert (HW : Sphere.sounding <> []) by discriminate.
  destruct (sounding_clamps Sphere.si Sphere.sounding 40000 HW)
    as (_ & Htop & _).
  rewrite Htop by (rewrite sounding_top; lra).
  cbn [Sphere.sounding map Height argmax argmax_from].
  rewrite Rlt_b_true by lra. reflexivity.
Defined.

(** ** The wind of the sounding branch *)

Lemma sq_sin_cos (x : R) : sin x * sin x + cos x * cos x = 1.
Proof. pose proof (sin2_cos2 x) as H. unfold Rsqr in H. exact H. Qed.

Lemma cross_perp_right (a b : vec) :
  length b = 3%nat -> dot (cross a b) b = 0.
Proof.
  intros Hb. destruct b as [|b0 [|b1 [|b2 [|? ?]]]]; try discriminate.
  unfold cross, dot, idx. cbn. ring.
Qed.

Lemma cross_perp_left (a b : vec) :
  length a = 3%nat -> dot (cross a b) a = 0.
Proof.
  intros Ha. destruct a as [|a0 [|a1 [|a2 [|? ?]]]]; try discriminate.
  unfold cross, dot, idx. cbn. ring.
Qed.

(** X10: with a non-empty sounding, the wind the sampler returns differs from
    the velocity of the co-rotating air by a vector whose length is the
    absolute value of the wind speed read from the sounding, and which is
    horizontal at the latitude and longitude the sampler works with (it has
    no component along the local vertical). *)
Theorem sounding_wind_is_horizontal (tu : trajectory_utilities)
    (ou : orbital_utilities) (si : scipy_interpolate)
    (W : list Layer) (Pos_ECI : vec) (t_jd : R) :
  W <> [] ->
  let Pos_LLH := df_functions.sounding_Pos_LLH tu Pos_ECI in
  let lat := idx Pos_LLH 0 in
  let lon := idx Pos_LLH 1 in
  let Wind :=
    fst (fst (fst (fst (df_functions.sounding_fields si W (idx Pos_LLH 2))))) in
  let Wind_ECI :=
    fst (fst (df_functions.AtmosphericModel tu ou si W Pos_ECI t_jd)) in
  let rel := vsub Wind_ECI (df_functions.v_rot tu Pos_ECI t_jd) in
  length rel = 3%nat /\
  norm rel = Rabs Wind /\
  dot rel [cos lat * cos lon; cos lat * sin lon; sin lat] = 0.
Proof.
  intros HW Pos_LLH lat lon Wind Wind_ECI rel.
  subst rel Wind_ECI Wind. unfold df_functions.AtmosphericModel.
  assert (Hlen : negb (Nat.eqb (length W) 0) = true)
    by (destruct W; [contradiction HW; reflexivity | reflexivity]).
  rewrite Hlen. fold Pos_LLH. fold lat. fold lon.
  destruct (df_functions.sounding_fields si W (idx Pos_LLH 2))
    as [[[[Wind WDir] TempK] Press] RHum].
  cbn [fst].
  unfold df_functions.v_rot, cross.
  set (x := _ - _). set (y := _ - _). set (z := _ - _).
  cbn [map mat_vec dot zip_with fold_right vadd vsub length].
  pose proof (sq_sin_cos lat) as Hlat.
  pose proof (sq_sin_cos lon) as Hlon.
  pose proof (sq_sin_cos (deg2rad WDir)) as Hd.
  set (sd := sin (deg2rad WDir)) in *. set (cd := cos (deg2rad WDir)) in *.
  set (sa := sin lat) in *. set (ca := cos lat) in *.
  set (so := sin lon) in *. set (co := cos lon) in *.
  split; [reflexivity |]. split.
  - apply norm_eq; [apply Rabs_pos |].
    replace (Rabs Wind * Rabs Wind) with (Wind * Wind)
      by (rewrite <- Rabs_mult; symmetry; apply Rabs_pos_eq; nra).
    cbn [sum_sq fold_right].
    transitivity
      (Wind * Wind
       * (sd * sd * (so * so + co * co)
          + cd * cd * (sa * sa * (so * so + co * co) + ca * ca))); [ring |].
    rewrite Hlon, !Rmult_1_r, Hlat, Rmult_1_r, Hd. ring.
  - transitivity
      (- (Wind * cd) * sa * ca * (1 - (so * so + co * co))); [ring |].
    rewrite Hlon. ring.
Qed.

Lemma sounding_wind_is_horizontal_witness :
  let Pos := [Sphere.R0 + 1000; 0; 0] in
  let Pos_LLH := df_functions.sounding_Pos_LLH Sphere.tu Pos in
  let rel :=
    vsub (fst (fst (df_functions.AtmosphericModel Sphere.tu Sphere.ou
                      Sphere.si Sphere.sounding Pos 0)))
         (df_functions.v_rot Sphere.tu Pos 0) in
  length rel = 3%nat /\
  norm rel
  = Rabs (fst (fst (fst (fst (df_functions.sounding_fields Sphere.si
                                Sphere.sounding (idx Pos_LLH 2)))))) /\
  dot rel [cos (idx Pos_LLH 0) * cos (idx Pos_LLH 1);
           cos (idx Pos_LLH 0) * sin (idx Pos_LLH 1);
           sin (idx Pos_LLH 0)] = 0.
Proof.
  assert (HW : Sphere.sounding <> []) by discriminate.
  exact (sounding_wind_is_horizontal Sphere.tu Sphere.ou Sphere.si
           Sphere.sounding [Sphere.R0 + 1000; 0; 0] 0 HW).
Defined.

(** X11: the velocity of the co-rotating air is perpendicular to the position
    vector; so, without wind data, the wind the sampler returns has no radial
    component. *)
Theorem still_air_wind_not_radial (tu : trajectory_utilities)
    (ou : orbital_utilities) (si : scipy_interpolate)
    (Pos_ECI : vec) (t_jd : R) :
  length Pos_ECI = 3%nat ->
  dot (df_functions.v_rot tu Pos_ECI t_jd) Pos_ECI = 0 /\
  dot (fst (fst (df_functions.AtmosphericModel tu ou si [] Pos_ECI t_jd)))
      Pos_ECI = 0.
Proof.
  intros HP.
  assert (Hrot : dot (df_functions.v_rot tu Pos_ECI t_jd) Pos_ECI = 0).
  { unfold df_functions.v_rot. apply cross_perp_right. exact HP. }
  split; [exact Hrot |].
  unfold df_functions.AtmosphericModel. cbn [length Nat.eqb negb].
  destruct (NRLMSISE_00 ou _ t_jd) as [[TempK Press] rho_a].
  cbn [fst]. exact Hrot.
Qed.

Lemma still_air_wind_not_radial_witness :
  dot (df_functions.v_rot Sphere.tu [Sphere.R0 + 1000; 0; 0] 0)
      [Sphere.R0 + 1000; 0; 0] = 0 /\
  dot (fst (fst (df_functions.AtmosphericModel Sphere.tu Sphere.ou Sphere.si
                   [] [Sphere.R0 + 1000; 0; 0] 0)))
      [Sphere.R0 + 1000; 0; 0] = 0.
Proof.
  exact (still_air_wind_not_radial Sphere.tu Sphere.ou Sphere.si
           [Sphere.R0 + 1000; 0; 0] 0 eq_refl).
Defined.

(** ** Drag and lift in the state rates *)

Lemma length_slice_3_6 (X : vec) : (6 <= length X)%nat -> length (slice 3 6 X) = 3%nat.
Proof.
  intros HX. unfold slice. rewrite length_firstn, length_skipn. lia.
Qed.

Lemma slice_3_6_entries (X : vec) :
  (6 <= length X)%nat -> slice 3 6 X = [idx X 3; idx X 4; idx X 5].
Proof.
  intros HX.
  destruct X as [|x0 [|x1 [|x2 [|x3 [|x4 [|x5 X]]]]]]; cbn in HX; try lia.
  reflexivity.
Qed.

Lemma idx_map_lin (f : R -> R) (v : vec) (i : nat) :
  f 0 = 0 -> idx (map f v) i = f (idx v i).
Proof.
  intros Hf. unfold idx. rewrite <- Hf at 1. apply map_nth.
Qed.

Lemma DFN_acceleration (tu : trajectory_utilities) (af : atm_functions)
    (ou : orbital_utilities) (si : scipy_interpolate) (gs : grid_sampler)
    (t : R) (X : vec) (W : WindSource) (t0 : R) (i : nat) :
  (6 <= length X)%nat -> (i < 3)%nat ->
  idx (DFN_DarkFlight.EarthDynamics tu af ou si gs t X W t0) (3 + i)
  = let atm :=
      DFN_DarkFlight.atmosphere tu ou si gs W (slice 0 3 X)
        (t0 + t / (24 * 60 * 60)) in
    let v_rel := vsub (slice 3 6 X) (fst (fst atm)) in
    let cd :=
      fst (fst (fst (dragcoeff af (norm v_rel) (snd atm) (snd (fst atm))
                       (idx X 8)))) in
    idx (vadd (gravity_vector tu (slice 0 3 X))
           (map (fun x => - cd * idx X 8 * snd (fst atm) * norm v_rel * x
                          / (2 * powf (idx X 6) (1 / 3)
                             * powf (idx X 7) (2 / 3))) v_rel)) i.
Proof.
  intros HX Hi. unfold DFN_DarkFlight.EarthDynamics.
  destruct (DFN_DarkFlight.atmosphere tu ou si gs W (slice 0 3 X) _)
    as [[v_atm rho_a] temp].
  cbn [fst snd].
  rewrite idx_set_slice_out by lia.
  rewrite idx_set_slice_in;
    [| rewrite length_set_slice, length_zeros; lia | lia].
  replace (3 + i - 3)%nat with i by lia. reflexivity.
Qed.

Lemma main_acceleration (tu : trajectory_utilities) (af : atm_functions)
    (ou : orbital_utilities) (si : scipy_interpolate) (gs : grid_sampler)
    (t : R) (X : vec) (W : WindSource) (t0 cl : R) (i : nat) :
  (6 <= length X)%nat -> (i < 3)%nat ->
  idx (DarkFlight_main.EarthDynamics tu af ou si gs t X W t0 cl) (3 + i)
  = let atm :=
      DarkFlight_main.atmosphere tu ou si gs W (slice 0 3 X)
        (t0 + t / (24 * 60 * 60)) in
    let g := gravity_vector tu (slice 0 3 X) in
    let v_rel := vsub (slice 3 6 X) (fst (fst atm)) in
    let cd :=
      fst (fst (fst (dragcoeff af (norm v_rel) (snd atm) (snd (fst atm))
                       (idx X 8)))) in
    let c := cross [idx g 0; idx g 1; idx g 2]
                   [idx v_rel 0; idx v_rel 1; idx v_rel 2] in
    idx (vadd
           (vadd g
              (map (fun x => - cd * idx X 8 * snd (fst atm) * norm v_rel * x
                             / (2 * powf (idx X 6) (1 / 3)
                                * powf (idx X 7) (2 / 3))) v_rel))
           (map (fun x => cl * idx X 8 * snd (fst atm) * norm v_rel ^ 2 * x
                          / (2 * powf (idx X 6) (1 / 3)
                             * powf (idx X 7) (2 / 3)))
              (map (fun x => x / norm c) c))) i.
Proof.
  intros HX Hi. unfold DarkFlight_main.EarthDynamics.
  destruct (DarkFlight_main.atmosphere tu ou si gs W (slice 0 3 X) _)
    as [[v_atm rho_a] temp].
  cbn [fst snd].
  rewrite idx_set_slice_out by lia.
  rewrite idx_set_slice_in;
    [| rewrite length_set_slice, length_zeros; lia | lia].
  replace (3 + i - 3)%nat with i by lia. reflexivity.
Qed.

Lemma main_rates_outside_acceleration (tu : trajectory_utilities)
    (af : atm_functions) (ou : orbital_utilities) (si : scipy_interpolate)
    (gs : grid_sampler) (t : R) (X : vec) (W : WindSource) (t0 cl cl' : R)
    (i : nat) :
  ~ (3 <= i < 6)%nat ->
  idx (DarkFlight_main.EarthDynamics tu af ou si gs t X W t0 cl) i
  = idx (DarkFlight_main.EarthDynamics tu af ou si gs t X W t0 cl') i.
Proof.
  intros Hi. unfold DarkFlight_main.EarthDynamics.
  destruct (DarkFlight_main.atmosphere tu ou si gs W (slice 0 3 X) _)
    as [[v_atm rho_a] temp].
  destruct (Nat.eq_dec i 6) as [-> | Hne].
  - destruct (Nat.lt_ge_cases 6 (length X)) as [HX | HX].
    + rewrite !idx_set_slice_in;
        try lia; try (rewrite !length_set_slice, length_zeros; exact HX).
      reflexivity.
    + rewrite !idx_overflow;
        try (rewrite !length_set_slice, length_zeros; exact HX).
      reflexivity.
  - rewrite !(idx_set_slice_out 6 7) by lia.
    rewrite !(idx_set_slice_out 3 6) by lia. reflexivity.
Qed.

Lemma norm3_scale (c a0 a1 a2 : R) :
  norm [c * a0; c * a1; c * a2] = Rabs c * norm [a0; a1; a2].
Proof.
  apply norm_eq.
  - apply Rmult_le_pos; [apply Rabs_pos | apply norm_nonneg].
  - replace (Rabs c * norm [a0; a1; a2] * (Rabs c * norm [a0; a1; a2]))
      with (Rabs c * Rabs c * (norm [a0; a1; a2] * norm [a0; a1; a2])) by ring.
    rewrite norm_sq, <- Rabs_mult, (Rabs_pos_eq (c * c)) by nra.
    cbn [sum_sq fold_right]. ring.
Qed.

(** X12: in the state rates of DFN_DarkFlight.py the acceleration is gravity
    minus a non-negative multiple of the velocity relative to the air, for a
    body of positive mass and bulk density and non-negative drag coefficient,
    shape factor and air density: the drag never speeds the body up relative
    to the air. *)
Theorem drag_opposes_relative_velocity (tu : trajectory_utilities)
    (af : atm_functions) (ou : orbital_utilities) (si : scipy_interpolate)
    (gs : grid_sampler) (t : R) (X : vec) (W : WindSource) (t0 : R) :
  let atm :=
    DFN_DarkFlight.atmosphere tu ou si gs W (slice 0 3 X)
      (t0 + t / (24 * 60 * 60)) in
  let v_atm := fst (fst atm) in
  let rho_a := snd (fst atm) in
  let temp := snd atm in
  let g := gravity_vector tu (slice 0 3 X) in
  let v_rel := vsub (slice 3 6 X) v_atm in
  let cd := fst (fst (fst (dragcoeff af (norm v_rel) temp rho_a (idx X 8)))) in
  let X_dot := DFN_DarkFlight.EarthDynamics tu af ou si gs t X W t0 in
  (10 <= length X)%nat -> length g = 3%nat -> length v_atm = 3%nat ->
  0 <= cd -> 0 <= idx X 8 -> 0 <= rho_a -> 0 < idx X 6 -> 0 < idx X 7 ->
  exists k : R,
    0 <= k /\
    (forall i, (i < 3)%nat -> idx X_dot (3 + i) = idx g i - k * idx v_rel i) /\
    dot (vsub (slice 3 6 X_dot) g) v_rel = - k * (norm v_rel * norm v_rel).
Proof.
  intros atm v_atm rho_a temp g v_rel cd X_dot HX Hg Hv Hcd HA Hrho HM Hbulk.
  pose proof (powf_pos (idx X 6) (1 / 3)) as Hp1.
  pose proof (powf_pos (idx X 7) (2 / 3)) as Hp2.
  pose proof (norm_nonneg v_rel) as Hn.
  set (den := 2 * powf (idx X 6) (1 / 3) * powf (idx X 7) (2 / 3)) in *.
  assert (Hden : 0 < den) by (unfold den; nra).
  exists (cd * idx X 8 * rho_a * norm v_rel / den).
  assert (Hk : 0 <= cd * idx X 8 * rho_a * norm v_rel / den).
  { apply Rmult_le_pos; [| left; apply Rinv_0_lt_compat; exact Hden].
    apply Rmult_le_pos; [| exact Hn].
    apply Rmult_le_pos; [| exact Hrho].
    apply Rmult_le_pos; assumption. }
  assert (Hlen : length v_rel = 3%nat).
  { unfold v_rel.
    rewrite length_vsub; rewrite length_slice_3_6 by lia;
      [reflexivity | symmetry; exact Hv]. }
  assert (Hacc : forall i, (i < 3)%nat ->
            idx X_dot (3 + i)
            = idx g i - cd * idx X 8 * rho_a * norm v_rel / den * idx v_rel i).
  { intros i Hi. unfold X_dot.
    rewrite DFN_acceleration by lia. cbv zeta.
    fold atm. fold v_atm. fold rho_a. fold temp. fold g. fold v_rel. fold cd.
    fold den.
    rewrite idx_vadd by (rewrite length_map, Hlen; exact Hg).
    rewrite idx_map_lin by (unfold Rdiv; ring).
    unfold Rdiv. ring. }
  split; [exact Hk |]. split; [exact Hacc |].
  assert (HXd : length X_dot = length X)
    by (unfold X_dot; apply DFN_EarthDynamics_length).
  assert (Hs : slice 3 6 X_dot = [idx X_dot 3; idx X_dot 4; idx X_dot 5]).
  { apply slice_3_6_entries. lia. }
  rewrite Hs.
  pose proof (Hacc 0%nat ltac:(lia)) as H0.
  pose proof (Hacc 1%nat ltac:(lia)) as H1.
  pose proof (Hacc 2%nat ltac:(lia)) as H2.
  cbn [Nat.add] in H0, H1, H2. rewrite H0, H1, H2.
  rewrite norm_sq.
  destruct g as [|g0 [|g1 [|g2 [|? ?]]]]; try discriminate.
  destruct v_rel as [|r0 [|r1 [|r2 [|? ?]]]]; try discriminate.
  unfold dot, idx. cbn. unfold Rdiv. ring.
Qed.

Lemma drag_opposes_relative_velocity_witness :
  let X := Scenarios.inert_X in
  let X_dot :=
    DFN_DarkFlight.EarthDynamics Sphere.tu Sphere.af Sphere.ou Sphere.si
      Sphere.gs 0 X (Table1D Sphere.sounding) 2459000 in
  let g := gravity_vector Sphere.tu (slice 0 3 X) in
  let v_rel :=
    vsub (slice 3 6 X)
      (fst (fst (DFN_DarkFlight.atmosphere Sphere.tu Sphere.ou Sphere.si
                   Sphere.gs (Table1D Sphere.sounding) (slice 0 3 X)
                   (2459000 + 0 / (24 * 60 * 60))))) in
  exists k : R,
    0 <= k /\
    (forall i, (i < 3)%nat -> idx X_dot (3 + i) = idx g i - k * idx v_rel i) /\
    dot (vsub (slice 3 6 X_dot) g) v_rel = - k * (norm v_rel * norm v_rel).
Proof.
  intros X X_dot g v_rel.
  assert (Hatm :
    DFN_DarkFlight.atmosphere Sphere.tu Sphere.ou Sphere.si Sphere.gs
      (Table1D Sphere.sounding) (slice 0 3 X) (2459000 + 0 / (24 * 60 * 60))
    = (df_functions.v_rot Sphere.tu [6411000; 0; 0]
         (2459000 + 0 / (24 * 60 * 60)), 1e-9, 1000)).
  { change (slice 0 3 X) with [6411000; 0; 0].
    apply Sphere_DFN_atmosphere_above. unfold Sphere.R0. lra. }
  apply (drag_opposes_relative_velocity Sphere.tu Sphere.af Sphere.ou
           Sphere.si Sphere.gs 0 X (Table1D Sphere.sounding) 2459000).
  - cbn. lia.
  - reflexivity.
  - rewrite Hatm. reflexivity.
  - cbn [Sphere.af dragcoeff fst]. lra.
  - cbn. lra.
  - rewrite Hatm. cbn [fst snd]. lra.
  - cbn. lra.
  - cbn. lra.
Defined.

Lemma main_lift_entry (tu : trajectory_utilities) (af : atm_functions)
    (ou : orbital_utilities) (si : scipy_interpolate) (gs : grid_sampler)
    (t : R) (X : vec) (W : WindSource) (t0 cl : R) (j : nat) :
  let atm :=
    DarkFlight_main.atmosphere tu ou si gs W (slice 0 3 X)
      (t0 + t / (24 * 60 * 60)) in
  let g := gravity_vector tu (slice 0 3 X) in
  let v_rel := vsub (slice 3 6 X) (fst (fst atm)) in
  (6 <= length X)%nat -> length g = 3%nat -> length (fst (fst atm)) = 3%nat ->
  (j < 3)%nat ->
  idx (DarkFlight_main.EarthDynamics tu af ou si gs t X W t0 cl) (3 + j)
  - idx (DarkFlight_main.EarthDynamics tu af ou si gs t X W t0 0) (3 + j)
  = cl * (idx X 8 * snd (fst atm) * norm v_rel ^ 2
          / (2 * powf (idx X 6) (1 / 3) * powf (idx X 7) (2 / 3)
             * norm (cross g v_rel)))
    * idx (cross g v_rel) j.
Proof.
  intros atm g v_rel HX Hg Hv Hj.
  assert (Hlen : length v_rel = 3%nat).
  { unfold v_rel.
    rewrite length_vsub; rewrite length_slice_3_6 by lia;
      [reflexivity | symmetry; exact Hv]. }
  rewrite !main_acceleration by lia. cbv zeta.
  fold atm. fold g. fold v_rel.
  change (cross [idx g 0; idx g 1; idx g 2]
                [idx v_rel 0; idx v_rel 1; idx v_rel 2])
    with (cross g v_rel).
  assert (Hc : length (cross g v_rel) = 3%nat) by reflexivity.
  set (c := cross g v_rel) in *.
  rewrite !(idx_vadd (vadd _ _))
    by (rewrite length_vadd, !length_map; rewrite ?length_map; congruence).
  rewrite !idx_map_lin by (unfold Rdiv; ring).
  unfold Rdiv.
  rewrite (Rinv_mult (2 * powf (idx X 6) (1 * / 3) * powf (idx X 7) (2 * / 3))
             (norm c)).
  ring.
Qed.

(** X13: in DarkFlight_main.py the lift coefficient changes the state rates
    only in the acceleration, and there by a vector perpendicular both to the
    velocity relative to the air and to gravity, of length
    |cl| A rho_a v^2 / (2 M^(1/3) rho^(2/3)); this needs gravity and the
    relative velocity not to be parallel, as the code divides by the length
    of their cross product. *)
Theorem lift_is_sideways (tu : trajectory_utilities)
    (af : atm_functions) (ou : orbital_utilities) (si : scipy_interpolate)
    (gs : grid_sampler) (t : R) (X : vec) (W : WindSource) (t0 cl : R) :
  let atm :=
    DarkFlight_main.atmosphere tu ou si gs W (slice 0 3 X)
      (t0 + t / (24 * 60 * 60)) in
  let v_atm := fst (fst atm) in
  let rho_a := snd (fst atm) in
  let g := gravity_vector tu (slice 0 3 X) in
  let v_rel := vsub (slice 3 6 X) v_atm in
  let X_dot := DarkFlight_main.EarthDynamics tu af ou si gs t X W t0 in
  let D := vsub (X_dot cl) (X_dot 0) in
  let lift := [idx D 3; idx D 4; idx D 5] in
  (10 <= length X)%nat -> length g = 3%nat -> length v_atm = 3%nat ->
  norm (cross g v_rel) <> 0 ->
  0 <= idx X 8 -> 0 <= rho_a -> 0 < idx X 6 -> 0 < idx X 7 ->
  (forall i, ~ (3 <= i < 6)%nat -> idx D i = 0) /\
  dot lift v_rel = 0 /\
  dot lift g = 0 /\
  norm lift
  = Rabs cl * idx X 8 * rho_a * norm v_rel ^ 2
    / (2 * powf (idx X 6) (1 / 3) * powf (idx X 7) (2 / 3)).
Proof.
  intros atm v_atm rho_a g v_rel X_dot D lift HX Hg Hv Hc HA Hrho HM Hbulk.
  pose proof (powf_pos (idx X 6) (1 / 3)) as Hp1.
  pose proof (powf_pos (idx X 7) (2 / 3)) as Hp2.
  pose proof (norm_nonneg v_rel) as Hn.
  pose proof (norm_nonneg (cross g v_rel)) as Hcn.
  assert (Hlen : length v_rel = 3%nat).
  { unfold v_rel.
    rewrite length_vsub; rewrite length_slice_3_6 by lia;
      [reflexivity | symmetry; exact Hv]. }
  assert (HD : forall i, idx D i = idx (X_dot cl) i - idx (X_dot 0) i).
  { intros i. unfold D. apply idx_vsub. unfold X_dot.
    rewrite !main_EarthDynamics_length. reflexivity. }
  set (den := 2 * powf (idx X 6) (1 / 3) * powf (idx X 7) (2 / 3)) in *.
  assert (Hden : 0 < den) by (unfold den; nra).
  set (q := idx X 8 * rho_a * norm v_rel ^ 2 / (den * norm (cross g v_rel))).
  assert (Hq : 0 <= q).
  { unfold q. apply Rmult_le_pos.
    - apply Rmult_le_pos; [apply Rmult_le_pos; assumption |].
      apply pow_le. exact Hn.
    - left. apply Rinv_0_lt_compat. apply Rmult_lt_0_compat; [exact Hden |].
      lra. }
  assert (Hl : forall j, (j < 3)%nat ->
            idx D (3 + j) = cl * q * idx (cross g v_rel) j).
  { intros j Hj. rewrite HD. unfold X_dot.
    apply (main_lift_entry tu af ou si gs t X W t0 cl j); try assumption. lia. }
  pose proof (Hl 0%nat ltac:(lia)) as H0.
  pose proof (Hl 1%nat ltac:(lia)) as H1.
  pose proof (Hl 2%nat ltac:(lia)) as H2.
  cbn [Nat.add] in H0, H1, H2.
  split; [| split; [| split]].
  - intros i Hi. rewrite HD. unfold X_dot.
    rewrite (main_rates_outside_acceleration tu af ou si gs t X W t0 cl 0 i Hi).
    ring.
  - unfold lift. rewrite H0, H1, H2.
    destruct g as [|g0 [|g1 [|g2 [|? ?]]]]; try discriminate.
    destruct v_rel as [|r0 [|r1 [|r2 [|? ?]]]]; try discriminate.
    unfold dot, cross, idx. cbn. ring.
  - unfold lift. rewrite H0, H1, H2.
    destruct g as [|g0 [|g1 [|g2 [|? ?]]]]; try discriminate.
    destruct v_rel as [|r0 [|r1 [|r2 [|? ?]]]]; try discriminate.
    unfold dot, cross, idx. cbn. ring.
  - unfold lift. rewrite H0, H1, H2.
    rewrite norm3_scale.
    change [idx (cross g v_rel) 0; idx (cross g v_rel) 1;
            idx (cross g v_rel) 2] with (cross g v_rel).
    rewrite Rabs_mult, (Rabs_pos_eq q) by exact Hq.
    unfold q. field. split; [lra | exact Hc].
Qed.

Lemma norm3_nonzero (a b c : R) : c <> 0 -> norm [a; b; c] <> 0.
Proof.
  intros Hc Hn. pose proof (norm_sq [a; b; c]) as Hs.
  rewrite Hn in Hs. cbn [sum_sq fold_right] in Hs.
  assert (0 < c * c) by nra. nra.
Qed.

Lemma lift_is_sideways_witness :
  let X := Scenarios.inert_X in
  let W := Table1D [] in
  let atm :=
    DarkFlight_main.atmosphere Sphere.tu Sphere.ou Sphere.si Sphere.gs W
      (slice 0 3 X) (2459000 + 0 / (24 * 60 * 60)) in
  let g := gravity_vector Sphere.tu (slice 0 3 X) in
  let v_rel := vsub (slice 3 6 X) (fst (fst atm)) in
  let X_dot :=
    DarkFlight_main.EarthDynamics Sphere.tu Sphere.af Sphere.ou Sphere.si
      Sphere.gs 0 X W 2459000 in
  let D := vsub (X_dot 0.5) (X_dot 0) in
  let lift := [idx D 3; idx D 4; idx D 5] in
  (forall i, ~ (3 <= i < 6)%nat -> idx D i = 0) /\
  dot lift v_rel = 0 /\
  dot lift g = 0 /\
  norm lift
  = Rabs 0.5 * idx X 8 * snd (fst atm) * norm v_rel ^ 2
    / (2 * powf (idx X 6) (1 / 3) * powf (idx X 7) (2 / 3)).
Proof.
  intros X W atm g v_rel X_dot D lift.
  apply (lift_is_sideways Sphere.tu Sphere.af Sphere.ou Sphere.si Sphere.gs
           0 X W 2459000 0.5).
  - cbn. lia.
  - reflexivity.
  - reflexivity.
  - change (slice 0 3 X) with [6411000; 0; 0].
    change (slice 3 6 X) with [-1000; 1600; 0].
    unfold W.
    cbn [DarkFlight_main.atmosphere df_functions.AtmosphericModel length
         Nat.eqb negb Sphere.ou NRLMSISE_00 fst snd].
    unfold df_functions.v_rot.
    cbn [Sphere.tu gravity_vector OMEGA_EARTH ECEF2ECI_pos map].
    rewrite norm_axis by lra.
    unfold cross at 1. apply norm3_nonzero.
    unfold cross, vsub, idx. cbn [zip_with nth].
    unfold Rdiv. 
    match goal with |- ?e <> 0 =>
      replace e with (- 3.986005e14 * 6411000 * / 6411000 ^ 3 * 1600) by ring
    end.
    assert (0 < / 6411000 ^ 3) by (apply Rinv_0_lt_compat; lra).
    nra.
  - cbn. lra.
  - cbn. lra.
  - cbn. lra.
  - cbn. lra.
Defined.

(** ** One landing state per particle *)

Lemma DFN_Propagate_params (tu : trajectory_utilities) (af : atm_functions)
    (ou : orbital_utilities) (si : scipy_interpolate) (gs : grid_sampler)
    (elevation_data : srtm_data) (state0 : vec) (args : DFN_DarkFlight.Args)
    (rng : RNG) (hs : list R) (i : nat) :
  (7 <= i <= 9)%nat ->
  let out := DFN_DarkFlight.Propagate tu af ou si gs elevation_data
               state0 args rng hs in
  DFN_DarkFlight.X_all out <> [] /\
  idx (last (DFN_DarkFlight.X_all out) []) i = idx (skipn 1 state0) i.
Proof.
  intros Hi out.
  assert (Hall : Forall (fun X' => idx X' i = idx (skipn 1 state0) i)
                   (DFN_DarkFlight.X_all out)).
  { unfold out, DFN_DarkFlight.Propagate.
    rewrite (integrate_offered _ _ _ (DFN_solout_appends tu elevation_data _ _)).
    cbn [fst snd app].
    eapply Forall_impl;
      [| apply (DFN_backtrack_frame tu elevation_data _ _ _ _
                  (length (skipn 1 state0)) (idx (skipn 1 state0) i) i) ].
    + intros X' [_ HX']. exact HX'.
    + apply offered_frame.
      * intros. apply DFN_EarthDynamics_length.
      * intros. apply DFN_EarthDynamics_frame. lia. }
  assert (Hne : DFN_DarkFlight.X_all out <> []).
  { destruct (DFN_Propagate_record tu af ou si gs elevation_data state0 args
                rng hs) as [F HF].
    unfold out. rewrite HF.
    set (o := Integrator.offered _ F _ hs 0 (skipn 1 state0)).
    destruct (DFN_backtrack_shape tu elevation_data (idx state0 0)
                (DFN_DarkFlight.h_ground args) (map snd o) (map fst o))
      as (HL & _).
    pose proof (offered_length Integrator.dopri5 F
                  (DFN_DarkFlight.solout tu elevation_data (idx state0 0)
                     (DFN_DarkFlight.h_ground args)) hs 0 (skipn 1 state0))
      as Hb.
    fold o in Hb. intros Hnil. rewrite Hnil in HL. cbn [length] in HL.
    rewrite length_map in HL. lia. }
  split; [exact Hne |].
  destruct (exists_last Hne) as (l & x & Hx). rewrite Hx in *.
  rewrite last_last. apply Forall_app in Hall. destruct Hall as [_ Hl].
  inversion Hl; assumption.
Qed.

Lemma main_Propagate_params (tu : trajectory_utilities) (af : atm_functions)
    (ou : orbital_utilities) (si : scipy_interpolate) (gs : grid_sampler)
    (state0 : vec) (args : DarkFlight_main.Args) (hs : list R) (i : nat) :
  (7 <= i <= 9)%nat ->
  let out := DarkFlight_main.Propagate tu af ou si gs state0 args hs in
  DarkFlight_main.X_all out <> [] /\
  idx (last (DarkFlight_main.X_all out) []) i = idx (skipn 1 state0) i.
Proof.
  intros Hi out.
  assert (Hall : Forall (fun X' => idx X' i = idx (skipn 1 state0) i)
                   (DarkFlight_main.X_all out)).
  { unfold out, DarkFlight_main.Propagate.
    rewrite (integrate_offered _ _ _ (main_solout_appends _)).
    cbn [fst snd app].
    eapply Forall_impl;
      [| apply (main_backtrack_frame tu _ _ _ _
                  (length (skipn 1 state0)) (idx (skipn 1 state0) i) i) ].
    + intros X' [_ HX']. exact HX'.
    + apply offered_frame.
      * intros. apply main_EarthDynamics_length.
      * intros. apply main_EarthDynamics_frame. lia. }
  assert (Hne : DarkFlight_main.X_all out <> []).
  { destruct (main_Propagate_record tu af ou si gs state0 args hs) as [F HF].
    unfold out. rewrite HF.
    set (r := EarthRadius tu (idx (ECEF2LLH tu (slice 1 4 state0)) 0)
              + DarkFlight_main.h_ground args).
    set (o := Integrator.offered _ F _ hs 0 (skipn 1 state0)).
    destruct (main_backtrack_shape tu (idx state0 0)
                (DarkFlight_main.h_ground args) (map snd o) (map fst o))
      as (HL & _).
    pose proof (offered_length Integrator.dopri5 F
                  (DarkFlight_main.solout r) hs 0 (skipn 1 state0)) as Hb.
    fold o in Hb. intros Hnil. rewrite Hnil in HL. cbn [length] in HL.
    rewrite length_map in HL. lia. }
  split; [exact Hne |].
  destruct (exists_last Hne) as (l & x & Hx). rewrite Hx in *.
  rewrite last_last. apply Forall_app in Hall. destruct Hall as [_ Hl].
  inversion Hl; assumption.
Qed.

Lemma idx_skipn_1 (X : vec) (i : nat) : idx (skipn 1 X) i = idx X (S i).
Proof. destruct X as [|x X]; [destruct i; reflexivity | reflexivity]. Qed.

Lemma rng_after_shift (args : DFN_DarkFlight.Args) (rng : RNG) :
  DFN_DarkFlight_loop.rng_after args rng
  = fun k => rng (DFN_DarkFlight_loop.draws args + k)%nat.
Proof.
  unfold DFN_DarkFlight_loop.rng_after, DFN_DarkFlight_loop.draws,
    DFN_DarkFlight.randomise_wind.
  destruct (Z.eqb (DFN_DarkFlight.mc args) 0); [reflexivity |].
  destruct (DFN_DarkFlight.WindData args) as [W | G]; unfold uniform;
    cbn [snd]; rewrite ?length_map;
    apply functional_extensionality; intros k; f_equal; lia.
Qed.

Lemma DFN_runs_length (tu : trajectory_utilities) (af : atm_functions)
    (ou : orbital_utilities) (si : scipy_interpolate) (gs : grid_sampler)
    (elevation_data : srtm_data) (State0 : list vec)
    (args : DFN_DarkFlight.Args) (rng : RNG) (hs_of : nat -> list R)
    (i0 : nat) :
  length (DFN_DarkFlight_loop.runs tu af ou si gs elevation_data State0 args
            rng hs_of i0) = length State0.
Proof.
  revert rng i0. induction State0 as [|s S0 IH]; intros rng i0;
    cbn [DFN_DarkFlight_loop.runs length]; [reflexivity |].
  rewrite IH. reflexivity.
Qed.

Lemma DFN_runs_nth (tu : trajectory_utilities) (af : atm_functions)
    (ou : orbital_utilities) (si : scipy_interpolate) (gs : grid_sampler)
    (elevation_data : srtm_data) (State0 : list vec)
    (args : DFN_DarkFlight.Args) (rng : RNG) (hs_of : nat -> list R)
    (i0 j : nat) (d0 : DFN_DarkFlight.DarkDict) :
  (j < length State0)%nat ->
  nth j (DFN_DarkFlight_loop.runs tu af ou si gs elevation_data State0 args
           rng hs_of i0) d0
  = DFN_DarkFlight.Propagate tu af ou si gs elevation_data (nth j State0 [])
      args (fun k => rng (j * DFN_DarkFlight_loop.draws args + k)%nat)
      (hs_of (i0 + j)%nat).
Proof.
  revert rng i0 j. induction State0 as [|s S0 IH]; intros rng i0 j Hj;
    cbn [length] in Hj; [lia |].
  destruct j as [|j]; cbn [DFN_DarkFlight_loop.runs nth].
  - rewrite Nat.add_0_r. reflexivity.
  - rewrite IH by lia. rewrite rng_after_shift.
    replace (S i0 + j)%nat with (i0 + S j)%nat by lia.
    f_equal. apply functional_extensionality. intros k. f_equal.
    cbn [Nat.mul]. lia.
Qed.

Lemma main_runs_length (tu : trajectory_utilities) (af : atm_functions)
    (ou : orbital_utilities) (si : scipy_interpolate) (gs : grid_sampler)
    (State0 : list vec) (args : DarkFlight_main.Args)
    (hs_of : nat -> list R) (i0 : nat) :
  length (DarkFlight_main_loop.runs tu af ou si gs State0 args hs_of i0)
  = length State0.
Proof.
  revert i0. induction State0 as [|s S0 IH]; intros i0;
    cbn [DarkFlight_main_loop.runs length]; [reflexivity |].
  rewrite IH. reflexivity.
Qed.

Lemma main_runs_nth (tu : trajectory_utilities) (af : atm_functions)
    (ou : orbital_utilities) (si : scipy_interpolate) (gs : grid_sampler)
    (State0 : list vec) (args : DarkFlight_main.Args)
    (hs_of : nat -> list R) (i0 j : nat) (d0 : DarkFlight_main.DarkDict) :
  (j < length State0)%nat ->
  nth j (DarkFlight_main_loop.runs tu af ou si gs State0 args hs_of i0) d0
  = DarkFlight_main.Propagate tu af ou si gs (nth j State0 []) args
      (hs_of (i0 + j)%nat).
Proof.
  revert i0 j. induction State0 as [|s S0 IH]; intros i0 j Hj;
    cbn [length] in Hj; [lia |].
  destruct j as [|j]; cbn [DarkFlight_main_loop.runs nth].
  - rewrite Nat.add_0_r. reflexivity.
  - rewrite IH by lia.
    replace (S i0 + j)%nat with (i0 + S j)%nat by lia. reflexivity.
Qed.

Lemma nth_map_in {A B : Type} (g : A -> B) (l : list A) (i : nat) (d : A)
    (d' : B) :
  (i < length l)%nat -> nth i (map g l) d' = g (nth i l d).
Proof.
  intros Hi. rewrite (nth_indep _ d' (g d)) by (rewrite length_map; exact Hi).
  apply map_nth.
Qed.

(** X14: PropagateMultiple returns one landing state per column of State0.
    The entry of particle i is the last sample of Propagate run on column i
    alone; in DFN_DarkFlight.py that run sees the random generator advanced
    by the draws of the i particles before it, so every particle gets wind
    perturbations of its own.  The bulk density, shape factor and mass-loss
    coefficient returned for a particle are those of its column. *)
Theorem landing_states (tu : trajectory_utilities) (af : atm_functions)
    (ou : orbital_utilities) (si : scipy_interpolate) (gs : grid_sampler)
    (elevation_data : srtm_data) (State0 : list vec)
    (args : DFN_DarkFlight.Args) (rng : RNG) (hs_of : nat -> list R)
    (args' : DarkFlight_main.Args) (i : nat) :
  (i < length State0)%nat ->
  let state0 := nth i State0 [] in
  let d :=
    DFN_DarkFlight.Propagate tu af ou si gs elevation_data state0 args
      (fun k => rng (i * DFN_DarkFlight_loop.draws args + k)%nat) (hs_of i) in
  let d' := DarkFlight_main.Propagate tu af ou si gs state0 args' (hs_of i) in
  let out :=
    DFN_DarkFlight_loop.PropagateMultiple tu af ou si gs elevation_data
      State0 args rng hs_of in
  let out' :=
    DarkFlight_main_loop.PropagateMultiple tu af ou si gs State0 args' hs_of in
  (length (DFN_DarkFlight_loop.time_jd out) = length State0 /\
   nth i (DFN_DarkFlight_loop.time_jd out) 0
   = last (DFN_DarkFlight.time_jd d) 0 /\
   nth i (DFN_DarkFlight_loop.pos_eci out) []
   = slice 0 3 (last (DFN_DarkFlight.X_all d) []) /\
   nth i (DFN_DarkFlight_loop.vel_eci out) []
   = slice 3 6 (last (DFN_DarkFlight.X_all d) []) /\
   nth i (DFN_DarkFlight_loop.mass out) 0
   = idx (last (DFN_DarkFlight.X_all d) []) 6 /\
   nth i (DFN_DarkFlight_loop.rho out) 0 = idx state0 8 /\
   nth i (DFN_DarkFlight_loop.shape out) 0 = idx state0 9 /\
   nth i (DFN_DarkFlight_loop.c_ml out) 0 = idx state0 10) /\
  (length (DarkFlight_main_loop.time_jd out') = length State0 /\
   nth i (DarkFlight_main_loop.time_jd out') 0
   = last (DarkFlight_main.time_jd d') 0 /\
   nth i (DarkFlight_main_loop.pos_eci out') []
   = slice 0 3 (last (DarkFlight_main.X_all d') []) /\
   nth i (DarkFlight_main_loop.vel_eci out') []
   = slice 3 6 (last (DarkFlight_main.X_all d') []) /\
   nth i (DarkFlight_main_loop.mass out') 0
   = idx (last (DarkFlight_main.X_all d') []) 6 /\
   nth i (DarkFlight_main_loop.rho out') 0 = idx state0 8 /\
   nth i (DarkFlight_main_loop.shape out') 0 = idx state0 9 /\
   nth i (DarkFlight_main_loop.c_ml out') 0 = idx state0 10 /\
   nth i (DarkFlight_main_loop.fraction out') 0 = DarkFlight_main.fraction d').
Proof.
  intros Hi state0 d d' out out'.
  set (d0 := {| DFN_DarkFlight.time_jd := []; DFN_DarkFlight.X_all := [] |}).
  set (d0' := {| DarkFlight_main.time_jd := []; DarkFlight_main.X_all := [];
                 DarkFlight_main.fraction := 0 |}).
  split.
  - pose proof (DFN_runs_length tu af ou si gs elevation_data State0 args rng
                  hs_of 0) as HL.
    pose proof (DFN_runs_nth tu af ou si gs elevation_data State0 args rng
                  hs_of 0 i d0 Hi) as Hn.
    cbn [Nat.add] in Hn. fold state0 in Hn. fold d in Hn.
    destruct (DFN_Propagate_params tu af ou si gs elevation_data state0 args
                (fun k => rng (i * DFN_DarkFlight_loop.draws args + k)%nat)
                (hs_of i) 7 ltac:(lia)) as [Hne H7].
    destruct (DFN_Propagate_params tu af ou si gs elevation_data state0 args
                (fun k => rng (i * DFN_DarkFlight_loop.draws args + k)%nat)
                (hs_of i) 8 ltac:(lia)) as [_ H8].
    destruct (DFN_Propagate_params tu af ou si gs elevation_data state0 args
                (fun k => rng (i * DFN_DarkFlight_loop.draws args + k)%nat)
                (hs_of i) 9 ltac:(lia)) as [_ H9].
    fold d in Hne, H7, H8, H9. rewrite idx_skipn_1 in H7, H8, H9.
    unfold out, DFN_DarkFlight_loop.PropagateMultiple.
    cbn [DFN_DarkFlight_loop.time_jd DFN_DarkFlight_loop.pos_eci
         DFN_DarkFlight_loop.vel_eci DFN_DarkFlight_loop.mass
         DFN_DarkFlight_loop.rho DFN_DarkFlight_loop.shape
         DFN_DarkFlight_loop.c_ml].
    rewrite length_map, HL.
    rewrite !(nth_map_in _ _ i d0) by (rewrite HL; exact Hi).
    rewrite Hn.
    unfold DFN_DarkFlight.pos_eci, DFN_DarkFlight.vel_eci, DFN_DarkFlight.mass.
    rewrite !(last_map_nonempty _ _ ([] : vec)) by exact Hne.
    rewrite H7, H8, H9. repeat split; reflexivity.
  - pose proof (main_runs_length tu af ou si gs State0 args' hs_of 0) as HL.
    pose proof (main_runs_nth tu af ou si gs State0 args' hs_of 0 i d0' Hi)
      as Hn.
    cbn [Nat.add] in Hn. fold state0 in Hn. fold d' in Hn.
    destruct (main_Propagate_params tu af ou si gs state0 args' (hs_of i) 7
                ltac:(lia)) as [Hne H7].
    destruct (main_Propagate_params tu af ou si gs state0 args' (hs_of i) 8
                ltac:(lia)) as [_ H8].
    destruct (main_Propagate_params tu af ou si gs state0 args' (hs_of i) 9
                ltac:(lia)) as [_ H9].
    fold d' in Hne, H7, H8, H9. rewrite idx_skipn_1 in H7, H8, H9.
    unfold out', DarkFlight_main_loop.PropagateMultiple.
    cbn [DarkFlight_main_loop.time_jd DarkFlight_main_loop.pos_eci
         DarkFlight_main_loop.vel_eci DarkFlight_main_loop.mass
         DarkFlight_main_loop.rho DarkFlight_main_loop.shape
         DarkFlight_main_loop.c_ml DarkFlight_main_loop.fraction].
    rewrite length_map, HL.
    rewrite !(nth_map_in _ _ i d0') by (rewrite HL; exact Hi).
    rewrite Hn.
    rewrite !(last_map_nonempty _ _ ([] : vec)) by exact Hne.
    rewrite H7, H8, H9. repeat split; reflexivity.
Qed.

Lemma landing_states_witness :
  let out :=
    DFN_DarkFlight_loop.PropagateMultiple Sphere.tu Sphere.af Sphere.ou
      Sphere.si Sphere.gs Sphere.elevation_data
      [Inputs.inert_state0; Scenarios.dust_state0] Scenarios.dfn_args
      (fun _ => 0) (fun _ => [0.1]) in
  length (DFN_DarkFlight_loop.time_jd out) = 2%nat /\
  nth 1 (DFN_DarkFlight_loop.rho out) 0 = 3500 /\
  nth 1 (DFN_DarkFlight_loop.shape out) 0 = 1.21 /\
  nth 1 (DFN_DarkFlight_loop.c_ml out) 0 = 0.028e-6.
Proof.
  intros out.
  assert (Hi : (1 < length [Inputs.inert_state0; Scenarios.dust_state0])%nat)
    by (cbn; lia).
  destruct (landing_states Sphere.tu Sphere.af Sphere.ou Sphere.si Sphere.gs
              Sphere.elevation_data
              [Inputs.inert_state0; Scenarios.dust_state0] Scenarios.dfn_args
              (fun _ => 0) (fun _ => [0.1]) Scenarios.main_args 1 Hi)
    as [(HL & _ & _ & _ & _ & H7 & H8 & H9) _].
  fold out in HL, H7, H8, H9.
  split; [exact HL |]. split; [exact H7 |]. split; [exact H8 | exact H9].
Defined.

(** ** The initial velocity of InitialiseCFG *)

Lemma rho_aI_pos (h : R) :
  0 <= h -> 0 < -140.2 * exp (-0.000187 * h) + 141.4 * exp (-0.000186 * h).
Proof.
  intros Hh.
  assert (Hle : exp (-0.000187 * h) <= exp (-0.000186 * h)).
  { destruct (Req_dec h 0) as [-> | Hne].
    - rewrite !Rmult_0_r. lra.
    - left. apply exp_increasing. nra. }
  pose proof (exp_pos (-0.000186 * h)). lra.
Qed.

Lemma unit_ENU_norm (v z a : R) :
  norm [v * (sin z * sin a); v * (sin z * cos a); v * - cos z] = Rabs v.
Proof.
  apply norm_eq; [apply Rabs_pos |].
  replace (Rabs v * Rabs v) with (v * v)
    by (rewrite <- Rabs_mult; symmetry; apply Rabs_pos_eq; nra).
  cbn [sum_sq fold_right].
  pose proof (sq_sin_cos z) as Hz. pose proof (sq_sin_cos a) as Ha.
  transitivity
    (v * v * (sin z * sin z * (sin a * sin a + cos a * cos a)
              + cos z * cos z)); [ring |].
  rewrite Ha, Rmult_1_r, Hz. ring.
Qed.

Lemma column_Vel_ENU0 (vel zen azi : vec) (i : nat) :
  (i < length vel)%nat -> (i < length zen)%nat -> (i < length azi)%nat ->
  column (Vel_ENU0 vel zen azi) i
  = [ idx vel i * (sin (idx zen i) * sin (idx azi i));
      idx vel i * (sin (idx zen i) * cos (idx azi i));
      idx vel i * - cos (idx zen i) ].
Proof.
  intros Hv Hz Ha. unfold column, Vel_ENU0, idx. cbn [map].
  rewrite !(nth_zip_with Rmult _ _ i 0 0)
    by (rewrite ?length_zip_with, ?length_map; lia).
  rewrite !(nth_zip_with _ zen azi i 0 0) by lia.
  rewrite (nth_map_in (fun z => - cos z) zen i 0 0) by lia.
  reflexivity.
Qed.

(** X15: the Monte-Carlo velocity of InitialiseCFG in DarkFlight_main.py.
    For a particle drawn at a non-negative height, with c_s >= 0 and a
    positive bulk density: the fitted air density rho_aI is positive (so the
    square root of C_ltr is taken of a non-negative number); the speed after
    the lateral kick is |vel| sqrt(1 + c_s rho_aI / rho), never less than the
    speed drawn; for a zenith angle whose sine is not zero the argument of
    arcsin lies in [-1, 1]; and the initial velocity Vel_ENU0 of the particle
    has exactly that speed. *)
Theorem lateral_kick (c_s rho : R) (hei vel0 zen azi0 a_break : vec) (i : nat) :
  (i < length hei)%nat -> (i < length vel0)%nat -> (i < length zen)%nat ->
  (i < length azi0)%nat -> (i < length a_break)%nat ->
  0 <= idx hei i -> 0 <= c_s -> 0 < rho ->
  sin (idx zen i) <> 0 ->
  let r := idx (DarkFlight_main_init.rho_aI hei) i in
  let v := idx (DarkFlight_main_init.vel c_s rho hei vel0) i in
  let s := idx (DarkFlight_main_init.sinda c_s rho hei zen a_break) i in
  let azi := DarkFlight_main_init.azi c_s rho hei zen a_break azi0 in
  0 < r /\
  v = Rabs (idx vel0 i) * sqrt (1 + c_s * r / rho) /\
  Rabs (idx vel0 i) <= v /\
  -1 <= s <= 1 /\
  norm (column (Vel_ENU0 (DarkFlight_main_init.vel c_s rho hei vel0) zen azi) i)
  = v.
Proof.
  intros Hh Hv Hz Ha Hb Hpos Hcs Hrho Hsin r v s azi.
  assert (Hr : r = -140.2 * exp (-0.000187 * idx hei i)
                   + 141.4 * exp (-0.000186 * idx hei i)).
  { unfold r, DarkFlight_main_init.rho_aI, idx.
    rewrite (nth_map_in _ hei i 0 0) by exact Hh. reflexivity. }
  assert (Hr0 : 0 < r) by (rewrite Hr; apply rho_aI_pos; exact Hpos).
  assert (Hq : 0 <= c_s * r / rho).
  { apply Rmult_le_pos; [nra | left; apply Rinv_0_lt_compat; exact Hrho]. }
  assert (HC : idx (DarkFlight_main_init.C_ltr c_s rho hei) i
               = sqrt (c_s * r / rho)).
  { unfold DarkFlight_main_init.C_ltr, idx.
    rewrite (nth_map_in _ _ i 0 0)
      by (unfold DarkFlight_main_init.rho_aI; rewrite length_map; exact Hh).
    reflexivity. }
  assert (HlC : length (DarkFlight_main_init.C_ltr c_s rho hei) = length hei).
  { unfold DarkFlight_main_init.C_ltr, DarkFlight_main_init.rho_aI.
    rewrite !length_map. reflexivity. }
  assert (Hvl : idx (DarkFlight_main_init.v_ltr c_s rho hei vel0) i
                = idx vel0 i * sqrt (c_s * r / rho)).
  { unfold DarkFlight_main_init.v_ltr, idx.
    rewrite (nth_zip_with Rmult _ _ i 0 0) by lia.
    fold (idx (DarkFlight_main_init.C_ltr c_s rho hei) i). rewrite HC.
    reflexivity. }
  assert (Hlv : length (DarkFlight_main_init.v_ltr c_s rho hei vel0)
                = Nat.min (length vel0) (length hei)).
  { unfold DarkFlight_main_init.v_ltr. rewrite length_zip_with, HlC.
    reflexivity. }
  assert (Hv' : v = sqrt (idx vel0 i ^ 2
                          + (idx vel0 i * sqrt (c_s * r / rho)) ^ 2)).
  { unfold v, DarkFlight_main_init.vel, idx.
    rewrite (nth_zip_with _ _ _ i 0 0) by lia.
    fold (idx (DarkFlight_main_init.v_ltr c_s rho hei vel0) i). rewrite Hvl.
    reflexivity. }
  assert (Hveq : v = Rabs (idx vel0 i) * sqrt (1 + c_s * r / rho)).
  { rewrite Hv'.
    replace (idx vel0 i ^ 2 + (idx vel0 i * sqrt (c_s * r / rho)) ^ 2)
      with (Rsqr (idx vel0 i) * (1 + sqrt (c_s * r / rho) * sqrt (c_s * r / rho)))
      by (unfold Rsqr; ring).
    rewrite sqrt_sqrt by exact Hq.
    rewrite sqrt_mult; [| apply Rle_0_sqr | lra].
    rewrite sqrt_Rsqr_abs. reflexivity. }
  assert (Hs1 : 1 <= sqrt (1 + c_s * r / rho)).
  { rewrite <- sqrt_1 at 1. apply sqrt_le_1; lra. }
  assert (Hvge : Rabs (idx vel0 i) <= v).
  { rewrite Hveq. pose proof (Rabs_pos (idx vel0 i)). nra. }
  split; [exact Hr0 |]. split; [exact Hveq |]. split; [exact Hvge |].
  split.
  - unfold s, DarkFlight_main_init.sinda, idx.
    rewrite (nth_zip_with _ _ zen i 0 0)
      by (rewrite ?length_zip_with, ?HlC; lia).
    set (ca := nth i (zip_with _ _ a_break) 0).
    set (sz := sin (nth i zen 0)).
    assert (Hsz : sz <> 0) by exact Hsin.
    assert (HD : 0 < sqrt (sz ^ 2 + ca ^ 2)).
    { apply sqrt_lt_R0. assert (0 < sz * sz) by nra. nra. }
    assert (Hca : Rabs ca <= sqrt (sz ^ 2 + ca ^ 2)).
    { rewrite <- (sqrt_Rsqr_abs ca). apply sqrt_le_1; unfold Rsqr; nra. }
    assert (Hbd : Rabs (ca / sqrt (sz ^ 2 + ca ^ 2)) <= 1).
    { unfold Rdiv. rewrite Rabs_mult.
      rewrite (Rabs_pos_eq (/ _)) by (left; apply Rinv_0_lt_compat; exact HD).
      apply (Rmult_le_reg_r (sqrt (sz ^ 2 + ca ^ 2))); [exact HD |].
      rewrite Rmult_assoc, Rinv_l by lra. lra. }
    revert Hbd. unfold Rabs. destruct (Rcase_abs _); lra.
  - assert (Hlvel : length (DarkFlight_main_init.vel c_s rho hei vel0)
                    = Nat.min (length vel0) (Nat.min (length vel0) (length hei))).
    { unfold DarkFlight_main_init.vel. rewrite length_zip_with, Hlv.
      reflexivity. }
    assert (Hlazi : (i < length azi)%nat).
    { unfold azi, DarkFlight_main_init.azi, DarkFlight_main_init.d_azimuth,
        DarkFlight_main_init.sinda, vadd.
      rewrite !length_zip_with, length_map, !length_zip_with, HlC. lia. }
    rewrite column_Vel_ENU0 by (rewrite ?Hlvel; lia).
    fold v. rewrite unit_ENU_norm. apply Rabs_pos_eq.
    pose proof (Rabs_pos (idx vel0 i)). lra.
Qed.

Lemma lateral_kick_witness :
  let r := idx (DarkFlight_main_init.rho_aI [20000]) 0 in
  let v := idx (DarkFlight_main_init.vel 1 3500 [20000] [3000]) 0 in
  let s :=
    idx (DarkFlight_main_init.sinda 1 3500 [20000] [PI / 2] [PI / 2]) 0 in
  let azi := DarkFlight_main_init.azi 1 3500 [20000] [PI / 2] [PI / 2] [0] in
  0 < r /\
  v = Rabs (idx [3000] 0) * sqrt (1 + 1 * r / 3500) /\
  Rabs (idx [3000] 0) <= v /\
  -1 <= s <= 1 /\
  norm (column (Vel_ENU0 (DarkFlight_main_init.vel 1 3500 [20000] [3000])
                  [PI / 2] azi) 0) = v.
Proof.
  apply (lateral_kick 1 3500 [20000] [3000] [PI / 2] [0] [PI / 2] 0);
    cbn [length idx nth]; try lia; try lra.
  rewrite sin_PI2. lra.
Defined.

(** ** The Monte-Carlo masses of InitialiseCFG *)

Lemma nth_truncnorm_rvs (loc scale : R) (size : nat) (z : RNG) (i : nat) :
  (i < size)%nat ->
  nth i (truncnorm_rvs loc scale size z) 0 = loc + scale * z i.
Proof.
  intros Hi. unfold truncnorm_rvs.
  apply (nth_map_seq (fun i => loc + scale * z i)). exact Hi.
Qed.

(** X16: the masses InitialiseCFG draws in Monte-Carlo mode.  In
    DarkFlight_main.py, with m_sigma > 0 and draws of the truncated law in
    [0, b_m], every mass lies between m_min and m_max.  In DFN_DarkFlight.py
    the law is truncated to [0, inf), so with a positive scale no drawn mass
    is below the nominal mass and no drawn bulk density below the nominal
    density: the nominal values are the lower ends of the samples, not their
    centres. *)
Theorem truncated_masses (m_min m_max m_sigma M0 rho0 rho_err : R)
    (d : DFN_DarkFlight_masses.dmass) (mc : nat) (z : RNG) (i : nat) :
  (i < mc)%nat ->
  (0 < m_sigma ->
   (forall k, 0 <= z k <= DarkFlight_main_masses.b_m m_min m_max m_sigma) ->
   length (DarkFlight_main_masses.M m_min m_sigma mc z) = mc /\
   m_min <= nth i (DarkFlight_main_masses.M m_min m_sigma mc z) 0 <= m_max) /\
  (0 < DFN_DarkFlight_masses.m_err M0 d -> 0 < rho_err ->
   (forall k, 0 <= z k) ->
   length (DFN_DarkFlight_masses.M M0 d mc z) = mc /\
   M0 <= nth i (DFN_DarkFlight_masses.M M0 d mc z) 0 /\
   rho0 <= nth i (DFN_DarkFlight_masses.rho rho0 rho_err mc z) 0).
Proof.
  intros Hi. split.
  - intros Hs Hz. unfold DarkFlight_main_masses.M.
    split; [unfold truncnorm_rvs; rewrite length_map, length_seq; reflexivity |].
    rewrite nth_truncnorm_rvs by exact Hi.
    destruct (Hz i) as [H0 Hb]. unfold DarkFlight_main_masses.b_m in Hb.
    assert (Hmul : m_sigma * z i <= m_max - m_min).
    { apply (Rmult_le_compat_l m_sigma) in Hb; [| lra].
      replace (m_sigma * ((m_max - m_min) / m_sigma)) with (m_max - m_min)
        in Hb by (field; lra).
      exact Hb. }
    split; [nra | lra].
  - intros Hm Hr Hz.
    unfold DFN_DarkFlight_masses.M, DFN_DarkFlight_masses.rho.
    split; [unfold truncnorm_rvs; rewrite length_map, length_seq; reflexivity |].
    rewrite !nth_truncnorm_rvs by exact Hi.
    pose proof (Hz i). split; nra.
Qed.

Lemma truncated_masses_witness :
  (length (DarkFlight_main_masses.M 1 0.5 2 (fun _ => 1)) = 2%nat /\
   1 <= nth 0 (DarkFlight_main_masses.M 1 0.5 2 (fun _ => 1)) 0 <= 2) /\
  (length (DFN_DarkFlight_masses.M 1 (DFN_DarkFlight_masses.percent 10) 2
             (fun _ => 1)) = 2%nat /\
   1 <= nth 0 (DFN_DarkFlight_masses.M 1 (DFN_DarkFlight_masses.percent 10) 2
                 (fun _ => 1)) 0 /\
   3500 <= nth 0 (DFN_DarkFlight_masses.rho 3500 100 2 (fun _ => 1)) 0).
Proof.
  assert (Hi : (0 < 2)%nat) by lia.
  destruct (truncated_masses 1 2 0.5 1 3500 100
              (DFN_DarkFlight_masses.percent 10) 2 (fun _ => 1) 0 Hi)
    as [Hmain Hdfn].
  split.
  - apply Hmain; [lra |]. intros _. unfold DarkFlight_main_masses.b_m. lra.
  - apply Hdfn; [cbn; lra | lra | intros _; lra].
Defined.

(** ** The initial speed *)

Lemma unit_sphere_norm (v a d : R) :
  norm [v * (cos a * cos d); v * (sin a * cos d); v * sin d] = Rabs v.
Proof.
  apply norm_eq; [apply Rabs_pos |].
  replace (Rabs v * Rabs v) with (v * v)
    by (rewrite <- Rabs_mult; symmetry; apply Rabs_pos_eq; nra).
  cbn [sum_sq fold_right].
  pose proof (sq_sin_cos a) as Ha. pose proof (sq_sin_cos d) as Hd.
  transitivity
    (v * v * (cos d * cos d * (sin a * sin a + cos a * cos a)
              + sin d * sin d)); [ring |].
  rewrite Ha, Rmult_1_r.
  replace (cos d * cos d + sin d * sin d) with 1 by lra. ring.
Qed.

(** X17: the speed of the initial velocity is the speed that was given.  In
    InitialiseCFG (both scripts) the velocity of particle i in the local
    east-north-up frame has length |vel_i| and the vertical component
    -vel_i cos(zen_i).  In Initialise of DFN_DarkFlight.py, for a fitted
    speed model, the velocity has length |vel| whether its direction comes
    from the radiant of the metadata or, when that is missing, from the last
    two positions (which must differ); without the speed column, or without
    both the radiant and a second row, no velocity is returned. *)
Theorem initial_speed (vel zen azi : vec) (i : nat)
    (ra_inf dec_inf v : option R) (Pos_ECEF0 : vec) (Pos_ECEF1 : option vec) :
  (i < length vel)%nat -> (i < length zen)%nat -> (i < length azi)%nat ->
  length Pos_ECEF0 = 3%nat ->
  match Pos_ECEF1 with
  | Some P1 => length P1 = 3%nat /\ norm (vsub Pos_ECEF0 P1) <> 0
  | None => True
  end ->
  (length (column (Vel_ENU0 vel zen azi) i) = 3%nat /\
   norm (column (Vel_ENU0 vel zen azi) i) = Rabs (idx vel i) /\
   idx (column (Vel_ENU0 vel zen azi) i) 2 = - (idx vel i * cos (idx zen i))) /\
  match v with
  | None =>
      DFN_DarkFlight_init.Vel_ECEF0 ra_inf dec_inf v Pos_ECEF0 Pos_ECEF1 = None
  | Some s =>
      if match ra_inf, dec_inf, Pos_ECEF1 with
         | Some _, Some _, _ => true
         | _, _, Some _ => true
         | _, _, None => false
         end
      then
        exists V,
          DFN_DarkFlight_init.Vel_ECEF0 ra_inf dec_inf v Pos_ECEF0 Pos_ECEF1
          = Some V /\ length V = 3%nat /\ norm V = Rabs s
      else
        DFN_DarkFlight_init.Vel_ECEF0 ra_inf dec_inf v Pos_ECEF0 Pos_ECEF1
        = None
  end.
Proof.
  intros Hv Hz Ha HP0 HP1. split.
  - rewrite column_Vel_ENU0 by assumption.
    split; [reflexivity |]. split; [apply unit_ENU_norm |].
    cbn [idx nth]. ring.
  - assert (Hrad : forall s P1,
              length P1 = 3%nat -> norm (vsub Pos_ECEF0 P1) <> 0 ->
              exists V,
                Some (map (fun x => s * x)
                        (map (fun x => x / norm (vsub Pos_ECEF0 P1))
                             (vsub Pos_ECEF0 P1))) = Some V
                /\ length V = 3%nat /\ norm V = Rabs s).
    { intros s P1 HL Hn. eexists. split; [reflexivity |].
      destruct Pos_ECEF0 as [|p0 [|p1 [|p2 [|? ?]]]]; try discriminate.
      destruct P1 as [|q0 [|q1 [|q2 [|? ?]]]]; try discriminate.
      cbn [vsub zip_with map length] in *. split; [reflexivity |].
      set (n := norm [p0 - q0; p1 - q1; p2 - q2]) in *.
      replace [s * ((p0 - q0) / n); s * ((p1 - q1) / n); s * ((p2 - q2) / n)]
        with [s / n * (p0 - q0); s / n * (p1 - q1); s / n * (p2 - q2)]
        by (unfold Rdiv; f_equal; [ring | f_equal; [ring | f_equal; ring]]).
      rewrite norm3_scale. fold n.
      unfold Rdiv. rewrite Rabs_mult, Rabs_inv.
      assert (Hn0 : 0 <= n) by apply norm_nonneg.
      rewrite (Rabs_pos_eq n) by exact Hn0. field. exact Hn. }
    destruct v as [s |].
    + destruct ra_inf as [ra |]; destruct dec_inf as [dec |];
        destruct Pos_ECEF1 as [P1 |];
        cbn [DFN_DarkFlight_init.Vel_ECEF0];
        try reflexivity;
        try (apply Hrad; [exact (proj1 HP1) | exact (proj2 HP1)]).
      * eexists. split; [reflexivity |]. split; [reflexivity |].
        cbn [map]. rewrite (unit_sphere_norm (- s)). apply Rabs_Ropp.
      * eexists. split; [reflexivity |]. split; [reflexivity |].
        cbn [map]. rewrite (unit_sphere_norm (- s)). apply Rabs_Ropp.
    + destruct ra_inf; destruct dec_inf; destruct Pos_ECEF1;
        reflexivity.
Qed.

Lemma initial_speed_witness :
  (length (column (Vel_ENU0 [3000] [PI / 4] [0]) 0) = 3%nat /\
   norm (column (Vel_ENU0 [3000] [PI / 4] [0]) 0) = Rabs 3000 /\
   idx (column (Vel_ENU0 [3000] [PI / 4] [0]) 0) 2
   = - (3000 * cos (PI / 4))) /\
  exists V,
    DFN_DarkFlight_init.Vel_ECEF0 None None (Some 3000) [0; 0; 6401000]
      (Some [0; 0; 6402000]) = Some V
    /\ length V = 3%nat /\ norm V = Rabs 3000.
Proof.
  apply (initial_speed [3000] [PI / 4] [0] 0 None None (Some 3000)
           [0; 0; 6401000] (Some [0; 0; 6402000]));
    cbn [length]; try lia; try reflexivity.
  split; [reflexivity |].
  cbn [vsub zip_with]. apply norm3_nonzero. lra.
Defined.

(** ** The particles of InitialiseMC *)

(** X18: the particles InitialiseMC draws.  With samples of the unit
    interval [0, 1) and a float mass, mc masses are drawn: for a positive
    mass and a mass error e >= 0 every one lies between mass (1 - e) and
    mass (1 + e), for mass 0.0 every one lies in [0.01, 10) kg.  Without a
    mass the function raises before any mass is drawn, unless mc = 16, the
    number of particles Initialise makes then; for mc = 16 the masses lie
    in [0.01, 10) kg.  The velocity of particle i has the speed |vel_eci_i|
    that was drawn for it. *)
Theorem monte_carlo_particles (mass : option R) (mass_err : R) (mc : nat)
    (rng : RNG) (vel_eci ra_eci dec_eci : vec) (i : nat) :
  (forall k, 0 <= rng k < 1) -> 0 <= mass_err -> (i < mc)%nat ->
  (i < length vel_eci)%nat -> (i < length ra_eci)%nat ->
  (i < length dec_eci)%nat ->
  match mass with
  | Some m =>
      exists Ms,
        DFN_DarkFlight_MC.M mass mass_err mc rng = Some Ms /\
        length Ms = mc /\
        (0 < m -> m * (1 - mass_err) <= nth i Ms 0 <= m * (1 + mass_err)) /\
        (m = 0 -> 0.01 <= nth i Ms 0 < 10)
  | None =>
      (mc <> 16%nat -> DFN_DarkFlight_MC.M mass mass_err mc rng = None) /\
      (mc = 16%nat ->
       exists Ms,
         DFN_DarkFlight_MC.M mass mass_err mc rng = Some Ms /\
         length Ms = 16%nat /\ 0.01 <= nth i Ms 0 < 10)
  end /\
  norm (column (DFN_DarkFlight_MC.Vel_ECI0 vel_eci ra_eci dec_eci) i)
  = Rabs (idx vel_eci i).
Proof.
  intros Hrng He Hi Hv Hra Hdec.
  assert (Hdef : forall r,
            0 <= r < 1 -> 0.01 <= 0.01 + (10 - 0.01) * r < 10) by (intros; nra).
  split.
  - unfold DFN_DarkFlight_MC.M, DFN_DarkFlight_MC.truthy,
      DFN_DarkFlight_MC.broadcasts, DFN_DarkFlight_MC.Initialise_particles.
    destruct mass as [m |].
    + cbn [Nat.eqb orb].
      destruct (Req_dec_T m 0) as [Hz | Hnz]; eexists;
        (split; [reflexivity |]); (split; [apply length_uniform |]);
        rewrite nth_uniform by exact Hi.
      * split; [lra |]. intros _. apply Hdef, Hrng.
      * split; [| contradiction].
        intros Hm. destruct (Hrng i) as [Hr0 Hr1].
        assert (Hd : 0 <= m * (1 + mass_err) - m * (1 - mass_err)) by nra.
        remember (m * (1 + mass_err) - m * (1 - mass_err)) as w eqn:Hw.
        assert (0 <= w * rng i) by (apply Rmult_le_pos; assumption).
        assert (w * rng i <= w * 1)
          by (apply Rmult_le_compat_l; [exact Hd | lra]).
        lra.
    + change (Nat.eqb 16 1) with false. cbn [orb]. split.
      * intros Hmc.
        destruct (Nat.eqb_spec 16 mc) as [E | _]; [congruence | reflexivity].
      * intros Hmc. subst mc. change (Nat.eqb 16 16) with true. cbv iota.
        eexists.
        split; [reflexivity |]. split; [apply length_uniform |].
        rewrite nth_uniform by exact Hi. apply Hdef, Hrng.
  - unfold column, DFN_DarkFlight_MC.Vel_ECI0, idx. cbn [map].
    rewrite !(nth_zip_with Rmult _ _ i 0 0)
      by (rewrite ?length_zip_with, ?length_map; lia).
    rewrite !(nth_zip_with _ ra_eci dec_eci i 0 0) by lia.
    rewrite (nth_map_in sin dec_eci i 0 0) by lia.
    apply unit_sphere_norm.
Qed.

Lemma monte_carlo_particles_witness :
  (exists Ms,
     DFN_DarkFlight_MC.M (Some 2) 0.1 3 (fun _ => 0.5) = Some Ms /\
     length Ms = 3%nat /\
     (0 < 2 -> 2 * (1 - 0.1) <= nth 1 Ms 0 <= 2 * (1 + 0.1)) /\
     (2 = 0 -> 0.01 <= nth 1 Ms 0 < 10)) /\
  DFN_DarkFlight_MC.M None 0.1 3 (fun _ => 0.5) = None /\
  norm (column (DFN_DarkFlight_MC.Vel_ECI0 [100; 200] [0; 1] [0; 1]) 1)
  = Rabs (idx [100; 200] 1).
Proof.
  assert (Hrng : forall k : nat, 0 <= (fun _ : nat => 0.5) k < 1)
    by (intros _; cbv beta; lra).
  assert (He : 0 <= 0.1) by lra.
  destruct (monte_carlo_particles (Some 2) 0.1 3 (fun _ => 0.5)
              [100; 200] [0; 1] [0; 1] 1 Hrng He
              ltac:(cbn [length]; lia) ltac:(cbn [length]; lia)
              ltac:(cbn [length]; lia) ltac:(cbn [length]; lia))
    as [HS HV].
  destruct (monte_carlo_particles None 0.1 3 (fun _ => 0.5)
              [100; 200] [0; 1] [0; 1] 1 Hrng He
              ltac:(cbn [length]; lia) ltac:(cbn [length]; lia)
              ltac:(cbn [length]; lia) ltac:(cbn [length]; lia))
    as [[HN _] _].
  split; [exact HS |]. split; [apply HN; lia | exact HV].
Defined.

(** ** random_perpendicular_unit_vector *)

Lemma norm_normalised3 (x y z : R) :
  norm [x; y; z] <> 0 ->
  norm [x / norm [x; y; z]; y / norm [x; y; z]; z / norm [x; y; z]] = 1.
Proof.
  intros Hn. set (n := norm [x; y; z]) in *.
  replace [x / n; y / n; z / n] with [/ n * x; / n * y; / n * z]
    by (unfold Rdiv; f_equal; [ring | f_equal; [ring | f_equal; ring]]).
  rewrite norm3_scale. fold n.
  assert (Hn0 : 0 <= n) by apply norm_nonneg.
  rewrite Rabs_inv, (Rabs_pos_eq n) by exact Hn0. field. exact Hn.
Qed.

Lemma sum_sq_pos_norm (v : vec) : 0 < sum_sq v -> norm v <> 0.
Proof.
  intros Hs Hn. pose proof (norm_sq v) as Hq. rewrite Hn in Hq. lra.
Qed.

Lemma norm_nonzero_sum_sq (v : vec) : norm v <> 0 -> 0 < sum_sq v.
Proof.
  intros Hn. pose proof (sum_sq_nonneg v) as H0.
  destruct (Req_dec (sum_sq v) 0) as [Hz | Hnz]; [| lra].
  exfalso. apply Hn. unfold norm. rewrite Hz. apply sqrt_0.
Qed.

(** X19: for a non-zero 3-vector a and three samples b that are not parallel
    to a, random_perpendicular_unit_vector returns a vector of length 1 that
    is perpendicular to a, and it takes exactly three samples from the
    generator. *)
Theorem random_unit_vector_is_perpendicular (a : vec) (rng : RNG) :
  length a = 3%nat -> norm a <> 0 ->
  let b := fst (uniform 0 1 3 rng) in
  norm (vsub b (map (fun x => dot b a * x / norm a ^ 2) a)) <> 0 ->
  let out := random_perpendicular_unit_vector a rng in
  length (fst out) = 3%nat /\
  norm (fst out) = 1 /\
  dot (fst out) a = 0 /\
  forall k, snd out k = rng (3 + k)%nat.
Proof.
  intros Ha Hna b Hb out.
  destruct a as [|a0 [|a1 [|a2 [|? ?]]]]; try discriminate.
  assert (HN : 0 < sum_sq [a0; a1; a2]) by (apply norm_nonzero_sum_sq; exact Hna).
  assert (Hn2 : norm [a0; a1; a2] ^ 2 = a0 * a0 + a1 * a1 + a2 * a2).
  { replace (norm [a0; a1; a2] ^ 2)
      with (norm [a0; a1; a2] * norm [a0; a1; a2]) by ring.
    rewrite norm_sq. cbn [sum_sq fold_right]. ring. }
  cbn [sum_sq fold_right] in HN.
  unfold out, random_perpendicular_unit_vector.
  unfold uniform in *. cbn [fst seq map] in b.
  cbn [seq map fst snd].
  set (b0 := 0 + (1 - 0) * rng 0%nat) in *.
  set (b1 := 0 + (1 - 0) * rng 1%nat) in *.
  set (b2 := 0 + (1 - 0) * rng 2%nat) in *.
  subst b. rewrite Hn2 in *.
  cbn [map vsub zip_with dot fold_right] in *.
  set (N := a0 * a0 + a1 * a1 + a2 * a2) in *.
  set (ba := b0 * a0 + (b1 * a1 + (b2 * a2 + 0))) in *.
  set (c0 := b0 - ba * a0 / N) in *.
  set (c1 := b1 - ba * a1 / N) in *.
  set (c2 := b2 - ba * a2 / N) in *.
  set (m := norm [c0; c1; c2]) in *.
  cbn [idx nth].
  assert (Hac : a0 * c0 + a1 * c1 + a2 * c2 = 0).
  { unfold c0, c1, c2, ba, N. field. lra. }
  assert (Hm2 : m * m = c0 * c0 + c1 * c1 + c2 * c2).
  { unfold m. rewrite norm_sq. cbn [sum_sq fold_right]. ring. }
  assert (Hm0 : 0 < m).
  { pose proof (norm_nonneg [c0; c1; c2]) as H0. fold m in H0. lra. }
  unfold cross. cbn [idx nth].
  set (x := a1 * (c2 / m) - a2 * (c1 / m)).
  set (y := a2 * (c0 / m) - a0 * (c2 / m)).
  set (z := a0 * (c1 / m) - a1 * (c0 / m)).
  assert (Hxyz : x * x + y * y + z * z = N).
  { assert (Hl : m * m * (x * x + y * y + z * z)
                 = N * (c0 * c0 + c1 * c1 + c2 * c2)
                   - (a0 * c0 + a1 * c1 + a2 * c2) ^ 2).
    { unfold x, y, z, N. field. lra. }
    rewrite Hac, <- Hm2 in Hl.
    apply (Rmult_eq_reg_l (m * m)); [rewrite Hl; ring | nra]. }
  assert (Hc : norm [x; y; z] <> 0).
  { apply sum_sq_pos_norm. cbn [sum_sq fold_right]. unfold N in Hxyz. lra. }
  split; [reflexivity |]. split; [apply norm_normalised3; exact Hc |].
  split.
  - cbn [map dot zip_with fold_right]. unfold x, y, z. unfold Rdiv. ring.
  - intros k. reflexivity.
Qed.

Lemma random_unit_vector_is_perpendicular_witness :
  let out := random_perpendicular_unit_vector [1; 0; 0] (fun k => INR k / 4) in
  length (fst out) = 3%nat /\
  norm (fst out) = 1 /\
  dot (fst out) [1; 0; 0] = 0 /\
  forall k, snd out k = INR (3 + k) / 4.
Proof.
  apply (random_unit_vector_is_perpendicular [1; 0; 0] (fun k => INR k / 4));
    [reflexivity | rewrite norm_axis by lra; lra |].
  unfold uniform. cbn [fst seq map vsub zip_with dot fold_right INR].
  apply norm3_nonzero. rewrite norm_axis by lra. lra.
Defined.

(** ** The interpolation of the forecast in time *)

Lemma searchsorted_le (a : list R) (v : R) :
  (df_functions_wind.searchsorted a v <= length a)%nat.
Proof.
  induction a as [|x a IH]; cbn [df_functions_wind.searchsorted length];
    [lia |].
  destruct (Rlt_b x v); lia.
Qed.

Lemma searchsorted_below (a : list R) (v : R) (i : nat) :
  (i < df_functions_wind.searchsorted a v)%nat -> nth i a 0 < v.
Proof.
  revert i. induction a as [|x a IH]; intros i;
    cbn [df_functions_wind.searchsorted]; [lia |].
  destruct (Rlt_b_spec x v) as [Hlt | Hge]; [| lia].
  destruct i as [|i]; intros Hi; [exact Hlt |].
  cbn [nth]. apply IH. lia.
Qed.

Lemma searchsorted_at (a : list R) (v : R) :
  (df_functions_wind.searchsorted a v < length a)%nat ->
  v <= nth (df_functions_wind.searchsorted a v) a 0.
Proof.
  induction a as [|x a IH]; cbn [df_functions_wind.searchsorted length];
    [lia |].
  destruct (Rlt_b_spec x v) as [Hlt | Hge]; intros Hl.
  - cbn [nth]. apply IH. lia.
  - cbn [nth]. lra.
Qed.

Lemma last_nth (l : list R) : last l 0 = nth (length l - 1) l 0.
Proof.
  induction l as [|x l IH]; [reflexivity |].
  destruct l as [|y l]; [reflexivity |].
  change (last (x :: y :: l) 0) with (last (y :: l) 0).
  rewrite IH. cbn [length].
  replace (S (S (length l)) - 1)%nat with (S (S (length l) - 1)) by lia.
  reflexivity.
Qed.

Lemma StronglySorted_nth_lt (l : list R) :
  StronglySorted Rlt l ->
  forall i j, (i < j < length l)%nat -> nth i l 0 < nth j l 0.
Proof.
  induction 1 as [|x l Hs IH Hall]; intros i j Hij; cbn [length] in Hij;
    [lia |].
  destruct j as [|j]; [lia |].
  destruct i as [|i]; cbn [nth].
  - rewrite Forall_forall in Hall. apply Hall. apply nth_In. lia.
  - apply IH. lia.
Qed.

Lemma py_index_nat (l : list R) (i : nat) :
  (i < length l)%nat ->
  df_functions_wind.py_index l (Z.of_nat i) = Some (nth i l 0).
Proof.
  intros Hi. unfold df_functions_wind.py_index.
  destruct (Z.leb_spec 0 (Z.of_nat i)); [| lia].
  destruct (Z.ltb_spec (Z.of_nat i) (Z.of_nat (length l))); [| lia].
  cbn [andb]. rewrite Nat2Z.id. reflexivity.
Qed.

Lemma py_index_last (l : list R) :
  l <> [] -> df_functions_wind.py_index l (-1) = Some (last l 0).
Proof.
  intros Hl. unfold df_functions_wind.py_index.
  assert (Hlen : (0 < length l)%nat)
    by (destruct l; [contradiction Hl; reflexivity | cbn; lia]).
  change (0 <=? -1)%Z with false. cbn [andb].
  destruct (Z.leb_spec (- Z.of_nat (length l)) (-1)); [| lia].
  change (-1 <? 0)%Z with true. cbn [andb].
  rewrite last_nth. do 2 f_equal. lia.
Qed.

Lemma py_index_overflow (l : list R) :
  df_functions_wind.py_index l (Z.of_nat (length l)) = None.
Proof.
  unfold df_functions_wind.py_index.
  destruct (Z.ltb_spec (Z.of_nat (length l)) (Z.of_nat (length l))); [lia |].
  rewrite andb_false_r.
  destruct (Z.ltb_spec (Z.of_nat (length l)) 0); [lia |].
  rewrite andb_false_r. reflexivity.
Qed.

(** X20: for a darkflight time t0 after the first and not after the last
    time of the forecast, WindDataExtraction interpolates between two
    consecutive snapshots k and k+1 whose times bracket t0
    (t_k < t0 <= t_k+1), with a factor in (0, 1], and prints no warning. *)
Theorem wind_time_bracket (times_jd : list R) (snapshot : Z -> Grid) (t0 : R) :
  StronglySorted Rlt times_jd ->
  nth 0 times_jd 0 < t0 -> t0 <= last times_jd 0 ->
  exists (k : nat) (e : df_functions_wind.Extraction),
    df_functions_wind.WindDataExtraction times_jd snapshot t0 = Some e /\
    (S k < length times_jd)%nat /\
    nth k times_jd 0 < t0 <= nth (S k) times_jd 0 /\
    df_functions_wind.interp_factor e
    = (t0 - nth k times_jd 0) / (nth (S k) times_jd 0 - nth k times_jd 0) /\
    0 < df_functions_wind.interp_factor e <= 1 /\
    df_functions_wind.warned e = false /\
    df_functions_wind.WindArray e
    = zip_with
        (zip_with (fun w0 w1 =>
                     (1 - df_functions_wind.interp_factor e) * w0
                     + df_functions_wind.interp_factor e * w1))
        (snapshot (Z.of_nat k)) (snapshot (Z.of_nat (S k))).
Proof.
  intros Hsorted Hfirst Hlast.
  set (s := df_functions_wind.searchsorted times_jd t0).
  assert (Hne : times_jd <> []).
  { intros ->. cbn in Hfirst, Hlast. lra. }
  assert (Hs1 : (1 <= s)%nat).
  { unfold s. destruct times_jd as [|x l]; [contradiction Hne; reflexivity |].
    cbn [df_functions_wind.searchsorted nth] in *.
    rewrite Rlt_b_true by exact Hfirst. lia. }
  assert (Hs2 : (s < length times_jd)%nat).
  { pose proof (searchsorted_le times_jd t0) as Hle. fold s in Hle.
    destruct (Nat.eq_dec s (length times_jd)) as [Heq | Hneq]; [| lia].
    exfalso.
    assert (Hb : nth (length times_jd - 1) times_jd 0 < t0)
      by (apply searchsorted_below; fold s; lia).
    rewrite <- last_nth in Hb. lra. }
  assert (Hb : nth (s - 1) times_jd 0 < t0)
    by (apply searchsorted_below; fold s; lia).
  assert (Ha : t0 <= nth s times_jd 0)
    by (apply searchsorted_at; exact Hs2).
  set (f := (t0 - nth (s - 1) times_jd 0)
            / (nth s times_jd 0 - nth (s - 1) times_jd 0)).
  assert (Hf : 0 < f <= 1).
  { unfold f. split.
    - apply Rdiv_lt_0_compat; lra.
    - apply (Rmult_le_reg_r (nth s times_jd 0 - nth (s - 1) times_jd 0));
        [lra |].
      unfold Rdiv. rewrite Rmult_assoc, Rinv_l by lra. lra. }
  exists (s - 1)%nat.
  replace (S (s - 1)) with s by lia.
  eexists. split.
  - unfold df_functions_wind.WindDataExtraction. fold s.
    replace (Z.of_nat s - 1)%Z with (Z.of_nat (s - 1)) by lia.
    rewrite (py_index_nat times_jd (s - 1)) by lia.
    rewrite (py_index_nat times_jd s) by exact Hs2.
    reflexivity.
  - cbn [df_functions_wind.interp_factor df_functions_wind.warned
         df_functions_wind.WindArray].
    fold f.
    split; [exact Hs2 |]. split; [split; assumption |].
    split; [reflexivity |]. split; [exact Hf |].
    split; [| reflexivity].
    rewrite Rlt_b_false by lra. rewrite Rlt_b_false by lra. reflexivity.
Qed.

Lemma wind_time_bracket_witness :
  exists (k : nat) (e : df_functions_wind.Extraction),
    df_functions_wind.WindDataExtraction [10; 11; 12]
      (fun i => [[IZR i]]) 11.5 = Some e /\
    (S k < 3)%nat /\
    nth k [10; 11; 12] 0 < 11.5 <= nth (S k) [10; 11; 12] 0 /\
    df_functions_wind.interp_factor e
    = (11.5 - nth k [10; 11; 12] 0)
      / (nth (S k) [10; 11; 12] 0 - nth k [10; 11; 12] 0) /\
    0 < df_functions_wind.interp_factor e <= 1 /\
    df_functions_wind.warned e = false /\
    df_functions_wind.WindArray e
    = zip_with
        (zip_with (fun w0 w1 =>
                     (1 - df_functions_wind.interp_factor e) * w0
                     + df_functions_wind.interp_factor e * w1))
        [[IZR (Z.of_nat k)]] [[IZR (Z.of_nat (S k))]].
Proof.
  apply (wind_time_bracket [10; 11; 12] (fun i => [[IZR i]]) 11.5).
  - repeat constructor; lra.
  - cbn [nth]. lra.
  - cbn [last]. lra.
Defined.

(** X21: outside the times of the forecast.  For t0 after the last time the
    subscript times_jd[idx_after] is out of range and no array is returned.
    For t0 before the first of at least two increasing times, idx_before is
    -1: the factor is computed from the last and the first time, it is
    greater than 1, the warning is printed, and the array is extrapolated
    from the snapshots read at the time indices -1 and 0. *)
Theorem wind_time_outside (times_jd : list R) (snapshot : Z -> Grid) (t0 : R) :
  StronglySorted Rlt times_jd -> (2 <= length times_jd)%nat ->
  (last times_jd 0 < t0 ->
   df_functions_wind.WindDataExtraction times_jd snapshot t0 = None) /\
  (t0 < nth 0 times_jd 0 ->
   exists e : df_functions_wind.Extraction,
     df_functions_wind.WindDataExtraction times_jd snapshot t0 = Some e /\
     df_functions_wind.interp_factor e
     = (t0 - last times_jd 0) / (nth 0 times_jd 0 - last times_jd 0) /\
     1 < df_functions_wind.interp_factor e /\
     df_functions_wind.warned e = true /\
     df_functions_wind.WindArray e
     = zip_with
         (zip_with (fun w0 w1 =>
                      (1 - df_functions_wind.interp_factor e) * w0
                      + df_functions_wind.interp_factor e * w1))
         (snapshot (-1)%Z) (snapshot 0%Z)).
Proof.
  intros Hsorted Hlen.
  assert (Hne : times_jd <> []) by (intros ->; cbn in Hlen; lia).
  assert (Hfl : nth 0 times_jd 0 < last times_jd 0).
  { destruct times_jd as [|x [|y l]]; cbn [length] in Hlen; try lia.
    cbn [nth]. apply StronglySorted_inv in Hsorted.
    destruct Hsorted as [_ Hall].
    rewrite Forall_forall in Hall. apply Hall.
    change (last (x :: y :: l) 0) with (last (y :: l) 0).
    destruct (exists_last (l := y :: l)) as (l' & z & Hz); [discriminate |].
    rewrite Hz, last_last. apply in_or_app. right. left. reflexivity. }
  split.
  - intros Hafter.
    assert (Hall : forall i, (i < length times_jd)%nat -> nth i times_jd 0 < t0).
    { intros i Hi.
      destruct (Nat.eq_dec i (length times_jd - 1)) as [-> | Hneq].
      - rewrite <- last_nth. exact Hafter.
      - apply Rlt_trans with (last times_jd 0); [| exact Hafter].
        rewrite last_nth.
        apply (StronglySorted_nth_lt times_jd Hsorted); lia. }
    assert (Hs : df_functions_wind.searchsorted times_jd t0 = length times_jd).
    { clear - Hall. induction times_jd as [|x l IH]; [reflexivity |].
      cbn [df_functions_wind.searchsorted length].
      rewrite Rlt_b_true by (apply (Hall 0%nat); cbn; lia).
      f_equal. apply IH. intros i Hi. apply (Hall (S i)). cbn. lia. }
    unfold df_functions_wind.WindDataExtraction. rewrite Hs.
    rewrite py_index_overflow.
    destruct (df_functions_wind.py_index times_jd _); reflexivity.
  - intros Hbefore.
    assert (Hs : df_functions_wind.searchsorted times_jd t0 = 0%nat).
    { destruct times_jd as [|x l]; [reflexivity |].
      cbn [df_functions_wind.searchsorted nth] in *.
      rewrite Rlt_b_false by lra. reflexivity. }
    eexists. split.
    + unfold df_functions_wind.WindDataExtraction. rewrite Hs.
      change (Z.of_nat 0 - 1)%Z with (-1)%Z.
      rewrite py_index_last by exact Hne.
      rewrite (py_index_nat times_jd 0) by lia.
      reflexivity.
    + cbn [df_functions_wind.interp_factor df_functions_wind.warned
           df_functions_wind.WindArray].
      set (f := (t0 - last times_jd 0) / (nth 0 times_jd 0 - last times_jd 0)).
      assert (Hf : 1 < f).
      { unfold f.
        replace ((t0 - last times_jd 0) / (nth 0 times_jd 0 - last times_jd 0))
          with ((last times_jd 0 - t0) / (last times_jd 0 - nth 0 times_jd 0))
          by (field; lra).
        apply (Rmult_lt_reg_r (last times_jd 0 - nth 0 times_jd 0)); [lra |].
        unfold Rdiv. rewrite Rmult_assoc, Rinv_l by lra. lra. }
      split; [reflexivity |]. split; [exact Hf |].
      split; [| reflexivity].
      rewrite (Rlt_b_true 1 f) by exact Hf. apply orb_true_r.
Qed.

Lemma wind_time_outside_witness :
  df_functions_wind.WindDataExtraction [10; 11; 12] (fun i => [[IZR i]]) 13
  = None /\
  exists e : df_functions_wind.Extraction,
    df_functions_wind.WindDataExtraction [10; 11; 12] (fun i => [[IZR i]]) 9
    = Some e /\
    df_functions_wind.warned e = true.
Proof.
  assert (Hs : StronglySorted Rlt [10; 11; 12]) by (repeat constructor; lra).
  assert (Hl : (2 <= length [10; 11; 12])%nat) by (cbn; lia).
  split.
  - apply (proj1 (wind_time_outside [10; 11; 12] (fun i => [[IZR i]]) 13
                    Hs Hl)).
    cbn [last]. lra.
  - destruct (proj2 (wind_time_outside [10; 11; 12] (fun i => [[IZR i]]) 9
                       Hs Hl))
      as (e & He & _ & _ & Hw & _); [cbn [nth]; lra |].
    exists e. split; assumption.
Defined.

(** ** From the landing states to the output table *)

Lemma DFN_row_read (p : Output.Landed) :
  triples p -> Output.read_row (Output.DFN_row p) = p.
Proof.
  destruct p as [pe pf pl ve vm t m0 m r a c w]. unfold triples.
  cbn [Output.Pos_ECI Output.Pos_ECEF Output.Pos_LLH Output.Vel_ECEF].
  intros (H1 & H2 & H3 & H4).
  destruct pe as [|? [|? [|? [|? ?]]]]; try discriminate.
  destruct pf as [|? [|? [|? [|? ?]]]]; try discriminate.
  destruct pl as [|? [|? [|? [|? ?]]]]; try discriminate.
  destruct ve as [|? [|? [|? [|? ?]]]]; try discriminate.
  reflexivity.
Qed.

Lemma main_row_read (p : Output.Landed) (f : R) :
  triples p ->
  Output.read_row (Output.main_row p f) = p /\
  idx (Output.main_row p f) 20 = f.
Proof.
  destruct p as [pe pf pl ve vm t m0 m r a c w]. unfold triples.
  cbn [Output.Pos_ECI Output.Pos_ECEF Output.Pos_LLH Output.Vel_ECEF].
  intros (H1 & H2 & H3 & H4).
  destruct pe as [|? [|? [|? [|? ?]]]]; try discriminate.
  destruct pf as [|? [|? [|? [|? ?]]]]; try discriminate.
  destruct pl as [|? [|? [|? [|? ?]]]]; try discriminate.
  destruct ve as [|? [|? [|? [|? ?]]]]; try discriminate.
  split; reflexivity.
Qed.

Lemma map_id_on {A : Type} (g : A -> A) (l : list A) (P : A -> Prop) :
  (forall x, P x -> g x = x) -> Forall P l -> map g l = l.
Proof.
  intros Hg Hl. induction Hl as [|x l Hx Hl IH]; [reflexivity |].
  cbn [map]. rewrite Hg, IH by exact Hx. reflexivity.
Qed.

(** X22: every quantity WriteToFile reads from the gathered DATA is the one
    __main__ wrote for that particle, in the order of the ranks and of the
    particles of each rank: the four triples (positions, velocity) and the
    scalars come back from the columns they were written to, with 20 columns
    in DFN_DarkFlight.py and 21 (the fraction last) in DarkFlight_main.py. *)
Theorem output_columns (blocks : list (list Output.Landed))
    (blocks' : list (list (Output.Landed * R))) :
  Forall (Forall triples) blocks ->
  Forall (Forall (fun pf => triples (fst pf))) blocks' ->
  Output.DFN_WriteToFile_columns
    (Output.Gatherv (map (map Output.DFN_row) blocks)) = concat blocks /\
  Output.main_WriteToFile_columns
    (Output.Gatherv
       (map (map (fun pf => Output.main_row (fst pf) (snd pf))) blocks'))
  = concat blocks'.
Proof.
  intros Hall Hall'.
  unfold Output.Gatherv, Output.DFN_WriteToFile_columns,
    Output.main_WriteToFile_columns.
  split.
  - induction Hall as [|b bs Hb Hbs IH]; [reflexivity |].
    cbn [map concat]. rewrite map_app, IH. f_equal.
    rewrite map_map. apply (map_id_on _ _ triples); [| exact Hb].
    intros p Hp. apply DFN_row_read. exact Hp.
  - induction Hall' as [|b bs Hb Hbs IH]; [reflexivity |].
    cbn [map concat]. rewrite map_app, IH. f_equal.
    rewrite map_map.
    apply (map_id_on _ _ (fun pf => triples (fst pf))); [| exact Hb].
    intros [p f] Hp. cbn [fst snd] in *.
    destruct (main_row_read p f Hp) as [Hr Hf]. rewrite Hr, Hf. reflexivity.
Qed.

Lemma output_columns_witness :
  let p :=
    {| Output.Pos_ECI := [1; 2; 3]; Output.Pos_ECEF := [4; 5; 6];
       Output.Pos_LLH := [7; 8; 9]; Output.Vel_ECEF := [10; 11; 12];
       Output.Vel_mag := 13; Output.T := 14; Output.M0 := 15; Output.M := 16;
       Output.rho := 17; Output.A := 18; Output.c_ml := 19; Output.W := 20 |} in
  Output.DFN_WriteToFile_columns
    (Output.Gatherv (map (map Output.DFN_row) [[p]; [p; p]])) = [p; p; p] /\
  Output.main_WriteToFile_columns
    (Output.Gatherv
       (map (map (fun pf => Output.main_row (fst pf) (snd pf)))
            [[(p, 0.5)]; [(p, 1)]]))
  = [(p, 0.5); (p, 1)].
Proof.
  intros p.
  assert (Hp : triples p) by (repeat split).
  apply (output_columns [[p]; [p; p]] [[(p, 0.5)]; [(p, 1)]]);
    repeat constructor.
Defined.

(** ** The neighbourhood of the nearest grid point *)

Lemma py_slice_inside {A : Type} (a : nat) (l : list A) :
  (1 <= a)%nat -> (a + 2 <= length l)%nat ->
  df_functions_grid.py_slice (Z.of_nat a - 1) (Z.of_nat a + 2) l
  = firstn 3 (skipn (a - 1) l).
Proof.
  intros Ha Hb. unfold df_functions_grid.py_slice.
  destruct (Z.ltb_spec (Z.of_nat a + 2) 0); [lia |].
  destruct (Z.ltb_spec (Z.of_nat a - 1) 0); [lia |].
  rewrite !Z.min_l by lia.
  replace (Z.to_nat (Z.of_nat a + 2 - (Z.of_nat a - 1))) with 3%nat by lia.
  replace (Z.to_nat (Z.of_nat a - 1)) with (a - 1)%nat by lia.
  reflexivity.
Qed.

Lemma py_slice_first {A : Type} (l : list A) :
  (3 <= length l)%nat ->
  df_functions_grid.py_slice (Z.of_nat 0 - 1) (Z.of_nat 0 + 2) l = [].
Proof.
  intros Hl. unfold df_functions_grid.py_slice.
  change (Z.of_nat 0 - 1)%Z with (-1)%Z. change (Z.of_nat 0 + 2)%Z with 2%Z.
  change (2 <? 0)%Z with false. change (-1 <? 0)%Z with true. cbv beta iota.
  rewrite Z.min_l by lia. rewrite Z.max_r by lia.
  replace (Z.to_nat (2 - (-1 + Z.of_nat (length l)))) with 0%nat by lia.
  reflexivity.
Qed.

Lemma nth_firstn_skipn {A : Type} (l : list A) (k n i : nat) (d : A) :
  (i < n)%nat -> nth i (firstn n (skipn k l)) d = nth (k + i) l d.
Proof.
  intros Hi. rewrite nth_firstn.
  destruct (Nat.ltb_spec i n); [| lia]. apply nth_skipn.
Qed.

Lemma In_firstn_skipn {A : Type} (n k : nat) (l : list A) (x : A) :
  In x (firstn n (skipn k l)) -> In x l.
Proof.
  intros Hin.
  rewrite <- (firstn_skipn k l). apply in_or_app. right.
  rewrite <- (firstn_skipn n (skipn k l)). apply in_or_app. left. exact Hin.
Qed.

(** X23: the 3x3 block WRF3D cuts around the grid point (yid, xid) of a
    rectangular field.  For a point inside the grid the block has three rows
    of three cells, cell (i, j) being the cell (yid-1+i, xid-1+j) of the
    field.  For a point on the first row of a grid of three or more rows the
    block has no row at all, and for a point on the first column of a grid
    of three or more columns every row of the block is empty: the bound -1
    of the slice counts from the end. *)
Theorem grid_block (field : list (list R)) (rows cols yid xid : nat) :
  length field = rows -> Forall (fun r => length r = cols) field ->
  (yid < rows)%nat -> (xid < cols)%nat ->
  ((1 <= yid)%nat -> (yid + 2 <= rows)%nat ->
   (1 <= xid)%nat -> (xid + 2 <= cols)%nat ->
   length (df_functions_grid.block field yid xid) = 3%nat /\
   forall i j, (i < 3)%nat -> (j < 3)%nat ->
     length (nth i (df_functions_grid.block field yid xid) []) = 3%nat /\
     nth j (nth i (df_functions_grid.block field yid xid) []) 0
     = nth (xid - 1 + j) (nth (yid - 1 + i) field []) 0) /\
  (yid = 0%nat -> (3 <= rows)%nat ->
   df_functions_grid.block field yid xid = []) /\
  (xid = 0%nat -> (3 <= cols)%nat ->
   Forall (fun r => r = []) (df_functions_grid.block field yid xid)).
Proof.
  intros Hrows Hcols Hy Hx. split; [| split].
  - intros Hy1 Hy2 Hx1 Hx2. unfold df_functions_grid.block.
    rewrite (py_slice_inside yid field) by lia.
    assert (Hlen : length (firstn 3 (skipn (yid - 1) field)) = 3%nat)
      by (rewrite length_firstn, length_skipn; lia).
    split; [rewrite length_map; exact Hlen |].
    intros i j Hi Hj.
    rewrite (nth_map_in _ _ i [] []) by (rewrite Hlen; exact Hi).
    rewrite nth_firstn_skipn by exact Hi.
    assert (Hr : length (nth (yid - 1 + i) field []) = cols).
    { rewrite Forall_forall in Hcols. apply Hcols. apply nth_In. lia. }
    rewrite py_slice_inside by lia.
    split; [rewrite length_firstn, length_skipn; lia |].
    apply nth_firstn_skipn. exact Hj.
  - intros -> Hr. unfold df_functions_grid.block.
    rewrite py_slice_first by lia. reflexivity.
  - intros -> Hc. unfold df_functions_grid.block.
    apply Forall_forall. intros r Hin. apply in_map_iff in Hin.
    destruct Hin as (r0 & Hr0 & Hin). subst r.
    apply py_slice_first.
    assert (Hin0 : In r0 field).
    { unfold df_functions_grid.py_slice in Hin.
      apply In_firstn_skipn in Hin. exact Hin. }
    rewrite Forall_forall in Hcols. rewrite (Hcols r0 Hin0). exact Hc.
Qed.

Lemma grid_block_witness :
  let field := [[1; 2; 3]; [4; 5; 6]; [7; 8; 9]] in
  (length (df_functions_grid.block field 1 1) = 3%nat /\
   forall i j, (i < 3)%nat -> (j < 3)%nat ->
     length (nth i (df_functions_grid.block field 1 1) []) = 3%nat /\
     nth j (nth i (df_functions_grid.block field 1 1) []) 0
     = nth (1 - 1 + j) (nth (1 - 1 + i) field []) 0) /\
  df_functions_grid.block field 0 1 = [].
Proof.
  intros field.
  assert (Hc : Forall (fun r => length r = 3%nat) field)
    by (repeat constructor).
  split.
  - apply (proj1 (grid_block field 3 3 1 1 eq_refl Hc ltac:(lia) ltac:(lia)));
      lia.
  - apply (proj1 (proj2 (grid_block field 3 3 0 1 eq_refl Hc ltac:(lia)
                           ltac:(lia)))); [reflexivity | lia].
Defined.

(** ** The nearest grid point *)

Lemma fold_Rmin_le_nth (l : list R) (x : R) (i : nat) :
  (i < length l)%nat -> fold_left Rmin l x <= nth i l 0.
Proof.
  revert x i. induction l as [|z l IH]; intros x i Hi; cbn [length] in Hi;
    [lia |].
  cbn [fold_left]. destruct i as [|i]; cbn [nth].
  - eapply Rle_trans; [apply fold_Rmin_le | apply Rmin_r].
  - apply IH. lia.
Qed.

Lemma min_list_le_nth (l : list R) (i : nat) :
  (i < length l)%nat -> min_list l <= nth i l 0.
Proof.
  destruct l as [|x l]; cbn [length]; [lia |]. intros Hi.
  cbn [min_list]. destruct i as [|i]; cbn [nth].
  - apply fold_Rmin_le.
  - apply fold_Rmin_le_nth. lia.
Qed.

Lemma length_concat_rect {A : Type} (M : list (list A)) (cols : nat) :
  Forall (fun r => length r = cols) M ->
  length (concat M) = (length M * cols)%nat.
Proof.
  induction 1 as [|r M Hr HM IH]; [reflexivity |].
  cbn [concat length]. rewrite length_app, IH, Hr. lia.
Qed.

Lemma nth_concat_rect (M : list (list R)) (cols y x : nat) :
  Forall (fun r => length r = cols) M ->
  (y < length M)%nat -> (x < cols)%nat ->
  nth (y * cols + x) (concat M) 0 = nth x (nth y M []) 0.
Proof.
  intros HM. revert y. induction HM as [|r M Hr HM IH]; intros y Hy Hx;
    cbn [length] in Hy; [lia |].
  cbn [concat]. destruct y as [|y].
  - cbn [Nat.mul Nat.add nth]. apply app_nth1. lia.
  - cbn [nth]. rewrite app_nth2 by (rewrite Hr; cbn [Nat.mul]; lia).
    rewrite Hr. replace (S y * cols + x - cols)%nat with (y * cols + x)%nat
      by (cbn [Nat.mul]; lia).
    apply IH; lia.
Qed.

Lemma ang_dist2_rect (lat2d lon2d : list (list R)) (rows cols : nat)
    (lat lon : R) :
  length lat2d = rows -> length lon2d = rows ->
  Forall (fun r => length r = cols) lat2d ->
  Forall (fun r => length r = cols) lon2d ->
  length (df_functions_grid.ang_dist2 lat2d lon2d lat lon) = rows /\
  Forall (fun r => length r = cols)
         (df_functions_grid.ang_dist2 lat2d lon2d lat lon) /\
  forall y x, (y < rows)%nat -> (x < cols)%nat ->
    nth x (nth y (df_functions_grid.ang_dist2 lat2d lon2d lat lon) []) 0
    = (nth x (nth y lat2d []) 0 - lat) ^ 2
      + (nth x (nth y lon2d []) 0 - lon) ^ 2.
Proof.
  intros Hl1 Hl2 Hc1 Hc2. unfold df_functions_grid.ang_dist2.
  assert (Hrow : forall y, (y < rows)%nat ->
            length (nth y lat2d []) = cols /\ length (nth y lon2d []) = cols).
  { intros y Hy. rewrite Forall_forall in Hc1, Hc2.
    split; [apply Hc1 | apply Hc2]; apply nth_In; lia. }
  split; [rewrite length_zip_with; lia |]. split.
  - apply Forall_forall. intros r Hin.
    destruct (In_nth _ _ [] Hin) as (y & Hy & Hr).
    rewrite length_zip_with in Hy.
    rewrite (nth_zip_with _ lat2d lon2d y [] [] []) in Hr by lia.
    subst r. rewrite length_zip_with.
    destruct (Hrow y ltac:(lia)) as [H1 H2]. rewrite H1, H2. apply Nat.min_id.
  - intros y x Hy Hx.
    rewrite (nth_zip_with _ lat2d lon2d y [] [] []) by lia.
    destruct (Hrow y Hy) as [H1 H2].
    rewrite (nth_zip_with _ _ _ x 0 0 0) by lia. reflexivity.
Qed.

(** X24: the grid point WRF3D takes as the nearest one.  For non-empty
    rectangular latitude and longitude fields, the indices (xid, yid)
    computed from np.argmin are inside the grid, and no cell of the grid is
    closer to (lat, lon) in the squared angular distance
    (lat_cell - lat)^2 + (lon_cell - lon)^2. *)
Theorem nearest_grid_point (lat2d lon2d : list (list R)) (rows cols : nat)
    (lat lon : R) :
  (1 <= rows)%nat -> (1 <= cols)%nat ->
  length lat2d = rows -> length lon2d = rows ->
  Forall (fun r => length r = cols) lat2d ->
  Forall (fun r => length r = cols) lon2d ->
  let xid := fst (df_functions_grid.nearest lat2d lon2d lat lon) in
  let yid := snd (df_functions_grid.nearest lat2d lon2d lat lon) in
  let d := fun y x =>
    (nth x (nth y lat2d []) 0 - lat) ^ 2
    + (nth x (nth y lon2d []) 0 - lon) ^ 2 in
  (xid < cols)%nat /\ (yid < rows)%nat /\
  forall y x, (y < rows)%nat -> (x < cols)%nat -> d yid xid <= d y x.
Proof.
  intros Hr Hc Hl1 Hl2 Hc1 Hc2 xid yid d.
  destruct (ang_dist2_rect lat2d lon2d rows cols lat lon Hl1 Hl2 Hc1 Hc2)
    as (HL & HR & Hcell).
  set (ang := df_functions_grid.ang_dist2 lat2d lon2d lat lon) in *.
  assert (Hlen : length (concat ang) = (rows * cols)%nat)
    by (rewrite (length_concat_rect ang cols HR), HL; reflexivity).
  assert (Hne : concat ang <> []).
  { intros Hnil. rewrite Hnil in Hlen. cbn [length] in Hlen. nia. }
  destruct (argmin_spec (concat ang) Hne) as [Hlt Hmin].
  assert (Hncol : length (nth 0 lat2d []) = cols).
  { rewrite Forall_forall in Hc1. apply Hc1. apply nth_In. lia. }
  set (k := argmin (concat ang)) in *.
  assert (Hx : xid = (k mod cols)%nat).
  { unfold xid, df_functions_grid.nearest. cbn [fst]. fold ang. fold k.
    rewrite Hncol. reflexivity. }
  assert (Hy : yid = (k / cols)%nat).
  { unfold yid, df_functions_grid.nearest. cbn [snd]. fold ang. fold k.
    rewrite Hncol. reflexivity. }
  assert (Hxlt : (xid < cols)%nat) by (rewrite Hx; apply Nat.mod_upper_bound; lia).
  assert (Hylt : (yid < rows)%nat).
  { rewrite Hy. apply Nat.Div0.div_lt_upper_bound. rewrite Hlen in Hlt. lia. }
  assert (Hk : k = (yid * cols + xid)%nat).
  { rewrite Hx, Hy. rewrite (Nat.div_mod_eq k cols) at 1. lia. }
  split; [exact Hxlt |]. split; [exact Hylt |].
  intros y x Hyr Hxc. unfold d.
  rewrite <- (Hcell yid xid Hylt Hxlt), <- (Hcell y x Hyr Hxc).
  rewrite <- (nth_concat_rect ang cols yid xid HR) by lia.
  rewrite <- (nth_concat_rect ang cols y x HR) by lia.
  rewrite <- Hk, Hmin. apply min_list_le_nth. rewrite Hlen. nia.
Qed.

Lemma nearest_grid_point_witness :
  let lat2d := [[0; 0]; [1; 1]] in
  let lon2d := [[0; 1]; [0; 1]] in
  let xid := fst (df_functions_grid.nearest lat2d lon2d 0.9 0.2) in
  let yid := snd (df_functions_grid.nearest lat2d lon2d 0.9 0.2) in
  (xid < 2)%nat /\ (yid < 2)%nat /\
  forall y x, (y < 2)%nat -> (x < 2)%nat ->
    (nth xid (nth yid lat2d []) 0 - 0.9) ^ 2
    + (nth xid (nth yid lon2d []) 0 - 0.2) ^ 2
    <= (nth x (nth y lat2d []) 0 - 0.9) ^ 2
       + (nth x (nth y lon2d []) 0 - 0.2) ^ 2.
Proof.
  apply (nearest_grid_point [[0; 0]; [1; 1]] [[0; 1]; [0; 1]] 2 2 0.9 0.2);
    try lia; try reflexivity; repeat constructor.
Defined.

(** ** The backtrack as an interpolation *)





(** ** From the initial particles to the state of the integrator *)

(** X26: the row __main__ builds for a particle and what the propagation
    reads from it agree.  For a particle with a position and a velocity of
    three entries, the state handed to Propagate starts with t0; the vector
    X it integrates is position, velocity, mass, bulk density, shape factor
    and mass-loss coefficient in the order in which EarthDynamics reads them
    (X[:3], X[3:6], X[6], X[7], X[8], X[9]); the initial mass M0 kept for the
    output (column 7) is the particle's mass, and the weight (column 11) is
    not part of the state. *)
Theorem input_columns (p : Particles.Particle) :
  length (Particles.Pos_ECI0 p) = 3%nat ->
  length (Particles.Vel_ECI0 p) = 3%nat ->
  let row := Particles.DATA0_row p in
  let state0 := Runner.State_of row in
  let X := skipn 1 state0 in
  idx state0 0 = Particles.t0 p /\
  slice 1 4 state0 = Particles.Pos_ECI0 p /\
  length X = 10%nat /\
  slice 0 3 X = Particles.Pos_ECI0 p /\
  slice 3 6 X = Particles.Vel_ECI0 p /\
  idx X 6 = Particles.M p /\
  idx X 7 = Particles.rho p /\
  idx X 8 = Particles.A p /\
  idx X 9 = Particles.c_ml p /\
  idx row 7 = Particles.M p /\
  Runner.W_of row = Particles.W p.
Proof.
  destruct p as [t pos vel m r a c w].
  cbn [Particles.Pos_ECI0 Particles.Vel_ECI0 Particles.t0 Particles.M
       Particles.rho Particles.A Particles.c_ml Particles.W].
  intros Hp Hv.
  destruct pos as [|? [|? [|? [|? ?]]]]; try discriminate.
  destruct vel as [|? [|? [|? [|? ?]]]]; try discriminate.
  cbv zeta. repeat split; reflexivity.
Qed.

Lemma input_columns_witness :
  let p :=
    {| Particles.t0 := 2459000; Particles.Pos_ECI0 := [6401000; 0; 0];
       Particles.Vel_ECI0 := [-1000; 1600; 0]; Particles.M := 0.0005;
       Particles.rho := 3500; Particles.A := 1.21;
       Particles.c_ml := 0.028e-6; Particles.W := 1 |} in
  Runner.State_of (Particles.DATA0_row p) = Scenarios.dust_state0 /\
  Runner.W_of (Particles.DATA0_row p) = 1.
Proof.
  intros p.
  destruct (input_columns p eq_refl eq_refl)
    as (_ & _ & _ & _ & _ & _ & _ & _ & _ & _ & HW).
  split; [reflexivity | exact HW].
Defined.

(** ** An ablating particle across one accepted step *)














